(** * MEP stage-1 IPPO trainer for Overcooked: a shallow embedding

    Source: [src/jaxzsc/mep/mep_s1_ippo_overcooked_ff.py].

    Conventions of the embedding.
    - Python [int]s of the configuration are [Z]; [//] is [Z.div] (both round
      towards minus infinity), a division by zero raises.
    - Floating-point arrays are lists of real numbers: the arithmetic is the
      exact arithmetic the floating-point code approximates.
    - A batch axis is a list; a dictionary keyed by the two agent names is a
      [PerAgent] record; the population (a [dict] keyed by [int]) is a
      [gmap nat].
    - Python exceptions and the effects the properties speak about
      (environment steps, gradient updates, trainee check-outs, checkpoints)
      are threaded through a small error-and-log monad [M].
    - The simulator, the network, the random-number generator and automatic
      differentiation are collaborators, gathered in the class [Backend]. *)

From Stdlib Require Import Reals Lra Lia ZArith Psatz.
From stdpp Require Import base gmap list.

(* ===================================================================== *)
(** * Part I: definitions *)
(* ===================================================================== *)

(** ** Exceptions, events and the monad *)

Inductive PyError : Type :=
| ZeroDivisionError
| AssertionError
| KeyError (k : nat)
| ValueError
| TypeError
| UnboundLocalError.

Inductive Event : Type :=
| EvEnvStep                    (* one vectorised [env.step] was executed *)
| EvGradUpdate (lr : R)        (* [apply_gradients] ran with this learning rate *)
| EvCheckout (idx : nat)       (* [idx] became the trainee index *)
| EvCheckpoint (i p : nat).    (* member [p] was evaluated and saved at iteration [i] *)

Inductive result (A : Type) : Type :=
| Ok (a : A)
| Raise (e : PyError).
Arguments Ok {A} a.
Arguments Raise {A} e.

Definition M (A : Type) : Type := list Event -> result A * list Event.

#[global] Instance M_ret : MRet M := fun A a log => (Ok a, log).
#[global] Instance M_bind : MBind M := fun A B f m log =>
  match m log with
  | (Ok a, log') => f a log'
  | (Raise e, log') => (Raise e, log')
  end.

Definition raise {A : Type} (e : PyError) : M A := fun log => (Raise e, log).
Definition emit (ev : Event) : M unit := fun log => (Ok tt, log ++ [ev]).
Definition assert_ (b : bool) : M unit :=
  if b then mret tt else raise AssertionError.

(** [jax.jit f]: the Python body runs once on abstract tracers before anything
    is executed on the device, so an exception of the body (they are all
    Python-level) surfaces while tracing and none of the call's effects has
    happened. *)
Definition jit {A : Type} (m : M A) : M A := fun log =>
  match m log with
  | (Ok a, log') => (Ok a, log')
  | (Raise e, _) => (Raise e, log)
  end.

Fixpoint foldM {A B : Type} (f : B -> A -> M B) (b : B) (l : list A) : M B :=
  match l with
  | [] => mret b
  | a :: l' => b' ← f b a; foldM f b' l'
  end.

(** [jax.lax.scan f init xs]: the carry is threaded left to right, the
    per-step outputs are stacked. *)
Fixpoint scanM {C X Y : Type} (f : C -> X -> M (C * Y)) (c : C) (xs : list X)
  : M (C * list Y) :=
  match xs with
  | [] => mret (c, [])
  | x :: xs' =>
      '(c', y) ← f c x;
      '(c'', ys) ← scanM f c' xs';
      mret (c'', y :: ys)
  end.

(** [jax.lax.scan f init xs reverse=True] for a pure body: the last element is
    consumed first, and the outputs stay aligned with the inputs. *)
Fixpoint scan_reverse {C X Y : Type} (f : C -> X -> C * Y) (c : C) (xs : list X)
  : C * list Y :=
  match xs with
  | [] => (c, [])
  | x :: xs' =>
      let '(c', ys) := scan_reverse f c xs' in
      let '(c'', y) := f c' x in
      (c'', y :: ys)
  end.

(** [range(n)] for a Python integer [n]. *)
Definition range (n : Z) : list nat := seq 0 (Z.to_nat n).

(** ** Configuration *)

(** The fields a user supplies ([TrainConfig] without the logging strings). *)
Record TrainConfigArgs : Type := {
  a_checkpoint_freq : Z;
  a_population_size : Z;
  a_ent_pop_coeff : R;
  a_rew_shaping_horizon : Z;
  a_seed : Z;
  a_lr : R;
  a_anneal_lr : bool;
  a_num_envs : Z;
  a_num_steps : Z;
  a_total_timesteps : Z;
  a_update_epochs : Z;
  a_num_minibatches : Z;
  a_gamma : R;
  a_gae_lambda : R;
  a_clip_eps : R;
  a_ent_coef : R;
  a_vf_coef : R;
  a_max_grad_norm : R
}.

(** A constructed [TrainConfig]: the supplied fields and the three derived by
    [__post_init__]. *)
Record TrainConfig : Type := {
  checkpoint_freq : Z;
  population_size : Z;
  ent_pop_coeff : R;
  rew_shaping_horizon : Z;
  seed : Z;
  lr : R;
  anneal_lr : bool;
  num_envs : Z;
  num_steps : Z;
  total_timesteps : Z;
  update_epochs : Z;
  num_minibatches : Z;
  gamma : R;
  gae_lambda : R;
  clip_eps : R;
  ent_coef : R;
  vf_coef : R;
  max_grad_norm : R;
  num_actors : Z;
  num_updates : Z;
  minibatch_size : Z
}.

(** A traced integer is a signed 32-bit integer (JAX's default integer
    type): arithmetic on it wraps around. *)
Definition wrap_int32 (x : Z) : Z :=
  ((x + 2147483648) mod 4294967296 - 2147483648)%Z.

Definition floordiv (a b : Z) : result Z :=
  if (b =? 0)%Z then Raise ZeroDivisionError else Ok (a / b)%Z.

(** [TrainConfig.__post_init__]. *)
Definition post_init (a : TrainConfigArgs) : result TrainConfig :=
  let num_actors := (2 * a_num_envs a)%Z in
  match floordiv (a_total_timesteps a) (a_num_steps a) with
  | Raise e => Raise e
  | Ok q =>
    match floordiv q (a_num_envs a) with
    | Raise e => Raise e
    | Ok num_updates =>
      match floordiv (num_actors * a_num_steps a) (a_num_minibatches a) with
      | Raise e => Raise e
      | Ok minibatch_size =>
          Ok {| checkpoint_freq := a_checkpoint_freq a;
                population_size := a_population_size a;
                ent_pop_coeff := a_ent_pop_coeff a;
                rew_shaping_horizon := a_rew_shaping_horizon a;
                seed := a_seed a;
                lr := a_lr a;
                anneal_lr := a_anneal_lr a;
                num_envs := a_num_envs a;
                num_steps := a_num_steps a;
                total_timesteps := a_total_timesteps a;
                update_epochs := a_update_epochs a;
                num_minibatches := a_num_minibatches a;
                gamma := a_gamma a;
                gae_lambda := a_gae_lambda a;
                clip_eps := a_clip_eps a;
                ent_coef := a_ent_coef a;
                vf_coef := a_vf_coef a;
                max_grad_norm := a_max_grad_norm a;
                num_actors := num_actors;
                num_updates := num_updates;
                minibatch_size := minibatch_size |}
      end
    end
  end.

(** The same configuration with another random seed. *)
Definition with_seed (config : TrainConfig) (s : Z) : TrainConfig :=
  {| checkpoint_freq := checkpoint_freq config;
     population_size := population_size config;
     ent_pop_coeff := ent_pop_coeff config;
     rew_shaping_horizon := rew_shaping_horizon config;
     seed := s;
     lr := lr config;
     anneal_lr := anneal_lr config;
     num_envs := num_envs config;
     num_steps := num_steps config;
     total_timesteps := total_timesteps config;
     update_epochs := update_epochs config;
     num_minibatches := num_minibatches config;
     gamma := gamma config;
     gae_lambda := gae_lambda config;
     clip_eps := clip_eps config;
     ent_coef := ent_coef config;
     vf_coef := vf_coef config;
     max_grad_norm := max_grad_norm config;
     num_actors := num_actors config;
     num_updates := num_updates config;
     minibatch_size := minibatch_size config |}.

(** ** Schedules *)

(** [optax.linear_schedule(init_value, end_value, transition_steps)] (library
    code: a polynomial schedule of power one starting at step zero; with a
    non-positive [transition_steps] it is constantly [init_value]). *)
Definition optax_linear_schedule (init_value end_value : R) (transition_steps : Z)
    (count : Z) : R :=
  if (transition_steps <=? 0)%Z then init_value
  else
    let count := Z.min (Z.max count 0) transition_steps in
    let frac := (1 - IZR count / IZR transition_steps)%R in
    ((init_value - end_value) * frac + end_value)%R.

(** [rew_shaping_anneal] of [make_update_fn]. *)
Definition rew_shaping_anneal (config : TrainConfig) : Z -> R :=
  optax_linear_schedule 1 0 (rew_shaping_horizon config).

(** [linear_schedule] of [train]: the learning rate at optimizer step
    [count]. *)
Definition linear_schedule (config : TrainConfig) (count : Z) : R :=
  let frac :=
    (1 - IZR (count / (num_minibatches config * update_epochs config))
         / IZR (num_updates config))%R in
  (lr config * frac)%R.

(** ** Array helpers *)

Definition sum_R (l : list R) : R := foldr Rplus 0%R l.

(** [M[j][a]] with the zero default outside the shape. *)
Definition at2 (m : list (list R)) (j a : nat) : R := nth a (nth j m []) 0%R.

(** [jnp.mean(ms, axis=0)] for [ms] of shape [(length ms, rows, cols)]. *)
Definition mean_axis0 (rows cols : nat) (ms : list (list (list R))) : list (list R) :=
  map (fun j =>
         map (fun a => (sum_R (map (fun m => at2 m j a) ms) / INR (length ms))%R)
             (seq 0 cols))
      (seq 0 rows).

(** [jnp.delete(arr, idx, axis=0, assume_unique_indices=True)]: the index is
    clipped to the length, so an index past the end drops the last row. *)
Definition jnp_delete {A : Type} (idx : nat) (l : list A) : list A :=
  if (idx <? length l)%nat then delete idx l else removelast l.

(** [jnp.take(m, indices)] without an axis: the indices address the
    flattened array (an index outside it gives NaN in JAX, [0] here). *)
Definition jnp_take (m : list (list R)) (indices : list nat) : list R :=
  map (fun i => nth i (concat m) 0%R) indices.

(** [jnp.take(x, indices, axis=0)]. *)
Definition jnp_take0 {A : Type} (x : list A) (indices : list nat) : list A :=
  omap (fun i => x !! i) indices.

(** [jnp.reshape(x, [n, -1] + ...)]: [n] rows of [length x / n] entries. *)
Definition reshape_rows {A : Type} (n : nat) (x : list A) : list (list A) :=
  let k := (length x / n)%nat in
  map (fun i => take k (drop (i * k) x)) (seq 0 n).

(** [entropy]: the categorical entropy of every row. *)
Definition entropy (action_probs : list (list R)) : list R :=
  map (fun row => sum_R (map (fun p => (- p * ln p)%R) row)) action_probs.

Definition MAX_ENT : R := (- ln (1 / 6))%R.

(** Element-wise arithmetic on vectors of the actor axis. *)
Definition vadd (x y : list R) : list R := zip_with Rplus x y.
Definition vsub (x y : list R) : list R := zip_with Rminus x y.
Definition vmul (x y : list R) : list R := zip_with Rmult x y.
Definition vscale (c : R) (x : list R) : list R := map (Rmult c) x.
Definition vneg_log (x : list R) : list R := map (fun p => (- ln p)%R) x.
(** [1 - done] for a boolean array. *)
Definition one_minus (done : list bool) : list R :=
  map (fun d : bool => if d then 0%R else 1%R) done.

(** ** Data model *)

(** A dictionary keyed by [env.agents = ["agent_0"; "agent_1"]]. *)
Record PerAgent (A : Type) : Type := mkPerAgent { agent_0 : A; agent_1 : A }.
Arguments mkPerAgent {A} _ _.
Arguments agent_0 {A} _.
Arguments agent_1 {A} _.

(** [jax.tree.map] over such a dictionary. *)
Definition per_agent_map2 {A B C : Type} (f : A -> B -> C)
    (x : PerAgent A) (y : PerAgent B) : PerAgent C :=
  {| agent_0 := f (agent_0 x) (agent_0 y); agent_1 := f (agent_1 x) (agent_1 y) |}.

(** What one [env.step] returns for one environment instance; the
    [shaped_reward] entry of [info] is kept apart from the rest of [info]. *)
Record StepOut (Obs EnvState InfoRow : Type) : Type := {
  so_obs : PerAgent Obs;
  so_state : EnvState;
  so_reward : PerAgent R;
  so_done : PerAgent bool;
  so_info : PerAgent InfoRow;
  so_shaped_reward : PerAgent R
}.
Arguments so_obs {Obs EnvState InfoRow} _.
Arguments so_state {Obs EnvState InfoRow} _.
Arguments so_reward {Obs EnvState InfoRow} _.
Arguments so_done {Obs EnvState InfoRow} _.
Arguments so_info {Obs EnvState InfoRow} _.
Arguments so_shaped_reward {Obs EnvState InfoRow} _.

(** [Transition]: a pytree whose leaves all carry the same leading axes [F]
    ([list] for one timestep over the actors, [list ∘ list] once stacked over
    time, [list] again once flattened). *)
Record Transition (Obs InfoRow : Type) (F : Type -> Type) : Type := {
  done : F bool;
  action : F nat;
  value : F R;
  reward : F R;
  log_prob : F R;
  obs : F Obs;
  info : F InfoRow;
  neg_logp_pop_new : F R;
  orig_reward : F R;
  shaped_reward : F R;
  entropy_pop_delta : F R;
  neg_logp_pop_delta : F R
}.
Arguments done {Obs InfoRow F} _.
Arguments action {Obs InfoRow F} _.
Arguments value {Obs InfoRow F} _.
Arguments reward {Obs InfoRow F} _.
Arguments log_prob {Obs InfoRow F} _.
Arguments obs {Obs InfoRow F} _.
Arguments info {Obs InfoRow F} _.
Arguments neg_logp_pop_new {Obs InfoRow F} _.
Arguments orig_reward {Obs InfoRow F} _.
Arguments shaped_reward {Obs InfoRow F} _.
Arguments entropy_pop_delta {Obs InfoRow F} _.
Arguments neg_logp_pop_delta {Obs InfoRow F} _.

Definition list2 (A : Type) : Type := list (list A).

(** The collaborators of the training loop. *)
Class Backend : Type := {
  Key : Type;
  Params : Type;
  Obs : Type;
  InfoRow : Type;
  EnvState : Type;
  Grads : Type;
  AdamState : Type;
  (* jax.random *)
  random_PRNGKey : Z -> Key;
  random_split : Key -> Key * Key;
  random_split_n : Key -> nat -> list Key;
  random_choice : Key -> list nat -> nat;
  random_permutation : Key -> nat -> list nat;
  (* ActorCritic: parameters from a key; for one observation row the action
     probabilities of the categorical policy and the value estimate *)
  network_init : Key -> Params;
  network_forward : Params -> Obs -> list R * R;
  (* pi.sample(seed=key) for a batch of categorical distributions *)
  categorical_sample : Key -> list (list R) -> list nat;
  (* the wrapped Overcooked environment *)
  env_reset : Key -> PerAgent Obs * EnvState;
  env_step : Key -> EnvState -> PerAgent nat -> StepOut Obs EnvState InfoRow;
  (* jax.value_and_grad(_loss_fn) on one minibatch *)
  value_and_grad_loss :
    TrainConfig -> Params -> Transition Obs InfoRow list * list R * list R -> R * Grads;
  (* optax.chain(clip_by_global_norm, adam): the moments, and one update at a
     given learning rate followed by optax.apply_updates *)
  tx_init : Params -> AdamState;
  tx_update : TrainConfig -> R -> Grads -> AdamState -> Params -> Params * AdamState
}.

Abbreviation Trans := (Transition Obs InfoRow).

Section Trainer.
Context {B : Backend}.

(** [PopulationTrainState]; [opt_state] is the step count read by the
    learning-rate schedule together with the moments of Adam. *)
Record PopulationTrainState : Type := {
  step : Z;
  params : Params;
  opt_state : Z * AdamState;
  population : gmap nat Params;
  other_agent_idcs : list nat;
  curr_agent_idx : nat
}.

Record Metric : Type := {
  m_update_step : Z;
  m_env_step : Z;
  m_neg_logp_pop_new : R;
  m_entropy_pop_delta : R;
  m_neg_logp_pop_delta : R;
  m_orig_reward : R;
  m_shaped_reward : R
}.

(** [(train_state, env_state, last_obs, update_step, rng)]. *)
Definition RunnerState : Type :=
  PopulationTrainState * list EnvState * PerAgent (list Obs) * Z * Key.

(** [network.apply(params, obs_batch)]: the policy is represented by its
    matrix of action probabilities ([pi.probs]). *)
Definition network_apply (p : Params) (obs_batch : list Obs) : list (list R) * list R :=
  (map (fun o => fst (network_forward p o)) obs_batch,
   map (fun o => snd (network_forward p o)) obs_batch).

(** [pi.log_prob(action)]. *)
Definition pi_log_prob (pi : list (list R)) (action : list nat) : list R :=
  zip_with (fun row a => ln (nth a row 0%R)) pi action.

(** [batchify(x, env.agents, num_actors).squeeze()] and the first lines of
    [_env_step]: the rows of agent_0 followed by those of agent_1. *)
Definition batchify {A : Type} (x : PerAgent (list A)) : list A :=
  agent_0 x ++ agent_1 x.

(** [unbatchify(x, env.agents, num_envs, env.num_agents)], flattened. *)
Definition unbatchify {A : Type} (x : list A) (num_envs : nat) : PerAgent (list A) :=
  {| agent_0 := take num_envs x; agent_1 := take num_envs (drop num_envs x) |}.

(** [population[i]]. *)
Definition getitem (population : gmap nat Params) (i : nat) : M Params :=
  match population !! i with
  | Some p => mret p
  | None => raise (KeyError i)
  end.

(** [jax.vmap(env.step, in_axes=(0, 0, 0))(rng_step, env_state, env_act)]. *)
Definition vmap_env_step (rng_step : list Key) (env_state : list EnvState)
    (env_act : PerAgent (list nat)) : list (StepOut Obs EnvState InfoRow) :=
  zip_with (fun ks a => env_step (fst ks) (snd ks) (mkPerAgent (fst a) (snd a)))
           (zip rng_step env_state)
           (zip (agent_0 env_act) (agent_1 env_act)).

Definition unzip_agents {A : Type} (f : StepOut Obs EnvState InfoRow -> PerAgent A)
    (outs : list (StepOut Obs EnvState InfoRow)) : PerAgent (list A) :=
  {| agent_0 := map (fun o => agent_0 (f o)) outs;
     agent_1 := map (fun o => agent_1 (f o)) outs |}.

(** ** Rollout collection and the diversity bonus *)

(** The loop [for i in range(config.population_size)] of [_env_step]. The
    names [pi], [value], [action] and [log_prob] are assigned again on every
    pass. *)
Definition population_pass (config : TrainConfig) (train_state : PopulationTrainState)
    (obs_batch : list Obs)
    (st : Key * list (list R) * list R * list nat * list R
          * list (list nat) * list (list (list R))) (i : nat)
  : M (Key * list (list R) * list R * list nat * list R
       * list (list nat) * list (list (list R))) :=
  let '(rng, pi, value, action, log_prob, actions_np, action_probs_np) := st in
  let '(rng, _rng) := random_split rng in
  p ← getitem (population train_state) i;
  let '(pi, value) := network_apply p obs_batch in
  let action := categorical_sample _rng pi in
  let log_prob := pi_log_prob pi action in
  let actions_np := <[i := action]> actions_np in
  let action_probs_np := <[i := pi]> action_probs_np in
  mret (rng, pi, value, action, log_prob, actions_np, action_probs_np).

(** [_env_step], the body of the collection scan. The action dimension [6]
    is the literal of the source; indexing a one-dimensional array at a
    position it does not have is [0] here (it is never reached with at least
    one environment instance). [update_step] is a traced integer, so
    [current_timestep] is a 32-bit product. The sizes are taken to be
    non-negative and to agree with the shapes of the state ([valid_sizes],
    [runner_shape] below): JAX refuses a negative dimension and arrays whose
    lengths differ, where [Z.to_nat] gives [0] and [zip_with] stops at the
    shorter list. *)
Definition _env_step (config : TrainConfig) (runner_state : RunnerState) (unused : unit)
  : M (RunnerState * Trans list) :=
  let '(train_state, env_state, last_obs, update_step, rng) := runner_state in
  let n_actors := Z.to_nat (num_actors config) in
  (* SELECT ACTION *)
  let '(rng, _rng) := random_split rng in
  let obs_batch := batchify last_obs in
  let '(pi, value) := network_apply (params train_state) obs_batch in
  let action := categorical_sample _rng pi in
  let log_prob := pi_log_prob pi action in
  let action_probs_agent0 := pi in
  let actions := action in
  let action_probs_np :=
    replicate (Z.to_nat (population_size config))
              (replicate n_actors (replicate 6 0%R)) in
  let actions_np :=
    replicate (Z.to_nat (population_size config)) (replicate n_actors 0%nat) in
  '(rng, pi, value, action, log_prob, actions_np, action_probs_np) ←
    foldM (population_pass config train_state obs_batch)
          (rng, pi, value, action, log_prob, actions_np, action_probs_np)
          (range (population_size config));
  (* Remove current agent *)
  let action_probs_np := jnp_delete (curr_agent_idx train_state) action_probs_np in
  let actions_np := jnp_delete (curr_agent_idx train_state) actions_np in
  let action_probs_pop_np := mean_axis0 n_actors 6 action_probs_np in
  let action_probs_np_new := action_probs_np ++ [action_probs_agent0] in
  let action_probs_pop_np_new := mean_axis0 n_actors 6 action_probs_np_new in
  let entropy_pop := entropy action_probs_pop_np in
  let entropy_pop_new := entropy action_probs_pop_np_new in
  let entropy_pop_delta := vsub entropy_pop_new entropy_pop in
  let sampled_action_prob_pop_np := jnp_take action_probs_pop_np actions in
  let neg_logp_pop := vneg_log sampled_action_prob_pop_np in
  let sampled_action_prob_pop_np_new := jnp_take action_probs_pop_np_new actions in
  let neg_logp_pop_new := vneg_log sampled_action_prob_pop_np_new in
  let neg_logp_pop_delta := vsub neg_logp_pop_new neg_logp_pop in
  let env_act := unbatchify action (Z.to_nat (num_envs config)) in
  (* STEP ENV *)
  let '(rng, _rng) := random_split rng in
  let rng_step := random_split_n _rng (Z.to_nat (num_envs config)) in
  let outs := vmap_env_step rng_step env_state env_act in
  _ ← emit EvEnvStep;
  let obsv := unzip_agents so_obs outs in
  let env_state := map so_state outs in
  let orig_reward := unzip_agents so_reward outs in
  let done := unzip_agents so_done outs in
  let shaped_reward := unzip_agents so_shaped_reward outs in
  let current_timestep :=
    wrap_int32 (update_step * num_steps config * num_envs config) in
  let reward :=
    per_agent_map2
      (zip_with (fun x y => (x + y * rew_shaping_anneal config current_timestep)%R))
      orig_reward shaped_reward in
  let neg_logp_pop_new_a :=
    {| agent_0 := nth 0 neg_logp_pop_new 0%R; agent_1 := nth 1 neg_logp_pop_new 0%R |} in
  let reward :=
    per_agent_map2
      (fun x y => map (fun x => (x + y * ent_pop_coeff config)%R) x)
      reward neg_logp_pop_new_a in
  let info := concat (map (fun o => [agent_0 (so_info o); agent_1 (so_info o)]) outs) in
  let transition : Trans list :=
    {| done := batchify done;
       action := action;
       value := value;
       reward := batchify reward;
       log_prob := log_prob;
       obs := obs_batch;
       info := info;
       neg_logp_pop_new := neg_logp_pop_new;
       orig_reward := batchify orig_reward;
       shaped_reward := batchify shaped_reward;
       entropy_pop_delta := entropy_pop_delta;
       neg_logp_pop_delta := neg_logp_pop_delta |} in
  mret ((train_state, env_state, obsv, update_step, rng), transition).

(** ** Advantage estimation *)

(** [_get_advantages], one step of the backward recurrence, for all actors
    at once. *)
Definition _get_advantages (config : TrainConfig)
    (gae_and_next_value : list R * list R) (transition : Trans list)
  : (list R * list R) * list R :=
  let '(gae, next_value) := gae_and_next_value in
  let '(done, value, reward) := (done transition, value transition, reward transition) in
  let delta :=
    vsub (vadd reward (vmul (vscale (gamma config) next_value) (one_minus done))) value in
  let gae :=
    vadd delta
         (vmul (vscale (gamma config * gae_lambda config)%R (one_minus done)) gae) in
  ((gae, value), gae).

(** [_calculate_gae]: the advantages and the value targets, both of shape
    (time, actor). *)
Definition _calculate_gae (config : TrainConfig) (traj_batch : list (Trans list))
    (last_val : list R) : list (list R) * list (list R) :=
  let '(_, advantages) :=
    scan_reverse (_get_advantages config)
                 (replicate (length last_val) 0%R, last_val) traj_batch in
  (advantages, zip_with vadd advantages (map value traj_batch)).

(** ** Policy optimisation *)

(** [jax.tree_util.tree_map] of a shape-changing function over the leaves of
    [(traj_batch, advantages, targets)]. *)
Definition transition_map {F G : Type -> Type} (f : forall A, F A -> G A)
    (t : Trans F) : Trans G :=
  {| done := f _ (done t);
     action := f _ (action t);
     value := f _ (value t);
     reward := f _ (reward t);
     log_prob := f _ (log_prob t);
     obs := f _ (obs t);
     info := f _ (info t);
     neg_logp_pop_new := f _ (neg_logp_pop_new t);
     orig_reward := f _ (orig_reward t);
     shaped_reward := f _ (shaped_reward t);
     entropy_pop_delta := f _ (entropy_pop_delta t);
     neg_logp_pop_delta := f _ (neg_logp_pop_delta t) |}.

Definition batch_map {F G : Type -> Type} (f : forall A, F A -> G A)
    (batch : Trans F * F R * F R) : Trans G * G R * G R :=
  let '(traj_batch, advantages, targets) := batch in
  (transition_map f traj_batch, f _ advantages, f _ targets).

(** The per-step outputs of a scan, stacked leaf by leaf. *)
Definition stack (ts : list (Trans list)) : Trans list2 :=
  {| done := map done ts;
     action := map action ts;
     value := map value ts;
     reward := map reward ts;
     log_prob := map log_prob ts;
     obs := map obs ts;
     info := map info ts;
     neg_logp_pop_new := map neg_logp_pop_new ts;
     orig_reward := map orig_reward ts;
     shaped_reward := map shaped_reward ts;
     entropy_pop_delta := map entropy_pop_delta ts;
     neg_logp_pop_delta := map neg_logp_pop_delta ts |}.

(** The slices along the leading axis (of length [n]) a scan iterates over. *)
Definition unstack (n : nat) (batch : Trans list2 * list2 R * list2 R)
  : list (Trans list * list R * list R) :=
  map (fun i => @batch_map list2 list (fun A x => nth i x []) batch) (seq 0 n).

(** [TrainState.apply_gradients] with
    [tx = chain(clip_by_global_norm, adam(learning_rate=linear_schedule))]. *)
Definition apply_gradients (config : TrainConfig) (train_state : PopulationTrainState)
    (grads : Grads) : M PopulationTrainState :=
  let '(count, moments) := opt_state train_state in
  let learning_rate := linear_schedule config count in
  let '(new_params, new_moments) :=
    tx_update config learning_rate grads moments (params train_state) in
  _ ← emit (EvGradUpdate learning_rate);
  mret {| step := step train_state + 1;
          params := new_params;
          opt_state := ((count + 1)%Z, new_moments);
          population := population train_state;
          other_agent_idcs := other_agent_idcs train_state;
          curr_agent_idx := curr_agent_idx train_state |}.

Definition _update_minbatch (config : TrainConfig) (train_state : PopulationTrainState)
    (batch_info : Trans list * list R * list R) : M (PopulationTrainState * R) :=
  let '(total_loss, grads) :=
    value_and_grad_loss config (params train_state) batch_info in
  train_state ← apply_gradients config train_state grads;
  mret (train_state, total_loss).

Definition UpdateState : Type :=
  PopulationTrainState * list (Trans list) * list2 R * list2 R * Key.

(** The lines of [_update_epoch] between the assertion and the scan: the
    batch is flattened, reordered by a fresh permutation and cut into
    [num_minibatches] rows ([num_minibatches] taken to be positive:
    [jnp.reshape] refuses a negative dimension). *)
Definition make_minibatches (config : TrainConfig) (_rng : Key) (batch_size : Z)
    (batch : Trans list2 * list2 R * list2 R) : Trans list2 * list2 R * list2 R :=
  let permutation := random_permutation _rng (Z.to_nat batch_size) in
  let batch := @batch_map list2 list (fun A x => concat x) batch in
  let shuffled_batch :=
    @batch_map list list (fun A x => jnp_take0 x permutation) batch in
  let minibatches :=
    @batch_map list list2
      (fun A x => reshape_rows (Z.to_nat (num_minibatches config)) x) shuffled_batch in
  minibatches.

(** [_update_epoch]. The body of its scan over the minibatches,
    [_update_minbatch], raises nothing, so that scan is the plain [scanM]. *)
Definition _update_epoch (config : TrainConfig) (update_state : UpdateState)
    (unused : unit) : M (UpdateState * list R) :=
  let '(train_state, traj_batch, advantages, targets, rng) := update_state in
  let '(rng, _rng) := random_split rng in
  let batch_size := (minibatch_size config * num_minibatches config)%Z in
  _ ← assert_ (batch_size =? num_steps config * num_actors config)%Z;
  let batch := (stack traj_batch, advantages, targets) in
  let minibatches := make_minibatches config _rng batch_size batch in
  '(train_state, total_loss) ←
    scanM (_update_minbatch config) train_state
          (unstack (Z.to_nat (num_minibatches config)) minibatches);
  mret ((train_state, traj_batch, advantages, targets, rng), total_loss).

(** Only the exceptions of [m]: what tracing a function body does. *)
Definition traced {A : Type} (m : M A) : M unit := fun log =>
  match m log with
  | (Ok _, _) => (Ok tt, log)
  | (Raise e, _) => (Raise e, log)
  end.

(** [jax.lax.scan(f, init, None, length)]: the body is traced once on the
    initial carry, whatever the length, and then iterated. *)
Definition lax_scan {C Y : Type} (f : C -> unit -> M (C * Y)) (init : C) (length : Z)
  : M (C * list Y) :=
  _ ← traced (f init tt);
  scanM f init (replicate (Z.to_nat length) tt).

Definition mean_R (l : list R) : R := (sum_R l / INR (length l))%R.

(** [x.sum(axis=0)] for [x] of shape [(length x, cols)]. *)
Definition sum_axis0 (cols : nat) (x : list2 R) : list R :=
  map (fun j => sum_R (map (fun row => nth j row 0%R) x)) (seq 0 cols).

(** [_update_step] of [make_update_fn]; the means of the wrapper's episode
    statistics and the [wandb] callback are logging only and left out.
    [metric["env_step"]] is a 32-bit product like [current_timestep]. *)
Definition _update_step (config : TrainConfig) (runner_state : RunnerState)
  : M (RunnerState * Metric) :=
  (* COLLECT TRAJECTORIES *)
  '(runner_state, traj_batch) ←
    lax_scan (_env_step config) runner_state (num_steps config);
  (* CALCULATE ADVANTAGE *)
  let '(train_state, env_state, last_obs, update_step, rng) := runner_state in
  let last_obs_batch := batchify last_obs in
  let '(_, last_val) := network_apply (params train_state) last_obs_batch in
  let '(advantages, targets) := _calculate_gae config traj_batch last_val in
  (* UPDATE NETWORK *)
  let update_state : UpdateState :=
    (train_state, traj_batch, advantages, targets, rng) in
  '(update_state, loss_info) ←
    lax_scan (_update_epoch config) update_state (update_epochs config);
  let '(train_state, _, _, _, rng) := update_state in
  let update_step := (update_step + 1)%Z in
  let n_actors := Z.to_nat (num_actors config) in
  let metric :=
    {| m_update_step := update_step;
       m_env_step := wrap_int32 (update_step * num_steps config * num_envs config);
       m_neg_logp_pop_new := mean_R (concat (map neg_logp_pop_new traj_batch));
       m_entropy_pop_delta := mean_R (concat (map entropy_pop_delta traj_batch));
       m_neg_logp_pop_delta := mean_R (concat (map neg_logp_pop_delta traj_batch));
       m_orig_reward :=
         (mean_R (sum_axis0 n_actors (map orig_reward traj_batch)) / 2)%R;
       m_shaped_reward :=
         mean_R (sum_axis0 n_actors (map shaped_reward traj_batch)) |} in
  mret ((train_state, env_state, last_obs, update_step, rng), metric).

(** ** The training loop *)

(** [int(jax.random.choice(key, a))]: an empty [a] is rejected. *)
Definition jax_random_choice (key : Key) (a : list nat) : M nat :=
  match a with
  | [] => raise ValueError
  | _ => mret (random_choice key a)
  end.

(** [all_agent_idcs[all_agent_idcs != idx]]. *)
Definition other_indices (all_agent_idcs : list nat) (idx : nat) : list nat :=
  filter (fun j => j ≠ idx) all_agent_idcs.

(** The loop filling [a_jnp_dict]. *)
Definition init_population (config : TrainConfig) (rng : Key) : Key * gmap nat Params :=
  foldl (fun (st : Key * gmap nat Params) i =>
           let '(rng, a_jnp_dict) := st in
           let '(rng, _rng_a) := random_split rng in
           (rng, <[i := network_init _rng_a]> a_jnp_dict))
        (rng, ∅) (range (population_size config)).

(** The checkpoint block at the end of an iteration: the evaluation rollout
    and the pickling of every member are one event each. *)
Definition checkpoint (config : TrainConfig) (train_state : PopulationTrainState)
    (i : nat) : M unit :=
  if (checkpoint_freq config =? 0)%Z then raise ZeroDivisionError
  else if ((Z.of_nat i mod checkpoint_freq config =? 0)%Z && negb (i =? 0)%nat)%bool
  then foldM (fun (_ : unit) p =>
                _ ← getitem (population train_state) p;
                emit (EvCheckpoint i p))
             tt (range (population_size config))
  else mret tt.

(** [(key, runner_state, old_param_idx, metric)]; [metric] is unbound before
    the first iteration. *)
Definition LoopState : Type := Key * RunnerState * nat * option Metric.

(** The body of [for i in range(config.num_updates)]. *)
Definition train_iteration (config : TrainConfig) (all_agent_idcs : list nat)
    (st : LoopState) (i : nat) : M LoopState :=
  let '(key, runner_state, old_param_idx, _) := st in
  let '(key, _key) := random_split key in
  '(runner_state, metric) ← jit (_update_step config runner_state);
  let '(train_state, env_state, last_obs, update_step, rng) := runner_state in
  (* Now we need to update the population with the newly trained agent *)
  new_param_idx ← jax_random_choice _key all_agent_idcs;
  let population := population train_state in
  new_params_to_train ← getitem population new_param_idx;
  let population := <[old_param_idx := params train_state]> population in
  _ ← emit (EvCheckout new_param_idx);
  let train_state :=
    {| step := step train_state;
       params := new_params_to_train;
       opt_state := opt_state train_state;
       population := population;
       other_agent_idcs := other_indices all_agent_idcs new_param_idx;
       curr_agent_idx := new_param_idx |} in
  let runner_state : RunnerState :=
    (train_state, env_state, last_obs, update_step, rng) in
  let old_param_idx := new_param_idx in
  _ ← checkpoint config train_state i;
  mret (key, runner_state, old_param_idx, Some metric).

(** [train] up to the loop. The calls that come first in the source
    ([wandb.init], the creation of the checkpoint directory and of the
    environment from [config.layout_name]) belong to the logging, file and
    simulator collaborators and are not part of the embedding. [num_envs] is
    taken to be non-negative ([jax.random.split] refuses a negative number of
    keys). *)
Definition train_init (config : TrainConfig) : M LoopState :=
  let rng := random_PRNGKey (seed config) in
  let '(rng, a_jnp_dict) := init_population config rng in
  _ ← (if anneal_lr config then mret tt else raise TypeError);
  let key := random_PRNGKey 0 in
  let all_agent_idcs := range (population_size config) in
  param_idx ← jax_random_choice key all_agent_idcs;
  let other_agent_idcs := other_indices all_agent_idcs param_idx in
  params_ts ← getitem a_jnp_dict param_idx;
  _ ← emit (EvCheckout param_idx);
  let train_state :=
    {| step := 0;
       params := params_ts;
       opt_state := (0%Z, tx_init params_ts);
       population := a_jnp_dict;
       other_agent_idcs := other_agent_idcs;
       curr_agent_idx := param_idx |} in
  (* INIT ENV *)
  let '(rng, _rng) := random_split rng in
  let reset_rng := random_split_n _rng (Z.to_nat (num_envs config)) in
  let resets := map env_reset reset_rng in
  let obsv :=
    {| agent_0 := map (fun r => agent_0 (fst r)) resets;
       agent_1 := map (fun r => agent_1 (fst r)) resets |} in
  let env_state := map snd resets in
  let runner_state : RunnerState := (train_state, env_state, obsv, 0%Z, _rng) in
  let old_param_idx := param_idx in
  mret (key, runner_state, old_param_idx, None).

(** The first [n] iterations of the loop. *)
Definition train_loop (config : TrainConfig) (n : nat) (st : LoopState) : M LoopState :=
  foldM (train_iteration config (range (population_size config))) st (seq 0 n).

(** [train]: [metric] is read after the loop, which binds it only if it ran
    at least once. *)
Definition train (config : TrainConfig) : M (RunnerState * Metric) :=
  st ← train_init config;
  '(key, runner_state, old_param_idx, metric) ←
    train_loop config (Z.to_nat (num_updates config)) st;
  match metric with
  | Some metric => mret (runner_state, metric)
  | None => raise UnboundLocalError
  end.

(** The entry point: [pyrallis] constructs the configuration, [train] runs
    from an empty log. *)
Definition program (a : TrainConfigArgs) : result (RunnerState * Metric) * list Event :=
  match post_init a with
  | Ok config => train config []
  | Raise e => (Raise e, [])
  end.

End Trainer.

(** ** Notions used in the statements *)

(** [sum_{k < m} x^k * delta], the advantage after [m] steps of the backward
    recurrence on a constant trajectory. *)
Definition gae_unrolled (x delta : R) (m : nat) : R :=
  match m with
  | O => 0%R
  | S m' => sum_f_R0 (fun k => (x ^ k * delta)%R) m'
  end.

(** A timestep with no episode end, reward [r] and value [v] for each of the
    [n] actors. *)
Definition constant_step {B : Backend} (n : nat) (r v : R) (tr : Trans list) : Prop :=
  done tr = replicate n false /\ reward tr = replicate n r /\ value tr = replicate n v.

(** Every index of [range(population_size)] is a key of the population. *)
Definition pop_ok {B : Backend} (config : TrainConfig) (population : gmap nat Params) : Prop :=
  Forall (fun i => is_Some (population !! i)) (range (population_size config)).

(** The condition asserted in [_update_epoch]. *)
Definition batch_ok (config : TrainConfig) : Prop :=
  (minibatch_size config * num_minibatches config)%Z
  = (num_steps config * num_actors config)%Z.

(** The members of the population in index order. *)
Definition members_of {B : Backend} (population : gmap nat Params) (ms : list Params) : Prop :=
  forall i p, ms !! i = Some p -> population !! i = Some p.

(** The diversity bonus of actor [j] in the words of the specification:
    [ent_pop_coeff] times the negative log-probability of the actor's own
    sampled action under the actor's own row of [population_mix_with]. *)
Definition spec_diversity_bonus (config : TrainConfig) (mix_with : list (list R))
    (actions : list nat) (j : nat) : R :=
  (ent_pop_coeff config * - ln (at2 mix_with j (nth j actions 0%nat)))%R.

(** The gradient-update events of [n] consecutive optimizer steps starting at
    step count [c]. *)
Definition grad_events (config : TrainConfig) (c : Z) (n : nat) : list Event :=
  map (fun j => EvGradUpdate (linear_schedule config (c + Z.of_nat j))) (seq 0 n).

(** The events of one successful call of [_update_step] entered at optimizer
    step count [c]. *)
Definition update_events (config : TrainConfig) (c : Z) : list Event :=
  replicate (Z.to_nat (num_steps config)) EvEnvStep
  ++ grad_events config c
       (Z.to_nat (update_epochs config) * Z.to_nat (num_minibatches config)).

(** What the optimizer leaves untouched in the trainer state. *)
Definition same_population {B : Backend} (ts ts' : PopulationTrainState) : Prop :=
  population ts' = population ts
  /\ curr_agent_idx ts' = curr_agent_idx ts
  /\ other_agent_idcs ts' = other_agent_idcs ts.

(** How [make_minibatches] treats one leaf, and the sample indices of the
    minibatches. *)
Definition minibatch_leaf {B : Backend} (config : TrainConfig) (_rng : Key)
    (batch_size : Z) (A : Type) (x : list2 A) : list2 A :=
  reshape_rows (Z.to_nat (num_minibatches config))
    (jnp_take0 (concat x) (random_permutation _rng (Z.to_nat batch_size))).

Definition minibatch_indices {B : Backend} (config : TrainConfig) (_rng : Key)
    (batch_size : Z) : list (list nat) :=
  reshape_rows (Z.to_nat (num_minibatches config))
    (random_permutation _rng (Z.to_nat batch_size)).

(** Projections of the log. *)
Definition lrs_of (log : list Event) : list R :=
  omap (fun ev => match ev with EvGradUpdate lr => Some lr | _ => None end) log.

Definition checkouts (log : list Event) : list nat :=
  omap (fun ev => match ev with EvCheckout i => Some i | _ => None end) log.

Definition is_training (ev : Event) : bool :=
  match ev with
  | EvEnvStep | EvGradUpdate _ => true
  | _ => false
  end.

(** The trainer state, the trainee index and the optimizer step count of a
    loop state. *)
Definition loop_train_state {B : Backend} (st : LoopState) : PopulationTrainState :=
  let '(_, (ts, _, _, _, _), _, _) := st in ts.

Definition loop_key {B : Backend} (st : LoopState) : Key :=
  let '(key, _, _, _) := st in key.

Definition loop_old_param_idx {B : Backend} (st : LoopState) : nat :=
  let '(_, _, old_param_idx, _) := st in old_param_idx.

Definition loop_runner_state {B : Backend} (st : LoopState) : RunnerState :=
  let '(_, runner_state, _, _) := st in runner_state.

Definition loop_metric {B : Backend} (st : LoopState) : option Metric :=
  let '(_, _, _, metric) := st in metric.

(** The invariant of the training loop. *)
Definition loop_inv {B : Backend} (config : TrainConfig) (st : LoopState) : Prop :=
  let ts := loop_train_state st in
  dom (population ts) = set_seq 0 (Z.to_nat (population_size config))
  /\ loop_old_param_idx st = curr_agent_idx ts
  /\ (curr_agent_idx ts < Z.to_nat (population_size config))%nat
  /\ other_agent_idcs ts
     = other_indices (range (population_size config)) (curr_agent_idx ts).

(** ** The loss and the evaluation rollout *)

(** [jnp.clip(x, lo, hi)], that is [minimum(maximum(x, lo), hi)]. *)
Definition jnp_clip (lo hi x : R) : R := Rmin (Rmax x lo) hi.

(** [x.std()]: the square root of the mean squared deviation. *)
Definition std_R (l : list R) : R :=
  sqrt (mean_R (map (fun x => ((x - mean_R l) * (x - mean_R l))%R) l)).

(** [_loss_fn] of [_update_minbatch], the function [jax.value_and_grad]
    differentiates (the collaborator [value_and_grad_loss] stands for its value
    and gradient). It returns [total_loss, (value_loss, loss_actor, entropy)]. *)
Definition _loss_fn {B : Backend} (config : TrainConfig) (params : Params)
    (batch : Trans list * list R * list R) : R * (R * R * R) :=
  let '(traj_batch, gae, targets) := batch in
  let traj_batch_value := value traj_batch in
  let traj_batch_log_prob := log_prob traj_batch in
  (* RERUN NETWORK *)
  let '(pi, value) := network_apply params (obs traj_batch) in
  let log_prob := pi_log_prob pi (action traj_batch) in
  (* CALCULATE VALUE LOSS *)
  let value_pred_clipped :=
    vadd (traj_batch_value)
         (map (jnp_clip (- clip_eps config) (clip_eps config))
              (vsub value (traj_batch_value))) in
  let value_losses := map (fun x => (x * x)%R) (vsub value targets) in
  let value_losses_clipped := map (fun x => (x * x)%R) (vsub value_pred_clipped targets) in
  let value_loss := (1 / 2 * mean_R (zip_with Rmax value_losses value_losses_clipped))%R in
  (* CALCULATE ACTOR LOSS *)
  let ratio := map exp (vsub log_prob (traj_batch_log_prob)) in
  let gae :=
    map (fun g => ((g - mean_R gae) / (std_R gae + 1 / 100000000))%R) gae in
  let loss_actor1 := vmul ratio gae in
  let loss_actor2 :=
    vmul (map (jnp_clip (1 - clip_eps config) (1 + clip_eps config)) ratio) gae in
  let loss_actor := map Ropp (zip_with Rmin loss_actor1 loss_actor2) in
  let loss_actor := mean_R loss_actor in
  let entropy := mean_R (entropy pi) in
  let total_loss :=
    (loss_actor + vf_coef config * value_loss - ent_coef config * entropy)%R in
  (total_loss, (value_loss, loss_actor, entropy)).

(** [jax.lax.while_loop(cond, body, init)], cut off after [fuel] turns of the
    body: [None] stands for a loop that has not ended by then. *)
Fixpoint while_loop {C : Type} (cond : C -> bool) (body : C -> C) (fuel : nat) (c : C)
  : option C :=
  if cond c then
    match fuel with
    | O => None
    | S fuel' => while_loop cond body fuel' (body c)
    end
  else Some c.

(** [RolloutStats]. *)
Record RolloutStats : Type := { stats_reward : R; stats_length : Z }.

(** What [rollout] needs beyond [Backend]: the three-way key split and the
    unwrapped environment, whose [step] also returns [done["__all__"]]. *)
Class Evaluator (B : Backend) : Type := {
  RawState : Type;
  random_split3 : Key -> Key * Key * Key;
  raw_reset : Key -> PerAgent Obs * RawState;
  raw_step : Key -> RawState -> PerAgent nat -> PerAgent Obs * RawState * PerAgent R * bool
}.

Section Rollout.
Context {B : Backend} {E : Evaluator B}.

(** [(rng, env_state, stats, obsv, done)]. *)
Definition RolloutCarry : Type := Key * RawState * RolloutStats * PerAgent Obs * bool.

Definition _cond_fn (carry : RolloutCarry) : bool :=
  let '(rng, env_state, stats, obsv, done) := carry in negb done.

(** The [env.step] call of [_body_fn]: the two rows of the observation batch
    are the two agents, and each agent gets its own sampled action. *)
Definition rollout_env_step (params : Params) (carry : RolloutCarry)
  : Key * (PerAgent Obs * RawState * PerAgent R * bool) :=
  let '(rng, env_state, stats, last_obs, done) := carry in
  let '(rng, rng_action, rng_step) := random_split3 rng in
  let obs_batch := [agent_0 last_obs; agent_1 last_obs] in
  let '(pi, _) := network_apply params obs_batch in
  let action := categorical_sample rng_action pi in
  let env_act := {| agent_0 := nth 0 action 0%nat; agent_1 := nth 1 action 0%nat |} in
  (rng, raw_step rng_step env_state env_act).

Definition _body_fn (params : Params) (carry : RolloutCarry) : RolloutCarry :=
  let '(_, _, stats, _, _) := carry in
  let '(rng, (obsv, env_state, reward, done_all)) := rollout_env_step params carry in
  let stats :=
    {| stats_reward := (stats_reward stats + agent_0 reward)%R;
       stats_length := (stats_length stats + 1)%Z |} in
  (rng, env_state, stats, obsv, done_all).

(** The initial carry of [rollout]: the loop starts from [rng] itself, the
    environment is reset with the second half of its split. *)
Definition rollout_init (rng : Key) : RolloutCarry :=
  let '(key, key_r) := random_split rng in
  let '(obs, state) := raw_reset key_r in
  (rng, state, {| stats_reward := 0%R; stats_length := 0%Z |}, obs, false).

(** [rollout]: the cumulative reward and the length of one episode. *)
Definition rollout (rng : Key) (params : Params) (fuel : nat) : option (R * Z) :=
  match while_loop _cond_fn (_body_fn params) fuel (rollout_init rng) with
  | Some (_, _, stats, _, _) => Some (stats_reward stats, stats_length stats)
  | None => None
  end.

(** The carry after [j] turns of the body, its [done] flag, and the reward of
    agent_0 in the environment step taken from it. *)
Definition rollout_carry (rng : Key) (params : Params) (j : nat) : RolloutCarry :=
  Nat.iter j (_body_fn params) (rollout_init rng).

Definition carry_done (carry : RolloutCarry) : bool :=
  let '(_, _, _, _, done) := carry in done.

Definition carry_stats (carry : RolloutCarry) : RolloutStats :=
  let '(_, _, stats, _, _) := carry in stats.

Definition step_reward (params : Params) (carry : RolloutCarry) : R :=
  let '(_, (_, _, reward, _)) := rollout_env_step params carry in agent_0 reward.

End Rollout.

(** ** Further notions used in the statements *)

(** The number of vectorised environment steps in a log, and its checkpoint
    events. *)
Definition env_steps (log : list Event) : nat :=
  length (omap (fun ev => match ev with EvEnvStep => Some tt | _ => None end) log).

Definition checkpoints_of (log : list Event) : list (nat * nat) :=
  omap (fun ev => match ev with EvCheckpoint i p => Some (i, p) | _ => None end) log.

(** The condition of the checkpoint block, and the checkpoints it writes at
    iteration [i]. *)
Definition checkpoint_due (config : TrainConfig) (i : nat) : bool :=
  ((Z.of_nat i mod checkpoint_freq config =? 0)%Z && negb (i =? 0)%nat)%bool.

Definition checkpoints_at (config : TrainConfig) (i : nat) : list (nat * nat) :=
  if checkpoint_due config i then map (pair i) (range (population_size config)) else [].

(** A timestep whose [done], [value] and [reward] arrays have one entry for
    each of [n] actors. *)
Definition step_shape {B : Backend} (n : nat) (tr : Trans list) : Prop :=
  length (done tr) = n /\ length (value tr) = n /\ length (reward tr) = n.

(** Two timesteps with the same [done], [value] and [reward] for actor [j]. *)
Definition same_actor_data {B : Backend} (j : nat) (t1 t2 : Trans list) : Prop :=
  done t1 !! j = done t2 !! j
  /\ value t1 !! j = value t2 !! j
  /\ reward t1 !! j = reward t2 !! j.

(** The advantage and the value target of actor [j] at timestep [t]. *)
Definition advantage_at {B : Backend} (config : TrainConfig)
    (traj_batch : list (Trans list)) (last_val : list R) (t j : nat) : option R :=
  fst (_calculate_gae config traj_batch last_val) !! t ≫= (fun row => row !! j).

Definition target_at {B : Backend} (config : TrainConfig)
    (traj_batch : list (Trans list)) (last_val : list R) (t j : nat) : option R :=
  snd (_calculate_gae config traj_batch last_val) !! t ≫= (fun row => row !! j).

(** The components of the result of [_loss_fn]. *)
Definition loss_value {B : Backend} (config : TrainConfig) (params : Params)
    (batch : Trans list * list R * list R) : R :=
  let '(_, (value_loss, _, _)) := _loss_fn config params batch in value_loss.

Definition loss_actor {B : Backend} (config : TrainConfig) (params : Params)
    (batch : Trans list * list R * list R) : R :=
  let '(_, (_, loss_actor, _)) := _loss_fn config params batch in loss_actor.

Definition loss_entropy {B : Backend} (config : TrainConfig) (params : Params)
    (batch : Trans list * list R * list R) : R :=
  let '(_, (_, _, entropy)) := _loss_fn config params batch in entropy.

Definition loss_total {B : Backend} (config : TrainConfig) (params : Params)
    (batch : Trans list * list R * list R) : R :=
  fst (_loss_fn config params batch).

(** The probability ratio of [_loss_fn] and its normalised advantages. *)
Definition loss_ratio {B : Backend} (params : Params) (traj_batch : Trans list) : list R :=
  map exp (vsub (pi_log_prob (fst (network_apply params (obs traj_batch)))
                             (action traj_batch))
                (log_prob traj_batch)).

Definition normalised (gae : list R) : list R :=
  map (fun g => ((g - mean_R gae) / (std_R gae + 1 / 100000000))%R) gae.

(** The update counter of a loop state, the one the shaping schedule reads. *)
Definition loop_update_step {B : Backend} (st : LoopState) : Z :=
  let '(_, (_, _, _, update_step, _), _, _) := st in update_step.

Definition runner_update_step {B : Backend} (runner_state : RunnerState) : Z :=
  let '(_, _, _, update_step, _) := runner_state in update_step.

(** The key from which the trainee of iteration [i] is drawn, and the
    trainee indices of a run of [n] iterations over a population of
    [population_size] members: the first draw of [train] and the draws of the
    rotation. *)
Definition rotation_key {B : Backend} (i : nat) : Key :=
  snd (random_split (Nat.iter i (fun k => fst (random_split k)) (random_PRNGKey 0))).

Definition trainee_indices {B : Backend} (population_size : Z) (n : nat) : list nat :=
  random_choice (random_PRNGKey 0) (range population_size)
  :: map (fun i => random_choice (rotation_key i) (range population_size)) (seq 0 n).

(** The sizes for which the embedding follows the source: positive, within
    the 32-bit integers, with the two actors per environment that
    [__post_init__] derives; and a runner state whose arrays have one entry per
    environment. *)
Definition valid_sizes (config : TrainConfig) : Prop :=
  (0 < num_envs config < 2147483648)%Z
  /\ (0 < num_steps config < 2147483648)%Z
  /\ (0 < num_minibatches config < 2147483648)%Z
  /\ (0 < update_epochs config < 2147483648)%Z
  /\ (population_size config < 2147483648)%Z
  /\ num_actors config = (2 * num_envs config)%Z.

Definition runner_shape {B : Backend} (config : TrainConfig)
    (env_state : list EnvState) (last_obs : PerAgent (list Obs)) : Prop :=
  length env_state = Z.to_nat (num_envs config)
  /\ length (agent_0 last_obs) = Z.to_nat (num_envs config)
  /\ length (agent_1 last_obs) = Z.to_nat (num_envs config).

(** A transition whose reward is, actor by actor, the environment reward plus
    [w] times the shaped reward, plus the diversity bonus. *)
Definition rewarded_with {B : Backend} (config : TrainConfig) (w : R) (tr : Trans list)
  : Prop :=
  forall j x y,
    orig_reward tr !! j = Some x ->
    shaped_reward tr !! j = Some y ->
    reward tr !! j
    = Some (x + y * w
            + nth (if (j <? length (orig_reward tr) / 2)%nat then 0 else 1)%nat
                  (neg_logp_pop_new tr) 0
              * ent_pop_coeff config)%R.

(** A probability vector over the six actions with no zero entry. *)
Definition positive_distribution (row : list R) : Prop :=
  length row = 6%nat /\ Forall (fun p => (0 < p)%R) row /\ sum_R row = 1%R.

(** ** A small concrete instance

    A two-member population on two environment instances: every policy puts
    the probabilities [toy_row] on the six actions whatever the observation,
    the value estimate of the parameters [p] is [p], a gradient update turns
    [p] into [p + 1], actor [j] samples action [j mod 6], and the index
    drawn from a non-empty array is its first entry. *)
Module Toy.

Definition toy_row : list R := [1/2; 1/4; 1/16; 1/16; 1/16; 1/16]%R.

Definition toy_step_out : StepOut nat unit unit :=
  {| so_obs := mkPerAgent 0%nat 0%nat;
     so_state := tt;
     so_reward := mkPerAgent 1%R 1%R;
     so_done := mkPerAgent false false;
     so_info := mkPerAgent tt tt;
     so_shaped_reward := mkPerAgent 0%R 0%R |}.

#[local] Instance backend : Backend := {|
  Key := nat;
  Params := nat;
  Obs := nat;
  InfoRow := unit;
  EnvState := unit;
  Grads := unit;
  AdamState := unit;
  random_PRNGKey := Z.to_nat;
  random_split := fun k => (2 * k + 1, 2 * k + 2)%nat;
  random_split_n := fun k n => map (fun i => (k + i)%nat) (seq 0 n);
  random_choice := fun _ a => hd 0%nat a;
  random_permutation := fun _ n => seq 0 n;
  network_init := fun k => k;
  network_forward := fun p _ => (toy_row, INR p);
  categorical_sample := fun _ pi => imap (fun j _ => (j mod 6)%nat) pi;
  env_reset := fun _ => (mkPerAgent 0%nat 0%nat, tt);
  env_step := fun _ _ _ => toy_step_out;
  value_and_grad_loss := fun _ _ _ => (0%R, tt);
  tx_init := fun _ => tt;
  tx_update := fun _ _ _ _ p => (S p, tt)
|}.

Definition args : TrainConfigArgs :=
  {| a_checkpoint_freq := 100;
     a_population_size := 2;
     a_ent_pop_coeff := (1 / 100)%R;
     a_rew_shaping_horizon := 10;
     a_seed := 0;
     a_lr := 1%R;
     a_anneal_lr := true;
     a_num_envs := 2;
     a_num_steps := 1;
     a_total_timesteps := 4;
     a_update_epochs := 1;
     a_num_minibatches := 2;
     a_gamma := (99 / 100)%R;
     a_gae_lambda := (95 / 100)%R;
     a_clip_eps := (2 / 10)%R;
     a_ent_coef := (1 / 100)%R;
     a_vf_coef := (1 / 2)%R;
     a_max_grad_norm := (1 / 2)%R |}.

(** The configuration that [post_init args] constructs. *)
Definition config : TrainConfig :=
  {| checkpoint_freq := 100;
     population_size := 2;
     ent_pop_coeff := (1 / 100)%R;
     rew_shaping_horizon := 10;
     seed := 0;
     lr := 1%R;
     anneal_lr := true;
     num_envs := 2;
     num_steps := 1;
     total_timesteps := 4;
     update_epochs := 1;
     num_minibatches := 2;
     gamma := (99 / 100)%R;
     gae_lambda := (95 / 100)%R;
     clip_eps := (2 / 10)%R;
     ent_coef := (1 / 100)%R;
     vf_coef := (1 / 2)%R;
     max_grad_norm := (1 / 2)%R;
     num_actors := 4;
     num_updates := 2;
     minibatch_size := 2 |}.

(** The trainer state and the runner state that [train_init config] builds
    (see [Toy_train_init]). *)
Definition train_state0 : PopulationTrainState :=
  {| step := 0;
     params := 2%nat;
     opt_state := (0%Z, tt);
     population := <[1%nat := 4%nat]> (<[0%nat := 2%nat]> ∅);
     other_agent_idcs := [1%nat];
     curr_agent_idx := 0%nat |}.

Definition runner_state0 : RunnerState :=
  (train_state0, [tt; tt], mkPerAgent [0%nat; 0%nat] [0%nat; 0%nat], 0%Z, 8%nat).

(** A timestep of the two-actor kind used to exercise the advantage
    estimator: no episode end, reward 1 and value 1. *)
Definition constant_transition : Trans list :=
  {| done := [false; false];
     action := [0; 0]%nat;
     value := [1; 1]%R;
     reward := [1; 1]%R;
     log_prob := [0; 0]%R;
     obs := [0; 0]%nat;
     info := [tt; tt];
     neg_logp_pop_new := [0; 0]%R;
     orig_reward := [1; 1]%R;
     shaped_reward := [0; 0]%R;
     entropy_pop_delta := [0; 0]%R;
     neg_logp_pop_delta := [0; 0]%R |}.

(** The same arguments with three minibatches: the four samples of the batch
    cannot be divided among them. *)
Definition args_mismatch : TrainConfigArgs :=
  {| a_checkpoint_freq := 100;
     a_population_size := 2;
     a_ent_pop_coeff := (1 / 100)%R;
     a_rew_shaping_horizon := 10;
     a_seed := 0;
     a_lr := 1%R;
     a_anneal_lr := true;
     a_num_envs := 2;
     a_num_steps := 1;
     a_total_timesteps := 4;
     a_update_epochs := 1;
     a_num_minibatches := 3;
     a_gamma := (99 / 100)%R;
     a_gae_lambda := (95 / 100)%R;
     a_clip_eps := (2 / 10)%R;
     a_ent_coef := (1 / 100)%R;
     a_vf_coef := (1 / 2)%R;
     a_max_grad_norm := (1 / 2)%R |}.

Definition config_mismatch : TrainConfig :=
  {| checkpoint_freq := 100;
     population_size := 2;
     ent_pop_coeff := (1 / 100)%R;
     rew_shaping_horizon := 10;
     seed := 0;
     lr := 1%R;
     anneal_lr := true;
     num_envs := 2;
     num_steps := 1;
     total_timesteps := 4;
     update_epochs := 1;
     num_minibatches := 3;
     gamma := (99 / 100)%R;
     gae_lambda := (95 / 100)%R;
     clip_eps := (2 / 10)%R;
     ent_coef := (1 / 100)%R;
     vf_coef := (1 / 2)%R;
     max_grad_norm := (1 / 2)%R;
     num_actors := 4;
     num_updates := 2;
     minibatch_size := 1 |}.

(** An evaluation environment whose episodes end with the third step, each
    step paying agent_0 the reward 1 and agent_1 the reward 5. The state
    counts the steps. *)
#[local] Instance evaluator : Evaluator backend := {|
  RawState := nat;
  random_split3 := fun k => (3 * k + 1, 3 * k + 2, 3 * k + 3)%nat;
  raw_reset := fun _ => (mkPerAgent 0%nat 0%nat, 0%nat);
  raw_step := fun _ s _ =>
    (mkPerAgent 0%nat 0%nat, S s, mkPerAgent 1%R 5%R, (2 <=? s)%nat)
|}.

(** The configuration [config] with other values of [anneal_lr],
    [checkpoint_freq], [population_size] and [num_updates]. *)
Definition config_with (anneal : bool) (freq pop updates : Z) : TrainConfig :=
  {| checkpoint_freq := freq;
     population_size := pop;
     ent_pop_coeff := (1 / 100)%R;
     rew_shaping_horizon := 10;
     seed := 0;
     lr := 1%R;
     anneal_lr := anneal;
     num_envs := 2;
     num_steps := 1;
     total_timesteps := 4;
     update_epochs := 1;
     num_minibatches := 2;
     gamma := (99 / 100)%R;
     gae_lambda := (95 / 100)%R;
     clip_eps := (2 / 10)%R;
     ent_coef := (1 / 100)%R;
     vf_coef := (1 / 2)%R;
     max_grad_norm := (1 / 2)%R;
     num_actors := 4;
     num_updates := updates;
     minibatch_size := 2 |}.

(** A timestep at which the episode of actor 0 ends with reward 3, and one
    whose recorded log-probabilities are those of the policy of the instance
    for action 0. *)
Definition final_transition : Trans list :=
  {| done := [true; false];
     action := [0; 0]%nat;
     value := [1; 1]%R;
     reward := [3; 1]%R;
     log_prob := [0; 0]%R;
     obs := [0; 0]%nat;
     info := [tt; tt];
     neg_logp_pop_new := [0; 0]%R;
     orig_reward := [3; 1]%R;
     shaped_reward := [0; 0]%R;
     entropy_pop_delta := [0; 0]%R;
     neg_logp_pop_delta := [0; 0]%R |}.

Definition recorded_transition : Trans list :=
  {| done := [false; false];
     action := [0; 0]%nat;
     value := [1; 1]%R;
     reward := [1; 1]%R;
     log_prob := [ln (1 / 2); ln (1 / 2)]%R;
     obs := [0; 0]%nat;
     info := [tt; tt];
     neg_logp_pop_new := [0; 0]%R;
     orig_reward := [1; 1]%R;
     shaped_reward := [0; 0]%R;
     entropy_pop_delta := [0; 0]%R;
     neg_logp_pop_delta := [0; 0]%R |}.

(** The instance with an environment that pays every agent the shaped
    reward 1 at every step, a configuration of two steps per update whose
    shaping horizon is reached by the two environment steps of the first
    timestep, and the runner state of its first update. *)
Definition shaped_step_out : StepOut nat unit unit :=
  {| so_obs := mkPerAgent 0%nat 0%nat;
     so_state := tt;
     so_reward := mkPerAgent 1%R 1%R;
     so_done := mkPerAgent false false;
     so_info := mkPerAgent tt tt;
     so_shaped_reward := mkPerAgent 1%R 1%R |}.

Definition shaping_backend : Backend := {|
  Key := nat;
  Params := nat;
  Obs := nat;
  InfoRow := unit;
  EnvState := unit;
  Grads := unit;
  AdamState := unit;
  random_PRNGKey := Z.to_nat;
  random_split := fun k => (2 * k + 1, 2 * k + 2)%nat;
  random_split_n := fun k n => map (fun i => (k + i)%nat) (seq 0 n);
  random_choice := fun _ a => hd 0%nat a;
  random_permutation := fun _ n => seq 0 n;
  network_init := fun k => k;
  network_forward := fun p _ => (toy_row, INR p);
  categorical_sample := fun _ pi => imap (fun j _ => (j mod 6)%nat) pi;
  env_reset := fun _ => (mkPerAgent 0%nat 0%nat, tt);
  env_step := fun _ _ _ => shaped_step_out;
  value_and_grad_loss := fun _ _ _ => (0%R, tt);
  tx_init := fun _ => tt;
  tx_update := fun _ _ _ _ p => (S p, tt)
|}.

Definition config_shaping : TrainConfig :=
  {| checkpoint_freq := 100;
     population_size := 2;
     ent_pop_coeff := (1 / 100)%R;
     rew_shaping_horizon := 2;
     seed := 0;
     lr := 1%R;
     anneal_lr := true;
     num_envs := 2;
     num_steps := 2;
     total_timesteps := 8;
     update_epochs := 1;
     num_minibatches := 2;
     gamma := (99 / 100)%R;
     gae_lambda := (95 / 100)%R;
     clip_eps := (2 / 10)%R;
     ent_coef := (1 / 100)%R;
     vf_coef := (1 / 2)%R;
     max_grad_norm := (1 / 2)%R;
     num_actors := 4;
     num_updates := 2;
     minibatch_size := 4 |}.

Definition shaping_train_state0 : @PopulationTrainState shaping_backend :=
  @Build_PopulationTrainState shaping_backend
    0%Z 2%nat (0%Z, tt) (<[1%nat := 4%nat]> (<[0%nat := 2%nat]> ∅)) [1%nat] 0%nat.

Definition shaping_runner_state0 : @RunnerState shaping_backend :=
  (shaping_train_state0, [tt; tt], mkPerAgent [0%nat; 0%nat] [0%nat; 0%nat], 0%Z, 8%nat).

(** An evaluation environment whose episodes never end. *)
Definition endless_evaluator : Evaluator backend :=
  {| RawState := nat;
     random_split3 := fun k => (3 * k + 1, 3 * k + 2, 3 * k + 3)%nat;
     raw_reset := fun _ => (mkPerAgent 0%nat 0%nat, 0%nat);
     raw_step := fun _ s _ =>
       (mkPerAgent 0%nat 0%nat, S s, mkPerAgent 1%R 5%R, false) |}.

End Toy.

(* ===================================================================== *)
(** * Part II: properties *)
(* ===================================================================== *)

(** ** Vectors over the actor axis *)

Lemma zip_with_replicate2 {A C D : Type} (f : A -> C -> D) (n : nat) (a : A) (c : C) :
  zip_with f (replicate n a) (replicate n c) = replicate n (f a c).
Proof. induction n as [|n IH]; simpl; [reflexivity | now rewrite IH]. Qed.

Lemma map_replicate {A C : Type} (f : A -> C) (n : nat) (a : A) :
  map f (replicate n a) = replicate n (f a).
Proof. induction n as [|n IH]; simpl; [reflexivity | now rewrite IH]. Qed.

(** ** Generalised advantage estimation *)

Section GAE.
Context {B : Backend}.
Variable config : TrainConfig.
Variables (n : nat) (r v : R).

Local Open Scope R_scope.

Lemma geom_shift (x delta : R) (m : nat) :
  sum_f_R0 (fun k => x ^ k * delta) (S m)
  = delta + x * sum_f_R0 (fun k => x ^ k * delta) m.
Proof.
  induction m as [|m IH].
  - simpl. ring.
  - change (sum_f_R0 (fun k => x ^ k * delta) (S (S m)))
      with (sum_f_R0 (fun k => x ^ k * delta) (S m) + x ^ (S (S m)) * delta).
    rewrite IH at 1. cbn [sum_f_R0]. simpl pow. ring.
Qed.

Lemma gae_unrolled_step (x delta : R) (m : nat) :
  gae_unrolled x delta (S m) = delta + x * gae_unrolled x delta m.
Proof.
  destruct m as [|m].
  - simpl. ring.
  - apply geom_shift.
Qed.

Lemma get_advantages_constant (g : R) (tr : Trans list) :
  constant_step n r v tr ->
  _get_advantages config (replicate n g, replicate n v) tr
  = ((replicate n (r + gamma config * v - v + gamma config * gae_lambda config * g),
      replicate n v),
     replicate n (r + gamma config * v - v + gamma config * gae_lambda config * g)).
Proof.
  intros (Hd & Hr & Hv). unfold _get_advantages. rewrite Hd, Hr, Hv.
  unfold vsub, vadd, vmul, vscale, one_minus.
  rewrite !map_replicate, !zip_with_replicate2.
  assert (E : r + gamma config * v * 1 - v
                + gamma config * gae_lambda config * 1 * g
              = r + gamma config * v - v + gamma config * gae_lambda config * g)
    by ring.
  rewrite E. reflexivity.
Qed.

Lemma scan_reverse_constant (traj_batch : list (Trans list)) :
  Forall (constant_step n r v) traj_batch ->
  let G := gae_unrolled (gamma config * gae_lambda config) (r + gamma config * v - v) in
  scan_reverse (_get_advantages config) (replicate n 0, replicate n v) traj_batch
  = ((replicate n (G (length traj_batch)), replicate n v),
     map (fun t => replicate n (G (length traj_batch - t)%nat))
         (seq 0 (length traj_batch))).
Proof.
  intros H G. induction H as [|tr l Htr Hl IH].
  - reflexivity.
  - cbn [scan_reverse]. rewrite IH.
    rewrite (get_advantages_constant _ _ Htr).
    unfold G. rewrite <- gae_unrolled_step.
    cbn [length seq map]. do 2 f_equal.
    rewrite <- seq_shift, map_map. reflexivity.
Qed.

(** C6. On a trajectory batch of [T] timesteps in which no episode ends and
    the reward and the value are the constants [r] and [v] for every actor
    (the bootstrap value being [v] too), the advantage that the backward
    recurrence, seeded with [gae = 0], computes at timestep [t] is
    [sum_{k=0}^{T-1-t} (gamma*lambda)^k * (r + gamma*v - v)] for every actor, and
    the value target is that advantage plus [v]. *)
Theorem gae_constant_closed_form (traj_batch : list (Trans list)) (t : nat) :
  Forall (constant_step n r v) traj_batch ->
  (t < length traj_batch)%nat ->
  let closed :=
    sum_f_R0 (fun k => (gamma config * gae_lambda config) ^ k
                       * (r + gamma config * v - v))
             (length traj_batch - 1 - t) in
  fst (_calculate_gae config traj_batch (replicate n v)) !! t
    = Some (replicate n closed)
  /\ snd (_calculate_gae config traj_batch (replicate n v)) !! t
    = Some (replicate n (closed + v)).
Proof.
  intros Hc Ht closed. unfold _calculate_gae.
  rewrite length_replicate, (scan_reverse_constant _ Hc). cbn [fst snd].
  set (G := gae_unrolled _ _).
  assert (HG : G (length traj_batch - t)%nat = closed).
  { unfold G, closed.
    replace (length traj_batch - t)%nat with (S (length traj_batch - 1 - t)) by lia.
    reflexivity. }
  assert (Ha : map (fun t0 => replicate n (G (length traj_batch - t0)%nat))
                   (seq 0 (length traj_batch)) !! t = Some (replicate n closed)).
  { rewrite list_lookup_fmap, lookup_seq_lt by lia. simpl. now rewrite HG. }
  split; [exact Ha|].
  rewrite lookup_zip_with, Ha. cbn [mbind option_bind].
  rewrite list_lookup_fmap.
  destruct (lookup_lt_is_Some_2 traj_batch t Ht) as [tr Htr].
  rewrite Htr. cbn.
  rewrite Forall_lookup in Hc. destruct (Hc _ _ Htr) as (_ & _ & Hv).
  rewrite Hv. unfold vadd. now rewrite zip_with_replicate2.
Qed.

End GAE.

(** ** The monad *)

Lemma bind_run {A C : Type} (m : M A) (f : A -> M C) (log : list Event) :
  (m ≫= f) log
  = match m log with
    | (Ok a, log') => f a log'
    | (Raise e, log') => (Raise e, log')
    end.
Proof. reflexivity. Qed.

Lemma bind_ok {A C : Type} (m : M A) (f : A -> M C) log a log' :
  m log = (Ok a, log') -> (m ≫= f) log = f a log'.
Proof. intros H. rewrite bind_run, H. reflexivity. Qed.

Lemma bind_raise {A C : Type} (m : M A) (f : A -> M C) log e log' :
  m log = (Raise e, log') -> (m ≫= f) log = (Raise e, log').
Proof. intros H. rewrite bind_run, H. reflexivity. Qed.

Lemma foldM_app {A C : Type} (f : C -> A -> M C) (l1 l2 : list A) (c : C) log :
  foldM f c (l1 ++ l2) log = (foldM f c l1 ≫= fun c' => foldM f c' l2) log.
Proof.
  revert c log. induction l1 as [|a l1 IH]; intros c log.
  - reflexivity.
  - cbn [foldM app]. rewrite !bind_run.
    destruct (f c a log) as [[c'|e] log']; [apply IH | reflexivity].
Qed.

(** ** The pass over the population in [_env_step] *)

Section EnvStep.
Context {B : Backend}.
Variable config : TrainConfig.

Lemma getitem_ok (population : gmap nat Params) i p log :
  population !! i = Some p -> getitem population i log = (Ok p, log).
Proof. intros H. unfold getitem. rewrite H. reflexivity. Qed.

Lemma getitem_raise (population : gmap nat Params) i log :
  population !! i = None -> getitem population i log = (Raise (KeyError i), log).
Proof. intros H. unfold getitem. rewrite H. reflexivity. Qed.

Lemma population_pass_ok ts obs_batch rng pi v a lp an ap i p log :
  population ts !! i = Some p ->
  population_pass config ts obs_batch (rng, pi, v, a, lp, an, ap) i log
  = (Ok (fst (random_split rng),
         fst (network_apply p obs_batch),
         snd (network_apply p obs_batch),
         categorical_sample (snd (random_split rng)) (fst (network_apply p obs_batch)),
         pi_log_prob (fst (network_apply p obs_batch))
           (categorical_sample (snd (random_split rng)) (fst (network_apply p obs_batch))),
         <[i := categorical_sample (snd (random_split rng))
                  (fst (network_apply p obs_batch))]> an,
         <[i := fst (network_apply p obs_batch)]> ap), log).
Proof.
  intros H. unfold population_pass. destruct (random_split rng) as [rng1 rng2].
  rewrite (bind_ok _ _ _ _ _ (getitem_ok _ _ _ _ H)). reflexivity.
Qed.

Lemma population_pass_raise ts obs_batch st i log :
  population ts !! i = None ->
  population_pass config ts obs_batch st i log = (Raise (KeyError i), log).
Proof.
  intros H. unfold population_pass.
  destruct st as [[[[[[rng pi] v] a] lp] an] ap].
  destruct (random_split rng) as [rng1 rng2].
  rewrite (bind_raise _ _ _ _ _ (getitem_raise _ _ _ H)). reflexivity.
Qed.

(** A missing key makes the pass raise, with the log untouched. *)
Lemma fold_pass_raise ts obs_batch (l : list nat) st log :
  ~ Forall (fun i => is_Some (population ts !! i)) l ->
  exists i, foldM (population_pass config ts obs_batch) st l log = (Raise (KeyError i), log).
Proof.
  revert st. induction l as [|i l IH]; intros st Hn.
  - destruct Hn. constructor.
  - cbn [foldM]. rewrite bind_run.
    destruct (population ts !! i) as [p|] eqn:Hp.
    + destruct st as [[[[[[rng pi] v] a] lp] an] ap].
      rewrite (population_pass_ok _ _ _ _ _ _ _ _ _ _ _ _ Hp).
      apply IH. intros Hl. apply Hn. constructor; [eauto | exact Hl].
    + rewrite (population_pass_raise _ _ _ _ _ Hp). eauto.
Qed.

(** With the members [ms] at the keys [0 .. length ms - 1], the pass
    succeeds; what it leaves in [pi], [value], [action] and [log_prob] comes
    from the last member, and [action_probs_np] holds every member's action
    probabilities. *)
Lemma fold_pass_spec ts obs_batch (ms : list Params) :
  members_of (population ts) ms ->
  forall rng pi v a lp an ap log,
  exists rng' pi' v' a' lp' an' ap',
    foldM (population_pass config ts obs_batch) (rng, pi, v, a, lp, an, ap)
          (seq 0 (length ms)) log
    = (Ok (rng', pi', v', a', lp', an', ap'), log)
    /\ match last ms with
       | None => (pi', v', a', lp') = (pi, v, a, lp)
       | Some p =>
           pi' = fst (network_apply p obs_batch)
           /\ v' = snd (network_apply p obs_batch)
           /\ (exists k, a' = categorical_sample k pi')
           /\ lp' = pi_log_prob pi' a'
       end
    /\ length ap' = length ap
    /\ (forall i, (i < length ms)%nat -> (i < length ap)%nat ->
                  ap' !! i = (fun p => fst (network_apply p obs_batch)) <$> ms !! i)
    /\ (forall i, (length ms <= i)%nat -> ap' !! i = ap !! i).
Proof.
  induction ms as [|p ms IH] using rev_ind; intros Hms rng pi v a lp an ap log.
  - exists rng, pi, v, a, lp, an, ap. cbn. repeat split; try reflexivity.
    intros i Hi. lia.
  - destruct (IH (fun i q Hq => Hms i q (lookup_app_l_Some _ _ _ _ Hq))
                 rng pi v a lp an ap log)
      as (rng1 & pi1 & v1 & a1 & lp1 & an1 & ap1 & Hrun & _ & Hlen & Hlt & Hge).
    rewrite length_app, Nat.add_1_r, seq_S, foldM_app. cbn [Nat.add].
    rewrite (bind_ok _ _ _ _ _ Hrun). cbn [foldM].
    assert (Hp : population ts !! length ms = Some p).
    { apply Hms. rewrite lookup_app_r, Nat.sub_diag by lia. reflexivity. }
    rewrite bind_run, (population_pass_ok _ _ _ _ _ _ _ _ _ _ _ _ Hp).
    do 7 eexists. split; [reflexivity|].
    rewrite last_snoc. split; [|split; [|split]].
    + repeat split. eexists. reflexivity.
    + rewrite length_insert. exact Hlen.
    + intros i Hi Hi'.
      destruct (decide (i = length ms)) as [->|Hne].
      * rewrite list_lookup_insert_eq by lia.
        rewrite lookup_app_r, Nat.sub_diag by lia. reflexivity.
      * rewrite list_lookup_insert_ne by congruence.
        rewrite lookup_app_l by lia. apply Hlt; lia.
    + intros i Hi. rewrite list_lookup_insert_ne by lia. apply Hge. lia.
Qed.

(** The reward of the two agents once the shaping term and the bonus are
    added, read actor by actor. *)
Lemma augmented_reward_lookup (o0 o1 s0 s1 : list R) (w b0 b1 c : R) (j : nat) (x y : R) :
  length s0 = length o0 -> length o1 = length o0 -> length s1 = length o0 ->
  (o0 ++ o1) !! j = Some x ->
  (s0 ++ s1) !! j = Some y ->
  (map (fun x => (x + b0 * c)%R) (zip_with (fun x y => (x + y * w)%R) o0 s0)
   ++ map (fun x => (x + b1 * c)%R) (zip_with (fun x y => (x + y * w)%R) o1 s1)) !! j
  = Some (x + y * w + (if (j <? length (o0 ++ o1) / 2)%nat then b0 else b1) * c)%R.
Proof.
  intros Hs0 Ho1 Hs1 Hx Hy.
  assert (Hhalf : (length (o0 ++ o1) / 2 = length o0)%nat).
  { rewrite length_app, Ho1.
    replace (length o0 + length o0)%nat with (length o0 * 2)%nat by lia.
    apply Nat.div_mul. lia. }
  rewrite Hhalf.
  assert (Hz0 : length (zip_with (fun x y => (x + y * w)%R) o0 s0) = length o0).
  { rewrite length_zip_with. lia. }
  destruct (Nat.ltb_spec j (length o0)) as [Hlt|Hge].
  - rewrite lookup_app_l in Hx by lia. rewrite lookup_app_l in Hy by lia.
    rewrite lookup_app_l by (rewrite length_map; lia).
    rewrite list_lookup_fmap, lookup_zip_with, Hx. cbn. rewrite Hy. reflexivity.
  - rewrite lookup_app_r in Hx by lia. rewrite lookup_app_r in Hy by lia.
    rewrite lookup_app_r by (rewrite length_map; lia).
    rewrite length_map, Hz0, Hs0 in *.
    rewrite list_lookup_fmap, lookup_zip_with, Hx. cbn. rewrite Hy. reflexivity.
Qed.

(** What one call of [_env_step] computes, given the members [ms] of the
    population. *)
Lemma env_step_spec ts es lo us rng (ms : list Params) log :
  members_of (population ts) ms ->
  length ms = Z.to_nat (population_size config) ->
  let obs_batch := batchify lo in
  let pi0 := fst (network_apply (params ts) obs_batch) in
  let actions := categorical_sample (snd (random_split rng)) pi0 in
  let others :=
    jnp_delete (curr_agent_idx ts)
               (map (fun p => fst (network_apply p obs_batch)) ms) in
  let mix_with := mean_axis0 (Z.to_nat (num_actors config)) 6 (others ++ [pi0]) in
  exists es' lo' rng' tr k outs,
    _env_step config (ts, es, lo, us, rng) tt log
    = (Ok ((ts, es', lo', us, rng'), tr), log ++ [EvEnvStep])
    /\ neg_logp_pop_new tr = vneg_log (jnp_take mix_with actions)
    /\ match last ms with
       | None =>
           action tr = actions
           /\ value tr = snd (network_apply (params ts) obs_batch)
           /\ log_prob tr = pi_log_prob pi0 actions
       | Some p =>
           value tr = snd (network_apply p obs_batch)
           /\ (exists k', action tr
                          = categorical_sample k' (fst (network_apply p obs_batch)))
           /\ log_prob tr = pi_log_prob (fst (network_apply p obs_batch)) (action tr)
       end
    /\ outs = vmap_env_step (random_split_n k (Z.to_nat (num_envs config))) es
                            (unbatchify (action tr) (Z.to_nat (num_envs config)))
    /\ es' = map so_state outs
    /\ lo' = unzip_agents so_obs outs
    /\ obs tr = obs_batch
    /\ orig_reward tr = batchify (unzip_agents so_reward outs)
    /\ shaped_reward tr = batchify (unzip_agents so_shaped_reward outs)
    /\ (forall j x y,
          orig_reward tr !! j = Some x ->
          shaped_reward tr !! j = Some y ->
          reward tr !! j
          = Some (x + y * rew_shaping_anneal config
                            (wrap_int32 (us * num_steps config * num_envs config))
                  + nth (if (j <? length (orig_reward tr) / 2)%nat then 0 else 1)%nat
                        (neg_logp_pop_new tr) 0
                    * ent_pop_coeff config)%R).
Proof.
  intros Hms Hlen obs_batch pi0 actions others mix_with.
  unfold _env_step. destruct (random_split rng) as [rng1 rng2] eqn:Hsplit.
  unfold range. rewrite <- Hlen.
  destruct (fold_pass_spec ts (batchify lo) ms Hms rng1
              (network_apply (params ts) (batchify lo)).1
              (network_apply (params ts) (batchify lo)).2
              (categorical_sample rng2 (network_apply (params ts) (batchify lo)).1)
              (pi_log_prob (network_apply (params ts) (batchify lo)).1
                 (categorical_sample rng2 (network_apply (params ts) (batchify lo)).1))
              (replicate (length ms) (replicate (Z.to_nat (num_actors config)) 0%nat))
              (replicate (length ms)
                 (replicate (Z.to_nat (num_actors config)) (replicate 6 0%R)))
              log)
    as (rng' & pi' & v' & a' & lp' & an' & ap' & Hrun & Hlast & Hlen' & Hlt & _).
  assert (Hap : ap' = map (fun p => fst (network_apply p (batchify lo))) ms).
  { apply list_eq. intros i. rewrite list_lookup_fmap.
    destruct (decide (i < length ms)%nat) as [Hi|Hi].
    - apply Hlt; [exact Hi | rewrite length_replicate; exact Hi].
    - rewrite (lookup_ge_None_2 ms) by lia.
      apply lookup_ge_None_2. rewrite Hlen', length_replicate. lia. }
  cbn [network_apply] in Hrun |- *.
  rewrite (bind_ok _ _ _ _ _ Hrun).
  destruct (random_split rng') as [rng3 rng4] eqn:Hsplit'.
  rewrite bind_run. cbn [emit]. cbv beta iota.
  do 4 eexists. exists rng4. eexists.
  split; [reflexivity|]. cbn [neg_logp_pop_new action value log_prob obs
                              orig_reward shaped_reward reward].
  split.
  { rewrite Hap. unfold mix_with, others, actions, pi0, obs_batch.
    reflexivity. }
  split.
  { destruct (last ms) as [p|].
    - destruct Hlast as (-> & -> & Hk & ->). auto.
    - injection Hlast as -> -> -> ->. unfold actions, pi0, obs_batch. auto. }
  repeat (split; [reflexivity|]).
  intros j x y Hx Hy.
  unfold batchify, unzip_agents, per_agent_map2 in *. cbn [agent_0 agent_1] in *.
  eapply eq_trans.
  - eapply augmented_reward_lookup; [| | | exact Hx | exact Hy];
      rewrite !length_map; reflexivity.
  - destruct (_ <? _)%nat; reflexivity.
Qed.

(** Without one of the keys, [_env_step] raises and executes nothing. *)
Lemma env_step_raise ts es lo us rng log :
  ~ pop_ok config (population ts) ->
  exists e, _env_step config (ts, es, lo, us, rng) tt log = (Raise e, log).
Proof.
  intros Hn. unfold _env_step. destruct (random_split rng) as [rng1 rng2].
  cbn [network_apply].
  match goal with
  | |- context [foldM ?f ?st ?l] =>
      destruct (fold_pass_raise ts (batchify lo) l st log Hn) as [i Hi]
  end.
  exists (KeyError i). rewrite (bind_raise _ _ _ _ _ Hi). reflexivity.
Qed.

End EnvStep.

(** ** The entropy of the diversity scorer *)

Section Entropy.
Local Open Scope R_scope.

Lemma ln_le_minus_1 (y : R) : 0 < y -> ln y <= y - 1.
Proof.
  intros Hy. destruct (Req_dec (ln y) 0) as [E|E].
  - assert (y = 1) by (apply ln_inv; [lra..| now rewrite ln_1]). subst. lra.
  - pose proof (exp_ineq1 (ln y) E) as H. rewrite exp_ln in H by assumption. lra.
Qed.

Lemma neg_plogp_upper (p c : R) :
  0 < p -> 0 < c -> - p * ln p <= p * ln c + / c - p.
Proof.
  intros Hp Hc.
  assert (Hpc : 0 < / (p * c)) by (apply Rinv_0_lt_compat; nra).
  pose proof (ln_le_minus_1 _ Hpc) as H.
  rewrite ln_Rinv, ln_mult in H by nra.
  assert (E : p * (/ (p * c) - 1) = / c - p) by (field; lra).
  assert (p * (- (ln p + ln c)) <= p * (/ (p * c) - 1)) by (apply Rmult_le_compat_l; lra).
  lra.
Qed.

Lemma sum_R_le (f g : R -> R) (row : list R) :
  Forall (fun p => f p <= g p) row -> sum_R (map f row) <= sum_R (map g row).
Proof.
  induction 1 as [|p row Hp _ IH]; cbn; [lra|].
  unfold sum_R in IH. lra.
Qed.

Lemma sum_R_affine (a b : R) (row : list R) :
  sum_R (map (fun p => p * a + b - p) row)
  = a * sum_R row + b * INR (length row) - sum_R row.
Proof.
  induction row as [|p row IH].
  - cbn. ring.
  - cbn [map sum_R foldr length]. rewrite S_INR.
    unfold sum_R in IH |- *. rewrite IH. ring.
Qed.

Lemma sum_R_nonneg (row : list R) : Forall (fun p => 0 <= p) row -> 0 <= sum_R row.
Proof.
  induction 1 as [|p row Hp _ IH]; cbn; [lra|]. unfold sum_R in IH. lra.
Qed.

Lemma elem_le_sum_R (row : list R) (p : R) :
  Forall (fun q => 0 < q) row -> p ∈ row -> p <= sum_R row.
Proof.
  intros Hrow Hin. induction Hrow as [|q row Hq Hrow IH].
  - inversion Hin.
  - assert (0 <= sum_R row).
    { apply sum_R_nonneg. eapply Forall_impl; [exact Hrow|]. intros; cbn in *; lra. }
    cbn. unfold sum_R in *. apply elem_of_cons in Hin as [->|Hin]; [lra|].
    specialize (IH Hin). lra.
Qed.

Lemma row_entropy_bounds (row : list R) :
  Forall (fun p => 0 < p) row ->
  sum_R row = 1 ->
  0 <= sum_R (map (fun p => - p * ln p) row) <= ln (INR (length row)).
Proof.
  intros Hpos Hsum. split.
  - apply sum_R_nonneg, Forall_fmap, Forall_forall. intros p Hin. cbn.
    assert (0 < p) by (eapply (proj1 (Forall_forall _ _) Hpos); exact Hin).
    assert (p <= 1) by (rewrite <- Hsum; now apply elem_le_sum_R).
    pose proof (ln_le_minus_1 p ltac:(assumption)). nra.
  - assert (Hn : 0 < INR (length row)).
    { destruct row; [cbn in Hsum; lra|]. apply lt_0_INR. cbn. lia. }
    eapply Rle_trans.
    + apply (sum_R_le _ (fun p => p * ln (INR (length row)) + / INR (length row) - p)).
      eapply Forall_impl; [exact Hpos|]. intros p Hp. cbn beta.
      apply neg_plogp_upper; assumption.
    + rewrite sum_R_affine, Hsum. rewrite Rinv_l by lra. lra.
Qed.

(** C8. For action-probability vectors over [n] actions whose entries are
    all strictly positive (and sum to one), every entropy that [entropy]
    computes lies between [0] and [ln n]. *)
Theorem entropy_bounds (action_probs : list (list R)) (n : nat) :
  Forall (fun row => length row = n /\ Forall (fun p => 0 < p) row /\ sum_R row = 1)
         action_probs ->
  Forall (fun h => 0 <= h <= ln (INR n)) (entropy action_probs).
Proof.
  intros H. unfold entropy. apply Forall_fmap.
  eapply Forall_impl; [exact H|]. intros row (Hlen & Hpos & Hsum). cbn.
  rewrite <- Hlen. now apply row_entropy_bounds.
Qed.

(** The constant [MAX_ENT] of the source is this bound for six actions. *)
Lemma MAX_ENT_ln6 : MAX_ENT = ln (INR 6).
Proof.
  unfold MAX_ENT. replace (1 / 6) with (/ 6) by lra.
  rewrite ln_Rinv by lra. rewrite Ropp_involutive. f_equal. cbn. lra.
Qed.

End Entropy.

(** ** Reward shaping *)

Section Shaping.
Context {B : Backend}.
Variable config : TrainConfig.

Lemma pop_ok_members (population : gmap nat Params) (n : nat) :
  Forall (fun i => is_Some (population !! i)) (seq 0 n) ->
  exists ms, length ms = n /\ members_of population ms.
Proof.
  induction n as [|n IH]; intros H.
  - exists []. split; [reflexivity|]. intros i p Hp. discriminate.
  - rewrite seq_S, Forall_app, Forall_singleton in H. destruct H as [H [p Hp]].
    destruct (IH H) as (ms & Hlen & Hms).
    exists (ms ++ [p]). split; [rewrite length_app; cbn; lia|].
    intros i q Hq. apply lookup_app_Some in Hq as [Hq|[Hge Hq]].
    + now apply Hms.
    + apply list_lookup_singleton_Some in Hq as [Hi ->].
      replace i with n by lia. exact Hp.
Qed.

Lemma anneal_at (c : Z) :
  (0 < rew_shaping_horizon config)%Z ->
  rew_shaping_anneal config c
  = (1 - IZR (Z.min (Z.max c 0) (rew_shaping_horizon config))
         / IZR (rew_shaping_horizon config))%R.
Proof.
  intros H. unfold rew_shaping_anneal, optax_linear_schedule.
  destruct (Z.leb_spec (rew_shaping_horizon config) 0); [lia|]. lra.
Qed.

End Shaping.

(** ** What [_env_step] records and rewards *)

Section Recorded.
Context {B : Backend}.
Variable config : TrainConfig.

(** Whenever the population is not empty, the action that advances the
    environment and the action, value and log-probability stored in the
    transition are those of the last population member, [population[n-1]]:
    the loop over the population assigns the names [pi], [value], [action]
    and [log_prob] again. *)
Lemma env_step_records_last_member ts es lo us rng (ms : list Params) p log :
  members_of (population ts) ms ->
  length ms = Z.to_nat (population_size config) ->
  last ms = Some p ->
  exists es' lo' rng' tr k,
    _env_step config (ts, es, lo, us, rng) tt log
    = (Ok ((ts, es', lo', us, rng'), tr), log ++ [EvEnvStep])
    /\ value tr = snd (network_apply p (batchify lo))
    /\ (exists k', action tr = categorical_sample k' (fst (network_apply p (batchify lo))))
    /\ log_prob tr = pi_log_prob (fst (network_apply p (batchify lo))) (action tr)
    /\ es' = map so_state
               (vmap_env_step (random_split_n k (Z.to_nat (num_envs config))) es
                              (unbatchify (action tr) (Z.to_nat (num_envs config)))).
Proof.
  intros Hms Hlen Hlast.
  destruct (env_step_spec config ts es lo us rng ms log Hms Hlen)
    as (es' & lo' & rng' & tr & k & outs & Hrun & _ & Hl & Houts & Hes & _).
  rewrite Hlast in Hl. destruct Hl as (Hv & Ha & Hlp).
  exists es', lo', rng', tr, k. subst outs. auto.
Qed.

End Recorded.

Section ToyRun.
Import Toy.
#[local] Existing Instance backend.
Local Open Scope R_scope.

Lemma Toy_post_init : post_init args = Ok config.
Proof. reflexivity. Qed.

Lemma Toy_train_init :
  train_init config [] = (Ok (0%nat, runner_state0, 0%nat, None), [EvCheckout 0]).
Proof. vm_compute. reflexivity. Qed.

Lemma Toy_members : members_of (population train_state0) [2; 4]%nat.
Proof.
  intros i p. destruct i as [|[|i]]; cbn; intros [= <-]; reflexivity.
Qed.

Lemma Toy_mix :
  mean_axis0 4 6 [replicate 4 toy_row; replicate 4 toy_row] = replicate 4 toy_row.
Proof.
  unfold mean_axis0, at2, toy_row. cbn [replicate seq map nth sum_R foldr length INR].
  repeat (f_equal; try field).
Qed.

(** C1 at a failing input: in the first environment step of the small
    instance the trainee is member 0 with parameters 2, whose value estimate
    is 2 for every actor, and the transition stores the value estimate 4 of
    member 1. *)
Theorem env_step_stores_value_of_other_member :
  exists rs' tr log',
    _env_step config runner_state0 tt [] = (Ok (rs', tr), log')
    /\ curr_agent_idx train_state0 = 0%nat
    /\ snd (network_apply (params train_state0) [0; 0; 0; 0]%nat)
       = [INR 2; INR 2; INR 2; INR 2]
    /\ value tr = [INR 4; INR 4; INR 4; INR 4]
    /\ value tr <> snd (network_apply (params train_state0) [0; 0; 0; 0]%nat).
Proof.
  destruct (env_step_records_last_member config train_state0 [tt; tt]
              (mkPerAgent [0; 0] [0; 0])%nat 0%Z 8%nat [2; 4]%nat 4%nat []
              Toy_members eq_refl eq_refl)
    as (es' & lo' & rng' & tr & k & Hrun & Hv & _).
  do 3 eexists. split; [exact Hrun|].
  assert (Hv' : value tr = [INR 4; INR 4; INR 4; INR 4]) by (rewrite Hv; reflexivity).
  repeat split; [exact Hv'|].
  rewrite Hv'. intros [= H _ _ _]. cbn in H. lra.
Qed.

(** C2 at a failing input: in the same step, with four actors sampling the
    actions 0, 1, 2 and 3 and every row of the mix equal to [toy_row], the
    bonus of actor 2 (agent_1 in environment 0) is [ent_pop_coeff * - ln (1/4)],
    the negative log-probability of the action of actor 1 read in the first
    row, where the specification asks for [ent_pop_coeff * - ln (1/16)], that
    of the actor's own action 2 in its own row. *)
Theorem env_step_bonus_not_per_actor :
  exists rs' tr log' mix_with actions,
    _env_step config runner_state0 tt [] = (Ok (rs', tr), log')
    /\ mix_with
       = mean_axis0 4 6
           (jnp_delete 0 (map (fun p => fst (network_apply p [0; 0; 0; 0]%nat))
                              [2; 4]%nat)
            ++ [fst (network_apply 2%nat [0; 0; 0; 0]%nat)])
    /\ actions = categorical_sample (snd (random_split 8%nat))
                   (fst (network_apply 2%nat [0; 0; 0; 0]%nat))
    /\ orig_reward tr !! 2%nat = Some 1
    /\ shaped_reward tr !! 2%nat = Some 0
    /\ reward tr !! 2%nat
       = Some (1 + 0 * rew_shaping_anneal config 0 + (- ln (1 / 4)) * ent_pop_coeff config)
    /\ spec_diversity_bonus config mix_with actions 2
       = ent_pop_coeff config * - ln (1 / 16)
    /\ reward tr !! 2%nat
       <> Some (1 + 0 * rew_shaping_anneal config 0
                + spec_diversity_bonus config mix_with actions 2).
Proof.
  destruct (env_step_spec config train_state0 [tt; tt]
              (mkPerAgent [0; 0] [0; 0])%nat 0%Z 8%nat [2; 4]%nat []
              Toy_members eq_refl)
    as (es' & lo' & rng' & tr & k & outs & Hrun & Hnlp & Hlast & Houts
        & _ & _ & _ & Ho & Hs & Hr).
  cbn [last] in Hlast. destruct Hlast as (_ & [k' Ha] & _).
  assert (Ha' : action tr = [0; 1; 2; 3]%nat) by (rewrite Ha; reflexivity).
  rewrite Ha' in Houts.
  assert (Houts' : outs = [toy_step_out; toy_step_out]) by (rewrite Houts; reflexivity).
  rewrite Houts' in Ho, Hs.
  assert (Ho' : orig_reward tr = [1; 1; 1; 1]) by (rewrite Ho; reflexivity).
  assert (Hs' : shaped_reward tr = [0; 0; 0; 0]) by (rewrite Hs; reflexivity).
  assert (Hmix :
    mean_axis0 4 6
      (jnp_delete 0 (map (fun p => fst (network_apply p [0; 0; 0; 0]%nat)) [2; 4]%nat)
       ++ [fst (network_apply 2%nat [0; 0; 0; 0]%nat)])
    = replicate 4 toy_row) by apply Toy_mix.
  assert (Hnlp' : neg_logp_pop_new tr
                  = [- ln (1 / 2); - ln (1 / 4); - ln (1 / 16); - ln (1 / 16)]).
  { rewrite Hnlp. change (Z.to_nat (num_actors config)) with 4%nat.
    change (curr_agent_idx train_state0) with 0%nat.
    change (params train_state0) with 2%nat.
    change (batchify (mkPerAgent [0; 0] [0; 0])%nat) with [0; 0; 0; 0]%nat.
    rewrite Hmix. reflexivity. }
  pose proof (Hr 2%nat 1 0) as H2. rewrite Ho', Hs', Hnlp' in H2.
  specialize (H2 eq_refl eq_refl).
  change (wrap_int32 (0 * num_steps config * num_envs config)) with 0%Z in H2.
  cbn [length Nat.div Nat.divmod fst Nat.ltb Nat.leb nth] in H2.
  assert (Hspec :
    spec_diversity_bonus config
      (mean_axis0 4 6
         (jnp_delete 0 (map (fun p => fst (network_apply p [0; 0; 0; 0]%nat)) [2; 4]%nat)
          ++ [fst (network_apply 2%nat [0; 0; 0; 0]%nat)]))
      (categorical_sample (snd (random_split 8%nat))
         (fst (network_apply 2%nat [0; 0; 0; 0]%nat))) 2
    = ent_pop_coeff config * - ln (1 / 16)).
  { rewrite Hmix. reflexivity. }
  do 5 eexists. split; [exact Hrun|].
  split; [reflexivity|]. split; [reflexivity|].
  split; [rewrite Ho'; reflexivity|]. split; [rewrite Hs'; reflexivity|].
  split; [exact H2|]. split; [exact Hspec|].
  rewrite H2, Hspec. intros [= H].
  assert (Hlt : ln (1 / 16) < ln (1 / 4)) by (apply ln_increasing; lra).
  cbn [config ent_pop_coeff] in H. lra.
Qed.

End ToyRun.

(** ** The update step *)

Section UpdateStep.
Context {B : Backend}.
Variable config : TrainConfig.

Lemma grad_events_app (c : Z) (n m : nat) :
  grad_events config c (n + m)
  = grad_events config c n ++ grad_events config (c + Z.of_nat n) m.
Proof.
  unfold grad_events. rewrite seq_app, map_app. f_equal. cbn [Nat.add].
  replace (seq n m) with ((fun x => n + x)%nat <$> seq 0 m)
    by (rewrite fmap_add_seq; f_equal; lia).
  rewrite <- list_fmap_compose.
  apply map_ext. intros j. cbn. do 2 f_equal. lia.
Qed.

Lemma same_population_refl (ts : PopulationTrainState) : same_population ts ts.
Proof. repeat split. Qed.

Lemma same_population_trans (ts1 ts2 ts3 : PopulationTrainState) :
  same_population ts1 ts2 -> same_population ts2 ts3 -> same_population ts1 ts3.
Proof.
  intros (H1 & H2 & H3) (H4 & H5 & H6). repeat split; congruence.
Qed.

Lemma scan_env_steps (n : nat) ts :
  pop_ok config (population ts) ->
  forall es lo us rng log,
  exists es' lo' rng' trs,
    scanM (_env_step config) (ts, es, lo, us, rng) (replicate n tt) log
    = (Ok ((ts, es', lo', us, rng'), trs), log ++ replicate n EvEnvStep).
Proof.
  intros Hok. destruct (pop_ok_members _ _ Hok) as (ms & Hlen & Hms).
  induction n as [|n IH]; intros es lo us rng log.
  - exists es, lo, rng, []. cbn. now rewrite app_nil_r.
  - destruct (env_step_spec config ts es lo us rng ms log Hms Hlen)
      as (es1 & lo1 & rng1 & tr & k & outs & Hrun & _).
    destruct (IH es1 lo1 us rng1 (log ++ [EvEnvStep]))
      as (es2 & lo2 & rng2 & trs & Hrun2).
    exists es2, lo2, rng2, (tr :: trs).
    cbn [replicate scanM]. rewrite (bind_ok _ _ _ _ _ Hrun). cbn beta iota.
    rewrite (bind_ok _ _ _ _ _ Hrun2). cbn.
    now rewrite <- app_assoc.
Qed.

Lemma traced_ok {A : Type} (m : M A) log a log' :
  m log = (Ok a, log') -> traced m log = (Ok tt, log).
Proof. intros H. unfold traced. now rewrite H. Qed.

Lemma traced_raise {A : Type} (m : M A) log e log' :
  m log = (Raise e, log') -> traced m log = (Raise e, log).
Proof. intros H. unfold traced. now rewrite H. Qed.

Lemma collect_ok ts es lo us rng log :
  pop_ok config (population ts) ->
  exists es' lo' rng' trs,
    lax_scan (_env_step config) (ts, es, lo, us, rng) (num_steps config) log
    = (Ok ((ts, es', lo', us, rng'), trs),
       log ++ replicate (Z.to_nat (num_steps config)) EvEnvStep).
Proof.
  intros Hok. unfold lax_scan.
  destruct (scan_env_steps 1 ts Hok es lo us rng log) as (e1 & l1 & r1 & t1 & H1).
  cbn [replicate scanM] in H1. rewrite bind_run in H1.
  destruct (_env_step config (ts, es, lo, us, rng) tt log) as [[a|e] l] eqn:E;
    [|discriminate].
  rewrite (bind_ok _ _ _ _ _ (traced_ok _ _ _ _ E)).
  apply scan_env_steps. exact Hok.
Qed.

Lemma collect_raise ts es lo us rng log :
  ~ pop_ok config (population ts) ->
  exists e,
    lax_scan (_env_step config) (ts, es, lo, us, rng) (num_steps config) log
    = (Raise e, log).
Proof.
  intros Hn. destruct (env_step_raise config ts es lo us rng log Hn) as [e He].
  exists e. unfold lax_scan.
  now rewrite (bind_raise _ _ _ _ _ (traced_raise _ _ _ _ He)).
Qed.

Lemma apply_gradients_run ts grads log :
  exists ts',
    apply_gradients config ts grads log
    = (Ok ts', log ++ [EvGradUpdate (linear_schedule config (fst (opt_state ts)))])
    /\ same_population ts ts'
    /\ fst (opt_state ts') = (fst (opt_state ts) + 1)%Z.
Proof.
  unfold apply_gradients. destruct (opt_state ts) as [c m].
  destruct (tx_update _ _ _ _ _) as [p' m'].
  eexists. split; [reflexivity|]. split; [repeat split|reflexivity].
Qed.

Lemma update_minbatch_run ts batch_info log :
  exists ts' loss,
    _update_minbatch config ts batch_info log
    = (Ok (ts', loss), log ++ [EvGradUpdate (linear_schedule config (fst (opt_state ts)))])
    /\ same_population ts ts'
    /\ fst (opt_state ts') = (fst (opt_state ts) + 1)%Z.
Proof.
  unfold _update_minbatch. destruct (value_and_grad_loss _ _ _) as [loss grads].
  destruct (apply_gradients_run ts grads log) as (ts' & Hrun & Hsame & Hc).
  exists ts', loss. rewrite (bind_ok _ _ _ _ _ Hrun). auto.
Qed.

Lemma scan_minibatches (bs : list (Trans list * list R * list R)) :
  forall ts log,
  exists ts' losses,
    scanM (_update_minbatch config) ts bs log
    = (Ok (ts', losses), log ++ grad_events config (fst (opt_state ts)) (length bs))
    /\ same_population ts ts'
    /\ fst (opt_state ts') = (fst (opt_state ts) + Z.of_nat (length bs))%Z.
Proof.
  induction bs as [|b bs IH]; intros ts log.
  - exists ts, []. cbn. rewrite app_nil_r, Z.add_0_r.
    split; [reflexivity|]. split; [apply same_population_refl | reflexivity].
  - destruct (update_minbatch_run ts b log) as (ts1 & loss & Hrun & Hsame & Hc).
    destruct (IH ts1 (log ++ [EvGradUpdate (linear_schedule config (fst (opt_state ts)))]))
      as (ts2 & losses & Hrun2 & Hsame2 & Hc2).
    exists ts2, (loss :: losses). cbn [scanM].
    rewrite (bind_ok _ _ _ _ _ Hrun). cbn beta iota.
    rewrite (bind_ok _ _ _ _ _ Hrun2). cbn [mret M_ret].
    split; [|split; [eapply same_population_trans; eassumption | rewrite Hc2, Hc; cbn [length]; lia]].
    rewrite <- app_assoc. do 2 f_equal.
    change (length (b :: bs)) with (1 + length bs)%nat.
    rewrite grad_events_app. rewrite Hc. cbn. now rewrite Z.add_0_r.
Qed.

Lemma batch_ok_eqb :
  batch_ok config ->
  (minibatch_size config * num_minibatches config
   =? num_steps config * num_actors config)%Z = true.
Proof. intros H. apply Z.eqb_eq. exact H. Qed.

Lemma batch_not_ok_eqb :
  ~ batch_ok config ->
  (minibatch_size config * num_minibatches config
   =? num_steps config * num_actors config)%Z = false.
Proof. intros H. apply Z.eqb_neq. exact H. Qed.

Lemma update_epoch_ok ts tb adv tgt rng log :
  batch_ok config ->
  exists ts' rng' losses,
    _update_epoch config (ts, tb, adv, tgt, rng) tt log
    = (Ok ((ts', tb, adv, tgt, rng'), losses),
       log ++ grad_events config (fst (opt_state ts))
                (Z.to_nat (num_minibatches config)))
    /\ same_population ts ts'
    /\ fst (opt_state ts')
       = (fst (opt_state ts) + Z.of_nat (Z.to_nat (num_minibatches config)))%Z.
Proof.
  intros Hb. unfold _update_epoch. destruct (random_split rng) as [rng1 rng2].
  rewrite (batch_ok_eqb Hb). cbn [assert_]. rewrite bind_run. cbn [mret M_ret].
  match goal with
  | |- context [scanM _ ts ?bs] =>
      destruct (scan_minibatches bs ts log) as (ts' & losses & Hrun & Hsame & Hc);
      assert (Hl : length bs = Z.to_nat (num_minibatches config))
        by (unfold unstack; now rewrite length_map, length_seq)
  end.
  rewrite Hl in Hrun, Hc.
  exists ts', rng1, losses. rewrite (bind_ok _ _ _ _ _ Hrun). auto.
Qed.

Lemma update_epoch_raise ts tb adv tgt rng log :
  ~ batch_ok config ->
  _update_epoch config (ts, tb, adv, tgt, rng) tt log = (Raise AssertionError, log).
Proof.
  intros Hb. unfold _update_epoch. destruct (random_split rng) as [rng1 rng2].
  rewrite (batch_not_ok_eqb Hb). reflexivity.
Qed.

Lemma scan_epochs (n : nat) tb adv tgt :
  batch_ok config ->
  forall ts rng log,
  exists ts' rng' losses,
    scanM (_update_epoch config) (ts, tb, adv, tgt, rng) (replicate n tt) log
    = (Ok ((ts', tb, adv, tgt, rng'), losses),
       log ++ grad_events config (fst (opt_state ts))
                (n * Z.to_nat (num_minibatches config)))
    /\ same_population ts ts'
    /\ fst (opt_state ts')
       = (fst (opt_state ts) + Z.of_nat (n * Z.to_nat (num_minibatches config)))%Z.
Proof.
  intros Hb. induction n as [|n IH]; intros ts rng log.
  - exists ts, rng, []. cbn. rewrite app_nil_r, Z.add_0_r.
    split; [reflexivity|]. split; [apply same_population_refl | reflexivity].
  - destruct (update_epoch_ok ts tb adv tgt rng log Hb)
      as (ts1 & rng1 & l1 & Hrun & Hsame & Hc).
    destruct (IH ts1 rng1
                (log ++ grad_events config (fst (opt_state ts))
                          (Z.to_nat (num_minibatches config))))
      as (ts2 & rng2 & l2 & Hrun2 & Hsame2 & Hc2).
    exists ts2, rng2, (l1 :: l2). cbn [replicate scanM].
    rewrite (bind_ok _ _ _ _ _ Hrun). cbn beta iota.
    rewrite (bind_ok _ _ _ _ _ Hrun2). cbn [mret M_ret].
    split; [|split; [eapply same_population_trans; eassumption
                    | rewrite Hc2, Hc; lia]].
    rewrite <- app_assoc. do 2 f_equal.
    change (S n * Z.to_nat (num_minibatches config))%nat
      with (Z.to_nat (num_minibatches config) + n * Z.to_nat (num_minibatches config))%nat.
    rewrite grad_events_app, Hc. reflexivity.
Qed.

Lemma optimise_ok ts tb adv tgt rng log :
  batch_ok config ->
  exists ts' rng' losses,
    lax_scan (_update_epoch config) (ts, tb, adv, tgt, rng) (update_epochs config) log
    = (Ok ((ts', tb, adv, tgt, rng'), losses),
       log ++ grad_events config (fst (opt_state ts))
                (Z.to_nat (update_epochs config) * Z.to_nat (num_minibatches config)))
    /\ same_population ts ts'
    /\ fst (opt_state ts')
       = (fst (opt_state ts)
          + Z.of_nat (Z.to_nat (update_epochs config)
                      * Z.to_nat (num_minibatches config)))%Z.
Proof.
  intros Hb. unfold lax_scan.
  destruct (update_epoch_ok ts tb adv tgt rng log Hb) as (t1 & r1 & l1 & H1 & _).
  rewrite (bind_ok _ _ _ _ _ (traced_ok _ _ _ _ H1)).
  apply scan_epochs. exact Hb.
Qed.

Lemma optimise_raise ts tb adv tgt rng log :
  ~ batch_ok config ->
  lax_scan (_update_epoch config) (ts, tb, adv, tgt, rng) (update_epochs config) log
  = (Raise AssertionError, log).
Proof.
  intros Hb. unfold lax_scan.
  now rewrite (bind_raise _ _ _ _ _
                 (traced_raise _ _ _ _ (update_epoch_raise ts tb adv tgt rng log Hb))).
Qed.

(** A call of [_update_step] with every key present and a consistent batch
    size succeeds; it executes [num_steps] environment steps and
    [update_epochs * num_minibatches] gradient updates. *)
Lemma update_step_ok ts es lo us rng log :
  pop_ok config (population ts) ->
  batch_ok config ->
  exists ts' es' lo' rng' metric,
    _update_step config (ts, es, lo, us, rng) log
    = (Ok ((ts', es', lo', (us + 1)%Z, rng'), metric),
       log ++ update_events config (fst (opt_state ts)))
    /\ same_population ts ts'
    /\ fst (opt_state ts')
       = (fst (opt_state ts)
          + Z.of_nat (Z.to_nat (update_epochs config)
                      * Z.to_nat (num_minibatches config)))%Z.
Proof.
  intros Hok Hb. unfold _update_step.
  destruct (collect_ok ts es lo us rng log Hok) as (es1 & lo1 & rng1 & trs & Hrun).
  rewrite (bind_ok _ _ _ _ _ Hrun). cbn beta iota.
  cbn [network_apply].
  destruct (_calculate_gae config trs _) as [adv tgt].
  destruct (optimise_ok ts trs adv tgt rng1
              (log ++ replicate (Z.to_nat (num_steps config)) EvEnvStep) Hb)
    as (ts' & rng' & losses & Hrun2 & Hsame & Hc).
  rewrite (bind_ok _ _ _ _ _ Hrun2). cbn beta iota.
  do 5 eexists. split; [|split; [exact Hsame | exact Hc]].
  unfold update_events. rewrite app_assoc. reflexivity.
Qed.

Lemma update_step_raise_assert ts es lo us rng log :
  pop_ok config (population ts) ->
  ~ batch_ok config ->
  exists log', _update_step config (ts, es, lo, us, rng) log = (Raise AssertionError, log').
Proof.
  intros Hok Hb. unfold _update_step.
  destruct (collect_ok ts es lo us rng log Hok) as (es1 & lo1 & rng1 & trs & Hrun).
  rewrite (bind_ok _ _ _ _ _ Hrun). cbn beta iota.
  cbn [network_apply].
  destruct (_calculate_gae config trs _) as [adv tgt].
  eexists. now rewrite (bind_raise _ _ _ _ _ (optimise_raise ts trs adv tgt rng1 _ Hb)).
Qed.

Lemma update_step_raise_pop ts es lo us rng log :
  ~ pop_ok config (population ts) ->
  exists e, _update_step config (ts, es, lo, us, rng) log = (Raise e, log).
Proof.
  intros Hn. unfold _update_step.
  destruct (collect_raise ts es lo us rng log Hn) as [e He].
  exists e. now rewrite (bind_raise _ _ _ _ _ He).
Qed.

Lemma jit_ok {A : Type} (m : M A) log a log' :
  m log = (Ok a, log') -> jit m log = (Ok a, log').
Proof. intros H. unfold jit. now rewrite H. Qed.

Lemma jit_raise {A : Type} (m : M A) log e log' :
  m log = (Raise e, log') -> jit m log = (Raise e, log).
Proof. intros H. unfold jit. now rewrite H. Qed.

(** A jitted call of [_update_step] that cannot succeed raises while it is
    traced: the log is left as it was. *)
Lemma jitted_update_step_raise ts es lo us rng log :
  ~ (pop_ok config (population ts) /\ batch_ok config) ->
  exists e, jit (_update_step config (ts, es, lo, us, rng)) log = (Raise e, log)
            /\ (pop_ok config (population ts) -> e = AssertionError).
Proof.
  intros Hn. destruct (decide (pop_ok config (population ts))) as [Hok|Hnok].
  - assert (Hb : ~ batch_ok config) by tauto.
    destruct (update_step_raise_assert ts es lo us rng log Hok Hb) as [log' H].
    exists AssertionError. split; [eapply jit_raise; exact H | reflexivity].
  - destruct (update_step_raise_pop ts es lo us rng log Hnok) as [e H].
    exists e. split; [eapply jit_raise; exact H | tauto].
Qed.

End UpdateStep.

(** ** Reward shaping, update by update *)

Lemma wrap_int32_small (x : Z) :
  (- 2147483648 <= x < 2147483648)%Z -> wrap_int32 x = x.
Proof. intros H. unfold wrap_int32. rewrite Z.mod_small; lia. Qed.

Section ShapingPerUpdate.
Context {B : Backend}.
Variable config : TrainConfig.

(** The collection scan of one update: all its transitions are rewarded with
    the weight of the count at which the update starts. *)
Lemma scan_env_step_rewards (n : nat) ts us :
  pop_ok config (population ts) ->
  forall es lo rng log,
  exists es' lo' rng' trs,
    scanM (_env_step config) (ts, es, lo, us, rng) (replicate n tt) log
    = (Ok ((ts, es', lo', us, rng'), trs), log ++ replicate n EvEnvStep)
    /\ length trs = n
    /\ Forall (rewarded_with config
                 (rew_shaping_anneal config
                    (wrap_int32 (us * num_steps config * num_envs config)))) trs.
Proof.
  intros Hok. destruct (pop_ok_members _ _ Hok) as (ms & Hlen & Hms).
  induction n as [|n IH]; intros es lo rng log.
  - exists es, lo, rng, []. cbn. rewrite app_nil_r. repeat split. constructor.
  - destruct (env_step_spec config ts es lo us rng ms log Hms Hlen)
      as (es1 & lo1 & rng1 & tr & k & outs & Hrun & _ & _ & _ & _ & _ & _ & _ & _ & Hr).
    destruct (IH es1 lo1 rng1 (log ++ [EvEnvStep]))
      as (es2 & lo2 & rng2 & trs & Hrun2 & Hlen2 & Hall).
    exists es2, lo2, rng2, (tr :: trs).
    cbn [replicate scanM]. rewrite (bind_ok _ _ _ _ _ Hrun). cbn beta iota.
    rewrite (bind_ok _ _ _ _ _ Hrun2). cbn [mret M_ret].
    split; [now rewrite <- app_assoc|]. split; [cbn; now rewrite Hlen2|].
    constructor; [exact Hr | exact Hall].
Qed.

Lemma collect_rewards ts es lo us rng log :
  pop_ok config (population ts) ->
  exists es' lo' rng' trs,
    lax_scan (_env_step config) (ts, es, lo, us, rng) (num_steps config) log
    = (Ok ((ts, es', lo', us, rng'), trs),
       log ++ replicate (Z.to_nat (num_steps config)) EvEnvStep)
    /\ length trs = Z.to_nat (num_steps config)
    /\ Forall (rewarded_with config
                 (rew_shaping_anneal config
                    (wrap_int32 (us * num_steps config * num_envs config)))) trs.
Proof.
  intros Hok. unfold lax_scan.
  destruct (scan_env_step_rewards 1 ts us Hok es lo rng log)
    as (e1 & l1 & r1 & t1 & H1 & _).
  cbn [replicate scanM] in H1. rewrite bind_run in H1.
  destruct (_env_step config (ts, es, lo, us, rng) tt log) as [[a|e] l] eqn:E;
    [|discriminate].
  rewrite (bind_ok _ _ _ _ _ (traced_ok _ _ _ _ E)).
  apply scan_env_step_rewards. exact Hok.
Qed.


End ShapingPerUpdate.

(** ** The training loop *)

Section Loop.
Context {B : Backend}.
Variable config : TrainConfig.

Lemma init_population_dom (rng : Key) :
  dom (snd (init_population config rng)) = set_seq 0 (Z.to_nat (population_size config)).
Proof.
  unfold init_population, range.
  induction (Z.to_nat (population_size config)) as [|n IH].
  - cbn. apply dom_empty_L.
  - rewrite seq_S, foldl_app. cbn [foldl Nat.add].
    destruct (foldl _ _ (seq 0 n)) as [rng' d]. cbn [snd] in IH.
    destruct (random_split rng') as [r1 r2]. cbn [snd].
    rewrite dom_insert_L, IH, set_seq_S_end_union_L. reflexivity.
Qed.

Lemma dom_pop_ok (population : gmap nat Params) :
  dom population = set_seq 0 (Z.to_nat (population_size config)) ->
  pop_ok config population.
Proof.
  intros Hd. unfold pop_ok, range. apply Forall_forall. intros i Hi.
  apply elem_of_dom. rewrite Hd. apply elem_of_set_seq.
  apply elem_of_seq in Hi. lia.
Qed.

Lemma lookup_in_dom (population : gmap nat Params) i :
  dom population = set_seq 0 (Z.to_nat (population_size config)) ->
  is_Some (population !! i) <-> (i < Z.to_nat (population_size config))%nat.
Proof.
  intros Hd. rewrite <- elem_of_dom, Hd, elem_of_set_seq. lia.
Qed.

Lemma loop_inv_pop_ok st : loop_inv config st -> pop_ok config (population (loop_train_state st)).
Proof. intros (Hd & _). now apply dom_pop_ok. Qed.

Lemma range_nonempty :
  (0 < Z.to_nat (population_size config))%nat -> range (population_size config) <> [].
Proof.
  unfold range. destruct (Z.to_nat (population_size config)); [lia | discriminate].
Qed.

Lemma jax_random_choice_ok (key : Key) (a : list nat) log :
  a <> [] -> jax_random_choice key a log = (Ok (random_choice key a), log).
Proof. destruct a; [congruence | reflexivity]. Qed.

(** The three ways [train_init] can end. *)
Lemma train_init_outcome log :
  (anneal_lr config = false /\ train_init config log = (Raise TypeError, log))
  \/ (anneal_lr config = true /\ range (population_size config) = []
      /\ train_init config log = (Raise ValueError, log))
  \/ (anneal_lr config = true /\ range (population_size config) <> []
      /\ exists idx,
           idx = random_choice (random_PRNGKey 0) (range (population_size config))
           /\ (((Z.to_nat (population_size config) <= idx)%nat
                /\ train_init config log = (Raise (KeyError idx), log))
               \/ ((idx < Z.to_nat (population_size config))%nat
                   /\ exists st,
                        train_init config log = (Ok st, log ++ [EvCheckout idx])
                        /\ loop_inv config st
                        /\ loop_key st = random_PRNGKey 0
                        /\ curr_agent_idx (loop_train_state st) = idx
                        /\ fst (opt_state (loop_train_state st)) = 0%Z
                        /\ loop_metric st = None
                        /\ population (loop_train_state st) !! idx
                           = Some (params (loop_train_state st))))).
Proof.
  unfold train_init.
  pose proof (init_population_dom (random_PRNGKey (seed config))) as Hdom.
  destruct (init_population config (random_PRNGKey (seed config))) as [rng d].
  cbn [snd] in Hdom.
  destruct (anneal_lr config); [|left; auto].
  right. rewrite bind_run. cbn [mret M_ret].
  destruct (range (population_size config)) as [|i0 l] eqn:Hr.
  - left. auto.
  - right. split; [reflexivity|]. split; [discriminate|].
    eexists. split; [reflexivity|].
    cbn [jax_random_choice]. rewrite bind_run. cbn [mret M_ret].
    set (idx := random_choice (random_PRNGKey 0) (i0 :: l)).
    destruct (d !! idx) as [p|] eqn:Hp.
    + right.
      assert (Hidx : (idx < Z.to_nat (population_size config))%nat)
        by (apply (lookup_in_dom d idx Hdom); eauto).
      split; [exact Hidx|].
      rewrite (bind_ok _ _ _ _ _ (getitem_ok _ _ _ _ Hp)).
      rewrite bind_run. cbn [emit].
      destruct (random_split rng) as [rng1 rng2].
      eexists. split; [reflexivity|].
      unfold loop_inv.
      cbn [loop_train_state loop_key loop_old_param_idx loop_metric population
           curr_agent_idx other_agent_idcs opt_state params fst].
      rewrite Hr. auto 12.
    + left. split.
      * destruct (decide (idx < Z.to_nat (population_size config))%nat) as [Hlt|]; [|lia].
        apply (lookup_in_dom d idx Hdom) in Hlt. rewrite Hp in Hlt.
        destruct Hlt; discriminate.
      * now rewrite (bind_raise _ _ _ _ _ (getitem_raise _ _ _ Hp)).
Qed.

Lemma checkpoint_fold (ts : PopulationTrainState) (i : nat) (l : list nat) log :
  Forall (fun p => is_Some (population ts !! p)) l ->
  foldM (fun (_ : unit) p =>
           _ ← getitem (population ts) p; emit (EvCheckpoint i p)) tt l log
  = (Ok tt, log ++ map (EvCheckpoint i) l).
Proof.
  intros H. revert log. induction H as [|p l [q Hq] _ IH]; intros log.
  - cbn. now rewrite app_nil_r.
  - cbn [foldM map]. rewrite bind_run.
    rewrite (bind_ok _ _ _ _ _ (getitem_ok _ _ _ _ Hq)). cbn [emit].
    rewrite IH, <- app_assoc. reflexivity.
Qed.

Lemma checkpoint_outcome (ts : PopulationTrainState) (i : nat) log :
  pop_ok config (population ts) ->
  (checkpoint_freq config = 0%Z
   /\ checkpoint config ts i log = (Raise ZeroDivisionError, log))
  \/ (checkpoint_freq config <> 0%Z
      /\ exists l, checkpoint config ts i log = (Ok tt, log ++ map (EvCheckpoint i) l)).
Proof.
  intros Hok. unfold checkpoint.
  destruct (Z.eqb_spec (checkpoint_freq config) 0) as [E|E]; [left; auto|].
  right. split; [exact E|].
  destruct (_ && _).
  - eexists. apply checkpoint_fold. exact Hok.
  - exists []. cbn. now rewrite app_nil_r.
Qed.

(** The four ways one iteration of the loop can end, from a state that
    satisfies the invariant. *)
Lemma train_iteration_outcome (st : LoopState) (i : nat) log :
  loop_inv config st ->
  let ts := loop_train_state st in
  let c := fst (opt_state ts) in
  let new := random_choice (snd (random_split (loop_key st)))
                           (range (population_size config)) in
  let run := train_iteration config (range (population_size config)) st i log in
  (~ batch_ok config /\ run = (Raise AssertionError, log))
  \/ (batch_ok config
      /\ ((Z.to_nat (population_size config) <= new)%nat
          /\ run = (Raise (KeyError new), log ++ update_events config c)))
  \/ (batch_ok config
      /\ (new < Z.to_nat (population_size config))%nat
      /\ checkpoint_freq config = 0%Z
      /\ run = (Raise ZeroDivisionError,
                log ++ update_events config c ++ [EvCheckout new]))
  \/ (batch_ok config
      /\ (new < Z.to_nat (population_size config))%nat
      /\ checkpoint_freq config <> 0%Z
      /\ exists st' l trained rs' metric,
           run = (Ok st', log ++ update_events config c ++ [EvCheckout new]
                          ++ map (EvCheckpoint i) l)
           /\ loop_inv config st'
           /\ loop_metric st' = Some metric
           /\ loop_key st' = fst (random_split (loop_key st))
           /\ curr_agent_idx (loop_train_state st') = new
           /\ fst (opt_state (loop_train_state st'))
              = (c + Z.of_nat (Z.to_nat (update_epochs config)
                               * Z.to_nat (num_minibatches config)))%Z
           /\ jit (_update_step config (loop_runner_state st)) log
              = (Ok (rs', metric), log ++ update_events config c)
           /\ trained = params (fst (fst (fst (fst rs'))))
           /\ population (loop_train_state st')
              = <[curr_agent_idx ts := trained]> (population ts)
           /\ population ts !! new = Some (params (loop_train_state st'))).
Proof.
  intros Hinv ts c new run.
  pose proof (loop_inv_pop_ok st Hinv) as Hok.
  destruct Hinv as (Hdom & Hold & Hcurr & Hothers).
  destruct st as [[[key [[[[ts0 es] lo] us] rng]] old] m].
  cbn [loop_train_state loop_key loop_old_param_idx loop_runner_state] in *.
  subst ts run. unfold train_iteration.
  destruct (random_split key) as [key1 key2] eqn:Hkey. cbn [snd fst] in *.
  destruct (decide (batch_ok config)) as [Hb|Hb].
  2:{ left. split; [exact Hb|].
      destruct (jitted_update_step_raise config ts0 es lo us rng log) as (e & He & Hass);
        [tauto|].
      rewrite (Hass Hok) in He. now rewrite (bind_raise _ _ _ _ _ He). }
  right.
  destruct (update_step_ok config ts0 es lo us rng log Hok Hb)
    as (ts1 & es1 & lo1 & rng1 & metric & Hrun & (Hp1 & Hc1 & Ho1) & Hcount).
  rewrite (bind_ok _ _ _ _ _ (jit_ok _ _ _ _ Hrun)). cbn beta iota.
  assert (Hne : range (population_size config) <> []) by (apply range_nonempty; lia).
  rewrite (bind_ok _ _ _ _ _ (jax_random_choice_ok key2 _ _ Hne)). fold new.
  destruct (population ts1 !! new) as [p|] eqn:Hp.
  2:{ left. split; [exact Hb|]. split.
      - destruct (decide (new < Z.to_nat (population_size config))%nat) as [Hlt|]; [|lia].
        rewrite Hp1 in Hp. apply (lookup_in_dom _ new Hdom) in Hlt.
        rewrite Hp in Hlt. destruct Hlt; discriminate.
      - fold c. rewrite (bind_raise _ _ _ _ _ (getitem_raise _ _ _ Hp)). reflexivity. }
  right.
  assert (Hnew : (new < Z.to_nat (population_size config))%nat).
  { apply (lookup_in_dom (population ts0) new Hdom). rewrite <- Hp1. eauto. }
  rewrite (bind_ok _ _ _ _ _ (getitem_ok _ _ _ _ Hp)).
  rewrite bind_run. cbn [emit].
  set (ts2 := {| step := step ts1; params := p; opt_state := opt_state ts1;
                 population := <[old := params ts1]> (population ts1);
                 other_agent_idcs := other_indices (range (population_size config)) new;
                 curr_agent_idx := new |}).
  assert (Hdom2 : dom (population ts2) = set_seq 0 (Z.to_nat (population_size config))).
  { cbn [ts2 population]. rewrite dom_insert_L, Hp1, Hdom.
    apply subseteq_union_1_L, singleton_subseteq_l, elem_of_set_seq. lia. }
  destruct (checkpoint_outcome ts2 i
              ((log ++ update_events config c) ++ [EvCheckout new])
              (dom_pop_ok _ Hdom2))
    as [(Hf & Hcp)|(Hf & lcp & Hcp)].
  - left. split; [exact Hb|]. split; [exact Hnew|]. split; [exact Hf|].
    fold c. rewrite (bind_raise _ _ _ _ _ Hcp). now rewrite <- app_assoc.
  - right. split; [exact Hb|]. split; [exact Hnew|]. split; [exact Hf|].
    exists (key1, (ts2, es1, lo1, (us + 1)%Z, rng1), new, Some metric), lcp,
           (params ts1), (ts1, es1, lo1, (us + 1)%Z, rng1), metric.
    fold c. rewrite (bind_ok _ _ _ _ _ Hcp). cbn [mret M_ret].
    split; [now rewrite <- !app_assoc|].
    split; [unfold loop_inv; cbn [loop_train_state loop_old_param_idx]; auto|].
    cbn [loop_train_state loop_key loop_metric ts2 curr_agent_idx opt_state
         population params fst].
    split; [reflexivity|].
    split; [reflexivity|]. split; [reflexivity|]. split; [exact Hcount|].
    split; [apply (jit_ok _ _ _ _ Hrun)|]. split; [reflexivity|].
    split; [now rewrite Hp1, Hold | now rewrite <- Hp1].
Qed.

End Loop.

(** ** The shaping weight within an update *)

Section ToyShaping.
Import Toy.
#[local] Existing Instance shaping_backend.
Local Open Scope R_scope.


End ToyShaping.

(** ** The population across iterations *)

Section Population.
Context {B : Backend}.
Variable config : TrainConfig.

Lemma iterations_preserve_inv (n a : nat) :
  forall st log st' log',
    loop_inv config st ->
    foldM (train_iteration config (range (population_size config))) st (seq a n) log
    = (Ok st', log') ->
    loop_inv config st'.
Proof.
  revert a. induction n as [|n IH]; intros a st log st' log' Hinv Hrun.
  - cbn in Hrun. injection Hrun as <- _. exact Hinv.
  - cbn [seq foldM] in Hrun. rewrite bind_run in Hrun.
    destruct (train_iteration_outcome config st a log Hinv)
      as [(_ & H)|[(_ & _ & H)|[(_ & _ & _ & H)|(_ & _ & _ & st1 & l & tr & rs & m & H & Hinv1 & _)]]];
      cbv zeta in H; rewrite H in Hrun; try discriminate.
    eapply IH; eassumption.
Qed.

Lemma not_in_other_indices (all_agent_idcs : list nat) (idx : nat) :
  idx ∉ other_indices all_agent_idcs idx.
Proof. unfold other_indices. rewrite list_elem_of_filter. tauto. Qed.

(** C7. After any number of iterations of the training loop the population
    has exactly the keys [0 .. population_size - 1]; the current trainee
    index is one of them and is not among the other indices; and the other
    indices stored in the trainer state are what [other_indices] computes
    again from the population size and the trainee index. *)
Theorem population_invariant (n : nat) (st0 st : LoopState) (log0 log : list Event) :
  train_init config [] = (Ok st0, log0) ->
  train_loop config n st0 log0 = (Ok st, log) ->
  let ts := loop_train_state st in
  dom (population ts) = set_seq 0 (Z.to_nat (population_size config))
  /\ size (population ts) = Z.to_nat (population_size config)
  /\ (curr_agent_idx ts < Z.to_nat (population_size config))%nat
  /\ (curr_agent_idx ts ∉ other_agent_idcs ts)
  /\ other_agent_idcs ts
     = other_indices (range (population_size config)) (curr_agent_idx ts)
  /\ other_indices (range (population_size config)) (curr_agent_idx ts)
     = other_indices (range (population_size config)) (curr_agent_idx ts).
Proof.
  intros Hinit Hloop ts.
  assert (Hinv0 : loop_inv config st0).
  { destruct (train_init_outcome config [])
      as [(_ & H)|[(_ & _ & H)|(_ & _ & idx & _ & [(_ & H)|(_ & st1 & H & Hinv & _)])]];
      rewrite H in Hinit; try discriminate.
    injection Hinit as <- _. exact Hinv. }
  destruct (iterations_preserve_inv n 0 st0 log0 st log Hinv0 Hloop)
    as (Hdom & _ & Hcurr & Hothers).
  fold ts in Hdom, Hcurr, Hothers.
  split; [exact Hdom|].
  split; [rewrite <- size_dom, Hdom; apply size_set_seq|].
  split; [exact Hcurr|].
  split; [rewrite Hothers; apply not_in_other_indices|].
  split; [exact Hothers | reflexivity].
Qed.

End Population.

(** ** The log and its projections *)

Lemma checkouts_app (l1 l2 : list Event) :
  checkouts (l1 ++ l2) = checkouts l1 ++ checkouts l2.
Proof. apply omap_app. Qed.

Lemma lrs_of_app (l1 l2 : list Event) : lrs_of (l1 ++ l2) = lrs_of l1 ++ lrs_of l2.
Proof. apply omap_app. Qed.

Lemma checkouts_env_steps (n : nat) : checkouts (replicate n EvEnvStep) = [].
Proof. induction n; [reflexivity | exact IHn]. Qed.

Lemma lrs_of_env_steps (n : nat) : lrs_of (replicate n EvEnvStep) = [].
Proof. induction n; [reflexivity | exact IHn]. Qed.

Lemma checkouts_grad_events config c n : checkouts (grad_events config c n) = [].
Proof. unfold grad_events. induction (seq 0 n); [reflexivity | assumption]. Qed.

Lemma lrs_of_grad_events config c n :
  lrs_of (grad_events config c n)
  = map (fun j => linear_schedule config (c + Z.of_nat j)) (seq 0 n).
Proof.
  unfold grad_events. induction (seq 0 n) as [|j l IH]; [reflexivity|].
  cbn. f_equal. exact IH.
Qed.

Lemma checkouts_update_events config c : checkouts (update_events config c) = [].
Proof.
  unfold update_events.
  now rewrite checkouts_app, checkouts_env_steps, checkouts_grad_events.
Qed.

Lemma lrs_of_update_events config c :
  lrs_of (update_events config c)
  = map (fun j => linear_schedule config (c + Z.of_nat j))
        (seq 0 (Z.to_nat (update_epochs config) * Z.to_nat (num_minibatches config))).
Proof.
  unfold update_events. now rewrite lrs_of_app, lrs_of_env_steps, lrs_of_grad_events.
Qed.

Lemma checkouts_checkpoints i (l : list nat) : checkouts (map (EvCheckpoint i) l) = [].
Proof. induction l; [reflexivity | assumption]. Qed.

Lemma lrs_of_checkpoints i (l : list nat) : lrs_of (map (EvCheckpoint i) l) = [].
Proof. induction l; [reflexivity | assumption]. Qed.

Create Rewrite HintDb log_proj.
#[export] Hint Rewrite checkouts_app checkouts_update_events checkouts_checkpoints
  lrs_of_app lrs_of_update_events lrs_of_checkpoints : log_proj.

Lemma train_log {B : Backend} (config : TrainConfig) :
  snd (train config [])
  = snd ((train_init config ≫= train_loop config (Z.to_nat (num_updates config))) []).
Proof.
  unfold train. rewrite !bind_run.
  destruct (train_init config []) as [[st|e] log]; [|reflexivity].
  rewrite bind_run.
  destruct (train_loop config _ st log) as [[[[[key rs] old] [m|]]|e] log']; reflexivity.
Qed.

(** ** Independence of the trainee sequence from the seed *)

Section Seed.
Context {B : Backend}.
Variable config : TrainConfig.
Variables s1 s2 : Z.

Let c1 := with_seed config s1.
Let c2 := with_seed config s2.

Lemma iteration_seed_independent (st1 st2 : LoopState) (i : nat) log1 log2 :
  loop_inv c1 st1 -> loop_inv c2 st2 ->
  loop_key st1 = loop_key st2 ->
  checkouts log1 = checkouts log2 ->
  (exists e1 e2 l1 l2,
      train_iteration c1 (range (population_size c1)) st1 i log1 = (Raise e1, l1)
      /\ train_iteration c2 (range (population_size c2)) st2 i log2 = (Raise e2, l2)
      /\ checkouts l1 = checkouts l2)
  \/ (exists st1' st2' l1 l2,
        train_iteration c1 (range (population_size c1)) st1 i log1 = (Ok st1', l1)
        /\ train_iteration c2 (range (population_size c2)) st2 i log2 = (Ok st2', l2)
        /\ checkouts l1 = checkouts l2
        /\ loop_inv c1 st1' /\ loop_inv c2 st2'
        /\ loop_key st1' = loop_key st2').
Proof.
  intros Hinv1 Hinv2 Hkey Hlog.
  pose proof (train_iteration_outcome c1 st1 i log1 Hinv1) as O1.
  pose proof (train_iteration_outcome c2 st2 i log2 Hinv2) as O2.
  cbv zeta in O1, O2. rewrite <- Hkey in O2.
  change (population_size c2) with (population_size c1) in *.
  change (checkpoint_freq c2) with (checkpoint_freq c1) in *.
  change (batch_ok c2) with (batch_ok c1) in *.
  set (new := random_choice _ _) in *.
  destruct O1 as [(B1 & H1)|[(B1 & N1 & H1)|[(B1 & N1 & F1 & H1)
                 |(B1 & N1 & F1 & st1' & l1 & t1 & r1 & m1 & H1 & I1 & _ & K1 & _)]]];
  destruct O2 as [(B2 & H2)|[(B2 & N2 & H2)|[(B2 & N2 & F2 & H2)
                 |(B2 & N2 & F2 & st2' & l2 & t2 & r2 & m2 & H2 & I2 & _ & K2 & _)]]];
    try (exfalso; tauto); try (exfalso; lia); try (exfalso; congruence).
  - left. do 4 eexists. split; [exact H1|]. split; [exact H2|]. exact Hlog.
  - left. do 4 eexists. split; [exact H1|]. split; [exact H2|].
    autorewrite with log_proj. rewrite Hlog. reflexivity.
  - left. do 4 eexists. split; [exact H1|]. split; [exact H2|].
    autorewrite with log_proj. rewrite Hlog. reflexivity.
  - right. do 4 eexists. split; [exact H1|]. split; [exact H2|].
    autorewrite with log_proj. rewrite Hlog.
    split; [reflexivity|]. split; [exact I1|]. split; [exact I2|]. congruence.
Qed.

Lemma iterations_seed_independent (n a : nat) :
  forall st1 st2 log1 log2,
    loop_inv c1 st1 -> loop_inv c2 st2 ->
    loop_key st1 = loop_key st2 ->
    checkouts log1 = checkouts log2 ->
    checkouts (snd (foldM (train_iteration c1 (range (population_size c1))) st1
                          (seq a n) log1))
    = checkouts (snd (foldM (train_iteration c2 (range (population_size c2))) st2
                            (seq a n) log2)).
Proof.
  revert a. induction n as [|n IH]; intros a st1 st2 log1 log2 I1 I2 Hk Hl.
  - exact Hl.
  - cbn [seq foldM]. rewrite !bind_run.
    destruct (iteration_seed_independent st1 st2 a log1 log2 I1 I2 Hk Hl)
      as [(e1 & e2 & l1 & l2 & H1 & H2 & Hc)
         |(st1' & st2' & l1 & l2 & H1 & H2 & Hc & I1' & I2' & Hk')];
      rewrite H1, H2.
    + exact Hc.
    + apply IH; assumption.
Qed.

(** C10. Two runs whose configurations differ only in the seed check out
    the same sequence of trainee indices (the initial pick and every
    rotation draw), whatever the collaborators are and however the runs
    end. *)
Theorem trainee_sequence_seed_independent :
  checkouts (snd (train (with_seed config s1) []))
  = checkouts (snd (train (with_seed config s2) [])).
Proof.
  rewrite !train_log, !bind_run. fold c1 c2.
  pose proof (train_init_outcome c1 []) as O1.
  pose proof (train_init_outcome c2 []) as O2.
  change (population_size c2) with (population_size c1) in *.
  change (anneal_lr c2) with (anneal_lr c1) in *.
  change (num_updates c2) with (num_updates c1) in *.
  destruct O1 as [(A1 & H1)|[(A1 & R1 & H1)|(A1 & R1 & i1 & E1
                 & [(N1 & H1)|(N1 & st1 & H1 & I1 & K1 & _)])]];
  destruct O2 as [(A2 & H2)|[(A2 & R2 & H2)|(A2 & R2 & i2 & E2
                 & [(N2 & H2)|(N2 & st2 & H2 & I2 & K2 & _)])]];
    try (exfalso; congruence); try (exfalso; subst; lia);
    rewrite H1, H2; try reflexivity.
  subst i1 i2.
  apply (iterations_seed_independent _ 0); try assumption; congruence.
Qed.

End Seed.

(** ** Rotation *)

Section Rotation.
Context {B : Backend}.
Variable config : TrainConfig.

(** What a successful iteration does to the parameters: the freshly
    optimized ones go into the slot of the previous trainee, and the new
    trainee's parameters are the entry that the population had at the new
    index before that reinsertion. They are the entry after the reinsertion
    exactly when the index changed or training left the parameters as they
    were. *)
Lemma rotation_checkout (st st' : LoopState) (i : nat) log log' :
  loop_inv config st ->
  train_iteration config (range (population_size config)) st i log = (Ok st', log') ->
  let old := curr_agent_idx (loop_train_state st) in
  let new := curr_agent_idx (loop_train_state st') in
  exists trained rs' metric log1,
    jit (_update_step config (loop_runner_state st)) log = (Ok (rs', metric), log1)
    /\ trained = params (fst (fst (fst (fst rs'))))
    /\ population (loop_train_state st') !! old = Some trained
    /\ population (loop_train_state st) !! new = Some (params (loop_train_state st'))
    /\ (new <> old ->
        population (loop_train_state st') !! new = Some (params (loop_train_state st')))
    /\ (new = old ->
        (population (loop_train_state st') !! new = Some (params (loop_train_state st'))
         <-> trained = params (loop_train_state st'))).
Proof.
  intros Hinv Hrun old new.
  destruct (train_iteration_outcome config st i log Hinv)
    as [(_ & H)|[(_ & _ & H)|[(_ & _ & _ & H)
       |(_ & _ & _ & st1 & l & tr & rs & m & H & _ & _ & _ & Hnew & _ & Hjit & Htr & Hpop & Hp)]]];
    cbv zeta in H; rewrite H in Hrun; try discriminate.
  injection Hrun as <- _. fold old in Hpop. fold new in Hnew.
  exists tr, rs, m. eexists. split; [exact Hjit|]. split; [exact Htr|].
  rewrite Hpop. rewrite <- Hnew in Hp. fold new in Hp.
  split; [apply lookup_insert_eq|]. split; [exact Hp|].
  split.
  - intros Hne. rewrite lookup_insert_ne by congruence. exact Hp.
  - intros ->. rewrite lookup_insert_eq. split; congruence.
Qed.

End Rotation.

Section ToyRotation.
Import Toy.
#[local] Existing Instance backend.

(** C3 at a failing input: in the first iteration of the small instance the
    trainee is member 0 with parameters 2 and the draw is index 0 again. The
    optimized parameters 4 are reinserted into slot 0, but the parameters
    checked out for the next iteration are the 2 that slot 0 held before. *)
Theorem rotation_checks_out_stale_parameters :
  exists st log,
    train_loop config 1 (0%nat, runner_state0, 0%nat, None) [EvCheckout 0] = (Ok st, log)
    /\ checkouts log = [0; 0]%nat
    /\ curr_agent_idx (loop_train_state st) = 0%nat
    /\ population (loop_train_state st) !! 0%nat = Some 4%nat
    /\ params (loop_train_state st) = 2%nat
    /\ population (loop_train_state st) !! curr_agent_idx (loop_train_state st)
       <> Some (params (loop_train_state st)).
Proof.
  do 2 eexists. split; [vm_compute; reflexivity|].
  repeat split; try (vm_compute; reflexivity).
  vm_compute. discriminate.
Qed.

End ToyRotation.

(** ** Minibatches *)

Section Reshape.
Context {A : Type}.

Lemma reshape_rows_length (n : nat) (x : list A) : length (reshape_rows n x) = n.
Proof. unfold reshape_rows. now rewrite length_map, length_seq. Qed.

Lemma chunks_concat (k n : nat) (x : list A) :
  length x = (n * k)%nat ->
  concat (map (fun i => take k (drop (i * k) x)) (seq 0 n)) = x.
Proof.
  revert x. induction n as [|n IH]; intros x Hx.
  - destruct x; [reflexivity | discriminate].
  - cbn [seq map concat]. rewrite <- seq_shift, map_map. cbn [Nat.mul drop].
    transitivity (take k x ++ drop k x); [|apply take_drop]. f_equal.
    rewrite <- (IH (drop k x)) by (rewrite length_drop; lia).
    f_equal. apply map_ext. intros i. rewrite drop_drop. reflexivity.
Qed.

Lemma reshape_rows_concat (n k : nat) (x : list A) :
  (0 < n)%nat -> length x = (n * k)%nat -> concat (reshape_rows n x) = x.
Proof.
  intros Hn Hx. unfold reshape_rows.
  replace (length x / n)%nat with k
    by (rewrite Hx, Nat.mul_comm, Nat.div_mul; lia).
  now apply chunks_concat.
Qed.

Lemma reshape_rows_row (n k : nat) (x : list A) :
  (0 < n)%nat -> length x = (n * k)%nat ->
  Forall (fun row => length row = k) (reshape_rows n x).
Proof.
  intros Hn Hx. unfold reshape_rows.
  replace (length x / n)%nat with k
    by (rewrite Hx, Nat.mul_comm, Nat.div_mul; lia).
  apply Forall_fmap, Forall_seq. intros i Hi. cbn.
  rewrite length_take, length_drop, Hx.
  assert (i * k + k <= n * k)%nat by nia. lia.
Qed.

End Reshape.

Lemma omap_take_drop {A C : Type} (f : A -> option C) (l : list A) (k d : nat) :
  Forall (fun a => is_Some (f a)) l ->
  omap f (take k (drop d l)) = take k (drop d (omap f l)).
Proof.
  intros H. revert k d. induction H as [|a l [c Hc] _ IH]; intros k d.
  - cbn. rewrite !drop_nil, !take_nil. reflexivity.
  - destruct d as [|d].
    + destruct k as [|k]; [reflexivity|].
      cbn. rewrite Hc. cbn. f_equal. apply (IH k 0%nat).
    + cbn. rewrite Hc. cbn. apply IH.
Qed.

Lemma omap_length_total {A C : Type} (f : A -> option C) (l : list A) :
  Forall (fun a => is_Some (f a)) l -> length (omap f l) = length l.
Proof.
  induction 1 as [|a l [c Hc] _ IH]; [reflexivity|]. cbn. rewrite Hc. cbn. now rewrite IH.
Qed.

Lemma take0_suffix {A : Type} (pre x : list A) :
  jnp_take0 (pre ++ x) (seq (length pre) (length x)) = x.
Proof.
  unfold jnp_take0. revert pre. induction x as [|a x IH]; intros pre; [reflexivity|].
  cbn [length seq omap list_omap]. rewrite list_lookup_middle by reflexivity. cbn.
  f_equal. rewrite (cons_middle a pre x), app_assoc.
  replace (S (length pre)) with (length (pre ++ [a]))
    by (rewrite length_app; cbn; lia).
  apply IH.
Qed.

Lemma take0_identity {A : Type} (x : list A) : jnp_take0 x (seq 0 (length x)) = x.
Proof. apply (take0_suffix [] x). Qed.

(** Reordering by a permutation of the indices and cutting into rows commute
    on every leaf. *)
Lemma take0_reshape {A : Type} (n : nat) (x : list A) (perm : list nat) :
  perm ≡ₚ seq 0 (length x) ->
  reshape_rows n (jnp_take0 x perm) = map (jnp_take0 x) (reshape_rows n perm)
  /\ jnp_take0 x perm ≡ₚ x.
Proof.
  intros Hperm.
  assert (Hall : Forall (fun i => is_Some (x !! i)) perm).
  { rewrite Hperm. apply Forall_seq. intros i Hi. apply lookup_lt_is_Some. lia. }
  split.
  - unfold reshape_rows, jnp_take0. rewrite omap_length_total by exact Hall.
    rewrite map_map. apply map_ext. intros i.
    symmetry. apply omap_take_drop. exact Hall.
  - unfold jnp_take0. rewrite Hperm. fold (jnp_take0 x (seq 0 (length x))).
    now rewrite take0_identity.
Qed.

(** ** The batch-size contract *)

Lemma post_init_fields (a : TrainConfigArgs) (config : TrainConfig) :
  post_init a = Ok config ->
  num_actors config = (2 * num_envs config)%Z
  /\ num_updates config
     = (total_timesteps config / num_steps config / num_envs config)%Z
  /\ minibatch_size config
     = (num_actors config * num_steps config / num_minibatches config)%Z
  /\ num_steps config <> 0%Z /\ num_envs config <> 0%Z /\ num_minibatches config <> 0%Z.
Proof.
  unfold post_init, floordiv.
  destruct (Z.eqb_spec (a_num_steps a) 0); [discriminate|].
  destruct (Z.eqb_spec (a_num_envs a) 0); [discriminate|].
  destruct (Z.eqb_spec (a_num_minibatches a) 0); [discriminate|].
  intros [= <-]. cbn. repeat split; assumption.
Qed.

Section Contract.
Context {B : Backend}.
Variable config : TrainConfig.

Lemma first_iteration_asserts (st : LoopState) (n : nat) log :
  loop_inv config st ->
  ~ batch_ok config ->
  train_loop config (S n) st log = (Raise AssertionError, log).
Proof.
  intros Hinv Hb. unfold train_loop. cbn [seq foldM]. rewrite bind_run.
  destruct (train_iteration_outcome config st 0 log Hinv)
    as [(_ & H)|[(Hb' & _)|[(Hb' & _)|(Hb' & _)]]]; try tauto.
  cbv zeta in H. now rewrite H.
Qed.

(** With an inconsistent batch size [train] always ends in an exception and
    has executed neither an environment step nor a gradient update. *)
Lemma train_aborts_on_mismatch :
  ~ batch_ok config ->
  exists e log,
    train config [] = (Raise e, log)
    /\ Forall (fun ev => is_training ev = false) log
    /\ ((forall k l, l <> [] -> random_choice k l ∈ l) ->
        anneal_lr config = true ->
        (0 < population_size config)%Z ->
        (0 < num_updates config)%Z ->
        e = AssertionError).
Proof.
  intros Hb. unfold train. rewrite bind_run.
  destruct (train_init_outcome config [])
    as [(Ha & H)|[(Ha & Hr & H)|(Ha & Hr & idx & Hidx
       & [(Hn & H)|(Hn & st & H & Hinv & _ & _ & _ & Hm & _)])]]; rewrite H.
  - exists TypeError, []. split; [reflexivity|]. split; [constructor|]. congruence.
  - exists ValueError, []. split; [reflexivity|]. split; [constructor|].
    intros _ _ Hps _. exfalso. apply (range_nonempty config); [lia | exact Hr].
  - exists (KeyError idx), []. split; [reflexivity|]. split; [constructor|].
    intros Hch _ _ _. exfalso.
    specialize (Hch (random_PRNGKey 0) _ Hr). rewrite <- Hidx in Hch.
    apply elem_of_seq in Hch. lia.
  - destruct (Z.to_nat (num_updates config)) as [|n] eqn:Hnu.
    + exists UnboundLocalError, ([] ++ [EvCheckout idx]).
      rewrite bind_run. cbn [train_loop seq foldM mret M_ret].
      destruct st as [[[key rs] old] m]. cbn in Hm. subst m.
      split; [reflexivity|]. split; [repeat constructor | lia].
    + exists AssertionError, ([] ++ [EvCheckout idx]).
      rewrite bind_run, (first_iteration_asserts st n _ Hinv Hb).
      split; [reflexivity|]. split; [repeat constructor | reflexivity].
Qed.

Lemma make_minibatches_leafwise (_rng : Key) (batch_size : Z)
    (batch : Trans list2 * list2 R * list2 R) :
  make_minibatches config _rng batch_size batch
  = @batch_map _ list2 list2 (minibatch_leaf config _rng batch_size) batch.
Proof. destruct batch as [[t a] g]. reflexivity. Qed.

End Contract.

(** C4. When [minibatch_size * num_minibatches] differs from
    [num_steps * num_actors] the program ends in an exception without having
    executed an environment step or a gradient update; the exception is the
    assertion of [_update_epoch], raised while the first update step is
    traced, whenever the set-up succeeds and at least one update is scheduled.
    When the two agree (and the sizes are positive) every leaf of the batch is
    cut into [num_minibatches] rows of [minibatch_size >= 1] samples, and the
    sample indices of the rows together are a rearrangement of
    [0 .. num_steps * num_actors - 1]: the minibatches are equal in size, do
    not overlap and are not empty. *)
Theorem batch_size_contract {B : Backend} (a : TrainConfigArgs) (config : TrainConfig) :
  post_init a = Ok config ->
  (~ batch_ok config ->
   exists e log,
     program a = (Raise e, log)
     /\ Forall (fun ev => is_training ev = false) log
     /\ ((forall k l, l <> [] -> random_choice k l ∈ l) ->
         anneal_lr config = true ->
         (0 < population_size config)%Z ->
         (0 < num_updates config)%Z ->
         e = AssertionError))
  /\ (batch_ok config ->
      (0 < num_envs config)%Z -> (0 < num_steps config)%Z ->
      (0 < num_minibatches config)%Z ->
      (forall k n, random_permutation k n ≡ₚ seq 0 n) ->
      forall _rng : Key,
        let batch_size := (minibatch_size config * num_minibatches config)%Z in
        let idx := minibatch_indices config _rng batch_size in
        (forall batch,
            make_minibatches config _rng batch_size batch
            = @batch_map _ list2 list2 (minibatch_leaf config _rng batch_size) batch)
        /\ length idx = Z.to_nat (num_minibatches config)
        /\ Forall (fun row => length row = Z.to_nat (minibatch_size config) /\ row <> [])
                  idx
        /\ concat idx ≡ₚ seq 0 (Z.to_nat (num_steps config * num_actors config))
        /\ (forall (A : Type) (x : list2 A),
               length (concat x) = Z.to_nat (num_steps config * num_actors config) ->
               minibatch_leaf config _rng batch_size A x
               = map (jnp_take0 (concat x)) idx
               /\ concat (minibatch_leaf config _rng batch_size A x) ≡ₚ concat x)).
Proof.
  intros Hpost. split.
  - intros Hb. unfold program. rewrite Hpost. now apply train_aborts_on_mismatch.
  - intros Hb Henvs Hsteps Hnm Hperm _rng batch_size idx.
    destruct (post_init_fields a config Hpost) as (Hactors & _).
    unfold batch_ok in Hb. fold batch_size in Hb.
    assert (Hms : (0 < minibatch_size config)%Z) by nia.
    assert (Hsize : Z.to_nat batch_size
                    = (Z.to_nat (num_minibatches config)
                       * Z.to_nat (minibatch_size config))%nat).
    { unfold batch_size. rewrite Z.mul_comm, Z2Nat.inj_mul by lia. reflexivity. }
    assert (Hlen : length (random_permutation _rng (Z.to_nat batch_size))
                   = (Z.to_nat (num_minibatches config)
                      * Z.to_nat (minibatch_size config))%nat).
    { rewrite (Permutation_length (Hperm _ _)), length_seq. exact Hsize. }
    assert (Hnm' : (0 < Z.to_nat (num_minibatches config))%nat) by lia.
    split; [intros batch; apply make_minibatches_leafwise|].
    split; [apply reshape_rows_length|].
    split.
    { eapply Forall_impl; [apply (reshape_rows_row _ _ _ Hnm' Hlen)|].
      intros row Hrow. split; [exact Hrow|]. intros ->. cbn in Hrow. lia. }
    split.
    { unfold idx, minibatch_indices.
      rewrite (reshape_rows_concat _ _ _ Hnm' Hlen), <- Hb. apply Hperm. }
    intros A x Hx. unfold minibatch_leaf. fold batch_size in Hx.
    rewrite <- Hb in Hx.
    destruct (take0_reshape (Z.to_nat (num_minibatches config)) (concat x)
                (random_permutation _rng (Z.to_nat batch_size)))
      as [Hre Hpm]; [rewrite Hx; apply Hperm|].
    split; [exact Hre|].
    rewrite reshape_rows_concat with (k := Z.to_nat (minibatch_size config));
      [exact Hpm | exact Hnm' |].
    rewrite (Permutation_length Hpm), Hx. exact Hsize.
Qed.

(** ** The learning-rate schedule *)

Lemma seq_mul (n m : nat) :
  seq 0 (n * m) = flat_map (fun i => map (fun j => (i * m + j)%nat) (seq 0 m)) (seq 0 n).
Proof.
  induction n as [|n IH]; [reflexivity|].
  rewrite seq_S, flat_map_app, <- IH. cbn [flat_map Nat.add].
  rewrite app_nil_r.
  replace (S n * m)%nat with (n * m + m)%nat by lia.
  rewrite seq_app. f_equal. cbn [Nat.add].
  replace (seq (n * m) m) with (seq (n * m + 0) m) by (f_equal; lia).
  symmetry. apply (fmap_add_seq (n * m) 0 m).
Qed.

Lemma map_seq_const {A : Type} (f : nat -> A) (c : A) (a m : nat) :
  Forall (fun j => f j = c) (seq a m) -> map f (seq a m) = replicate m c.
Proof.
  revert a. induction m as [|m IH]; intros a H; [reflexivity|].
  cbn [seq] in H. apply Forall_cons in H as [H1 H2].
  cbn. rewrite H1. f_equal. now apply IH.
Qed.

Section Schedule.
Context {B : Backend}.
Variable config : TrainConfig.
Hypothesis Hchoice : forall k l, l <> [] -> random_choice k l ∈ l.
Hypothesis Hbatch : batch_ok config.
Hypothesis Hfreq : checkpoint_freq config <> 0%Z.

Let EN : nat := (Z.to_nat (update_epochs config) * Z.to_nat (num_minibatches config))%nat.

(** Under these hypotheses the iterations succeed, and every gradient update
    is made at the learning rate that [linear_schedule] gives for the number
    of updates made before it. *)
Lemma iterations_ok (n a : nat) :
  forall st log,
    loop_inv config st ->
    exists st' log',
      foldM (train_iteration config (range (population_size config))) st (seq a n) log
      = (Ok st', log')
      /\ loop_inv config st'
      /\ fst (opt_state (loop_train_state st'))
         = (fst (opt_state (loop_train_state st)) + Z.of_nat (n * EN))%Z
      /\ lrs_of log'
         = lrs_of log
           ++ map (fun j => linear_schedule config
                              (fst (opt_state (loop_train_state st)) + Z.of_nat j))
                  (seq 0 (n * EN))
      /\ (n <> 0%nat -> loop_metric st' <> None).
Proof.
  revert a. induction n as [|n IH]; intros a st log Hinv.
  - exists st, log. cbn. rewrite app_nil_r, Z.add_0_r.
    split; [reflexivity|]. split; [exact Hinv|]. split; [reflexivity|].
    split; [reflexivity | congruence].
  - cbn [seq foldM].
    destruct (train_iteration_outcome config st a log Hinv)
      as [(Hb & _)|[(_ & Hn & _)|[(_ & _ & Hf & _)
         |(_ & _ & _ & st1 & l & tr & rs & m & H & Hinv1 & Hm & _ & _ & Hc & _)]]].
    + tauto.
    + exfalso. destruct Hinv as (_ & _ & Hcurr & _).
      pose proof (Hchoice (snd (random_split (loop_key st)))
                    (range (population_size config))
                    (range_nonempty config ltac:(lia))) as Hin.
      apply elem_of_seq in Hin. lia.
    + tauto.
    + cbv zeta in H. rewrite bind_run, H.
      match goal with
      | |- context [foldM _ st1 _ ?lg] =>
          destruct (IH (S a) st1 lg Hinv1)
            as (st2 & log2 & Hrun & Hinv2 & Hc2 & Hl2 & Hm2)
      end.
      exists st2, log2. split; [exact Hrun|]. split; [exact Hinv2|].
      split; [rewrite Hc2, Hc; fold EN; lia|].
      split.
      * rewrite Hl2, Hc. rewrite !lrs_of_app, lrs_of_update_events, lrs_of_checkpoints.
        fold EN. cbn [lrs_of omap list_omap]. rewrite !app_nil_r, <- app_assoc. f_equal.
        replace (S n * EN)%nat with (EN + n * EN)%nat by lia.
        rewrite seq_app, map_app. f_equal. cbn [Nat.add].
        replace (seq EN (n * EN)) with ((fun x => EN + x)%nat <$> seq 0 (n * EN))
          by (rewrite fmap_add_seq; f_equal; lia).
        rewrite <- list_fmap_compose. apply map_ext. intros j. cbn. f_equal. lia.
      * intros _. destruct n as [|n'].
        -- cbn in Hrun. injection Hrun as <- _. rewrite Hm. discriminate.
        -- apply Hm2. discriminate.
Qed.

(** A run with annealing enabled, a non-empty population and at least one
    scheduled update returns, and its gradient updates are made at the
    learning rates [linear_schedule config 0], [linear_schedule config 1], ...
    in this order. *)
Lemma train_lrs :
  anneal_lr config = true ->
  (0 < population_size config)%Z ->
  (0 < num_updates config)%Z ->
  exists r log,
    train config [] = (Ok r, log)
    /\ lrs_of log
       = map (fun k => linear_schedule config (Z.of_nat k))
             (seq 0 (Z.to_nat (num_updates config) * EN)).
Proof.
  intros Ha Hps Hnu. unfold train. rewrite bind_run.
  destruct (train_init_outcome config [])
    as [(Ha' & _)|[(_ & Hr & _)|(_ & Hr & idx & Hidx
       & [(Hn & _)|(Hn & st & H & Hinv & _ & _ & Hc0 & _)])]].
  - congruence.
  - exfalso. apply (range_nonempty config); [lia | exact Hr].
  - exfalso. pose proof (Hchoice (random_PRNGKey 0) _ Hr) as Hin.
    rewrite <- Hidx in Hin. apply elem_of_seq in Hin. lia.
  - rewrite H.
    destruct (iterations_ok (Z.to_nat (num_updates config)) 0 st
                ([] ++ [EvCheckout idx]) Hinv)
      as (st' & log' & Hrun & _ & _ & Hl & Hm).
    unfold train_loop. rewrite bind_run, Hrun.
    destruct st' as [[[key rs] old] [m|]]; [|exfalso; apply Hm; [lia | reflexivity]].
    exists (rs, m), log'. split; [reflexivity|].
    rewrite Hl, Hc0. reflexivity.
Qed.

Lemma floor_within_iteration (i j : nat) :
  (0 < update_epochs config)%Z -> (0 < num_minibatches config)%Z ->
  (j < EN)%nat ->
  (Z.of_nat (i * EN + j) / (num_minibatches config * update_epochs config))%Z
  = Z.of_nat i.
Proof.
  intros He Hm Hj.
  assert (HEN : Z.of_nat EN = (num_minibatches config * update_epochs config)%Z).
  { unfold EN. rewrite Nat2Z.inj_mul, !Z2Nat.id by lia. lia. }
  rewrite <- HEN. symmetry.
  apply (Z.div_unique _ _ _ (Z.of_nat j)); lia.
Qed.

(** C5, amended. With annealing enabled, the gradient update that follows
    [k] completed minibatch steps is made at the learning rate
    [lr * (1 - (k // (num_minibatches * update_epochs)) / num_updates)]: the rate
    is [lr * (1 - i / num_updates)] for all [update_epochs * num_minibatches]
    updates of iteration [i], and a run makes exactly
    [num_updates * update_epochs * num_minibatches] updates. *)
Theorem learning_rate_per_iteration :
  anneal_lr config = true ->
  (0 < population_size config)%Z ->
  (0 < num_updates config)%Z ->
  exists r log,
    train config [] = (Ok r, log)
    /\ lrs_of log
       = map (fun k =>
                (lr config
                 * (1 - IZR (Z.of_nat k
                             / (num_minibatches config * update_epochs config))
                        / IZR (num_updates config)))%R)
             (seq 0 (Z.to_nat (num_updates config)
                     * (Z.to_nat (update_epochs config)
                        * Z.to_nat (num_minibatches config))))
    /\ ((0 < update_epochs config)%Z -> (0 < num_minibatches config)%Z ->
        lrs_of log
        = flat_map
            (fun i =>
               replicate (Z.to_nat (update_epochs config)
                          * Z.to_nat (num_minibatches config))
                         (lr config
                          * (1 - IZR (Z.of_nat i) / IZR (num_updates config)))%R)
            (seq 0 (Z.to_nat (num_updates config)))).
Proof.
  intros Ha Hps Hnu.
  destruct (train_lrs Ha Hps Hnu) as (r & log & Hrun & Hl).
  exists r, log. split; [exact Hrun|]. split; [exact Hl|].
  intros He Hm. rewrite Hl. fold EN. rewrite seq_mul.
  induction (seq 0 (Z.to_nat (num_updates config))) as [|i l IH]; [reflexivity|].
  cbn [flat_map]. rewrite map_app, IH. f_equal.
  rewrite map_map.
  apply map_seq_const. apply Forall_seq. intros j Hj. unfold linear_schedule.
  rewrite floor_within_iteration by (assumption || lia). reflexivity.
Qed.

End Schedule.

Section ToySchedule.
Import Toy.
#[local] Existing Instance backend.
Local Open Scope R_scope.

Lemma Toy_choice (k : Key) (l : list nat) : l <> [] -> random_choice k l ∈ l.
Proof. destruct l as [|i l]; [congruence|]. intros _. cbn. apply list_elem_of_here. Qed.

(** C5, as stated, fails: in the run of the small instance (two minibatches,
    one epoch, two updates, base rate 1) the second gradient update, made
    after one completed minibatch step out of four planned, still uses the
    rate 1 and not [1 * (1 - 1/4)]. *)
Lemma learning_rate_not_per_minibatch :
  exists r log x,
    train config [] = (Ok r, log)
    /\ lrs_of log !! 1%nat = Some x
    /\ x = 1
    /\ x <> lr config
            * (1 - IZR 1 / IZR (num_updates config * update_epochs config
                                * num_minibatches config)).
Proof.
  destruct (train_lrs config Toy_choice eq_refl ltac:(discriminate)
              eq_refl eq_refl eq_refl)
    as (r & log & Hrun & Hl).
  exists r, log, (linear_schedule config 1).
  split; [exact Hrun|]. split; [rewrite Hl; reflexivity|].
  unfold linear_schedule. cbn [config lr num_updates update_epochs num_minibatches].
  change (1 / (2 * 1))%Z with 0%Z. change (2 * 1 * 2)%Z with 4%Z.
  split; lra.
Qed.

End ToySchedule.

(** ** The theorems at the small instance *)

Section Witnesses.
Import Toy.
#[local] Existing Instance backend.
Local Open Scope R_scope.

Lemma gae_constant_closed_form_witness :
  Forall (constant_step 2 1 1) [constant_transition; constant_transition]
  /\ fst (_calculate_gae config [constant_transition; constant_transition] [1; 1])
       !! 0%nat
     = Some (replicate 2
               (sum_f_R0 (fun k => (gamma config * gae_lambda config) ^ k
                                   * (1 + gamma config * 1 - 1)) 1))
  /\ snd (_calculate_gae config [constant_transition; constant_transition] [1; 1])
       !! 0%nat
     = Some (replicate 2
               (sum_f_R0 (fun k => (gamma config * gae_lambda config) ^ k
                                   * (1 + gamma config * 1 - 1)) 1 + 1)).
Proof.
  assert (H : Forall (constant_step 2 1 1) [constant_transition; constant_transition])
    by (repeat constructor).
  split; [exact H|].
  apply (gae_constant_closed_form config 2 1 1
           [constant_transition; constant_transition] 0 H).
  cbn. lia.
Defined.

Lemma entropy_bounds_witness :
  Forall (fun h => 0 <= h <= ln (INR 6)) (entropy [toy_row]).
Proof.
  apply (entropy_bounds [toy_row] 6).
  constructor; [|constructor].
  split; [reflexivity|].
  split; [unfold toy_row; repeat constructor; lra|].
  unfold toy_row, sum_R. cbn. lra.
Defined.


Lemma population_invariant_witness :
  exists st log,
    train_loop config 2 (0%nat, runner_state0, 0%nat, None) [EvCheckout 0] = (Ok st, log)
    /\ dom (population (loop_train_state st)) = set_seq 0 2
    /\ size (population (loop_train_state st)) = 2%nat
    /\ (curr_agent_idx (loop_train_state st) < 2)%nat
    /\ (curr_agent_idx (loop_train_state st) ∉ other_agent_idcs (loop_train_state st)).
Proof.
  assert (Hinv : loop_inv config (0%nat, runner_state0, 0%nat, None)).
  { split; [|split; [reflexivity | split; [cbn; lia | reflexivity]]].
    vm_compute. reflexivity. }
  destruct (iterations_ok config Toy_choice eq_refl ltac:(discriminate) 2 0 _
              [EvCheckout 0] Hinv)
    as (st & log & Hrun & _).
  exists st, log. split; [exact Hrun|].
  destruct (population_invariant config 2 _ st _ log Toy_train_init Hrun)
    as (H1 & H2 & H3 & H4 & _).
  auto.
Defined.

Lemma batch_size_contract_witness :
  (exists e log,
      program args_mismatch = (Raise e, log)
      /\ Forall (fun ev => is_training ev = false) log
      /\ e = AssertionError)
  /\ length (minibatch_indices config 0%nat 4) = 2%nat
  /\ Forall (fun row => length row = 2%nat /\ row <> [])
            (minibatch_indices config 0%nat 4)
  /\ concat (minibatch_indices config 0%nat 4) ≡ₚ seq 0 4.
Proof.
  split.
  - assert (Hpost : post_init args_mismatch = Ok config_mismatch) by reflexivity.
    assert (Hbad : ~ batch_ok config_mismatch) by (unfold batch_ok; cbn; lia).
    destruct (proj1 (batch_size_contract args_mismatch config_mismatch Hpost) Hbad)
      as (e & log & Hrun & Hlog & He).
    exists e, log. split; [exact Hrun|]. split; [exact Hlog|].
    apply He; [exact Toy_choice | reflexivity | reflexivity | reflexivity].
  - assert (Hok : batch_ok config) by reflexivity.
    destruct (proj2 (batch_size_contract args config Toy_post_init) Hok
                eq_refl eq_refl eq_refl (fun _ n => reflexivity (seq 0 n))
                (0%nat : @Key backend))
      as (_ & H1 & H2 & H3 & _).
    auto.
Defined.

Lemma learning_rate_per_iteration_witness :
  exists r log,
    train config [] = (Ok r, log)
    /\ lrs_of log
       = flat_map (fun i => replicate 2 (1 * (1 - IZR (Z.of_nat i) / IZR 2)))
                  [0; 1]%nat.
Proof.
  destruct (learning_rate_per_iteration config Toy_choice eq_refl
              ltac:(discriminate) eq_refl eq_refl eq_refl)
    as (r & log & Hrun & _ & Hl).
  exists r, log. split; [exact Hrun|].
  apply Hl; reflexivity.
Defined.

End Witnesses.

(* ===================================================================== *)
(** * Part III: further properties of the source *)
(* ===================================================================== *)

(** ** The configuration *)

(** X2. For a constructed configuration the condition asserted in
    [_update_epoch] holds exactly when [num_minibatches] divides
    [2 * num_envs * num_steps]; with a positive [num_minibatches] the samples
    that the floored minibatch size leaves over are fewer than
    [num_minibatches]. *)
Theorem assertion_iff_divides (a : TrainConfigArgs) (config : TrainConfig) :
  post_init a = Ok config ->
  (batch_ok config
   <-> (num_minibatches config | 2 * num_envs config * num_steps config)%Z)
  /\ ((0 < num_minibatches config)%Z ->
      (0 <= num_steps config * num_actors config
            - minibatch_size config * num_minibatches config
       < num_minibatches config)%Z).
Proof.
  intros Hpost.
  destruct (post_init_fields a config Hpost) as (Ha & _ & Hms & _ & _ & Hnm).
  unfold batch_ok. rewrite Hms, Ha.
  set (b := (2 * num_envs config * num_steps config)%Z).
  set (m := num_minibatches config) in *.
  replace (num_steps config * (2 * num_envs config))%Z with b by (unfold b; lia).
  split.
  - rewrite <- (Z.mod_divide b m Hnm). pose proof (Z.div_mod b m Hnm). split; lia.
  - intros Hpos. pose proof (Z.div_mod b m Hnm).
    pose proof (Z.mod_pos_bound b m Hpos). lia.
Qed.

Lemma assertion_iff_divides_witness :
  (batch_ok Toy.config <-> (2 | 2 * 2 * 1)%Z)
  /\ ~ batch_ok Toy.config_mismatch
  /\ (0 <= 1 * 4 - 1 * 3 < 3)%Z.
Proof.
  destruct (assertion_iff_divides Toy.args Toy.config eq_refl) as [H1 _].
  destruct (assertion_iff_divides Toy.args_mismatch Toy.config_mismatch eq_refl)
    as [H2 H3].
  split; [exact H1|]. split; [|exact (H3 eq_refl)].
  intros Hb. apply H2 in Hb. destruct Hb as [q Hq]. cbn in Hq. lia.
Defined.

(** X3. With a non-negative budget and positive sizes, the scheduled updates
    consume at most [total_timesteps] environment transitions, and what is
    left of the budget is less than one more update. *)
Theorem updates_within_budget (a : TrainConfigArgs) (config : TrainConfig) :
  post_init a = Ok config ->
  (0 <= total_timesteps config)%Z ->
  (0 < num_steps config)%Z ->
  (0 < num_envs config)%Z ->
  (0 <= num_updates config)%Z
  /\ (num_updates config * num_steps config * num_envs config
      <= total_timesteps config
      < (num_updates config + 1) * num_steps config * num_envs config)%Z.
Proof.
  intros Hpost Ht Hs He.
  destruct (post_init_fields a config Hpost) as (_ & Hnu & _).
  rewrite Hnu, Z.div_div by lia.
  set (k := (num_steps config * num_envs config)%Z).
  assert (Hk : (0 < k)%Z) by (unfold k; nia).
  pose proof (Z.div_mod (total_timesteps config) k ltac:(lia)).
  pose proof (Z.mod_pos_bound (total_timesteps config) k Hk).
  pose proof (Z.div_pos (total_timesteps config) k Ht Hk).
  split; [assumption|].
  replace (total_timesteps config / k * num_steps config * num_envs config)%Z
    with (k * (total_timesteps config / k))%Z by (unfold k; lia).
  replace ((total_timesteps config / k + 1) * num_steps config * num_envs config)%Z
    with (k * (total_timesteps config / k) + k)%Z by (unfold k; lia).
  lia.
Qed.

Lemma updates_within_budget_witness :
  (0 <= num_updates Toy.config)%Z
  /\ (num_updates Toy.config * 1 * 2 <= 4 < (num_updates Toy.config + 1) * 1 * 2)%Z.
Proof.
  apply (updates_within_budget Toy.args Toy.config eq_refl); cbn; lia.
Defined.

(** ** Batching by agent *)

(** X4. [unbatchify] undoes [batchify] on two rows of [num_envs] entries, and
    [batchify] undoes [unbatchify] on a batch of [2 * num_envs] entries. *)
Theorem batchify_unbatchify {B : Backend} {A : Type} (num_envs : nat) :
  (forall x : PerAgent (list A),
      length (agent_0 x) = num_envs -> length (agent_1 x) = num_envs ->
      unbatchify (batchify x) num_envs = x)
  /\ (forall x : list A,
         length x = (2 * num_envs)%nat ->
         batchify (unbatchify x num_envs) = x).
Proof.
  split.
  - intros [x0 x1] H0 H1. unfold batchify, unbatchify. cbn [agent_0 agent_1] in *.
    f_equal.
    + rewrite take_app_length' by congruence. reflexivity.
    + rewrite drop_app_length' by congruence. apply take_ge. lia.
  - intros x Hx. unfold batchify, unbatchify. cbn [agent_0 agent_1].
    rewrite take_take_drop. apply take_ge. lia.
Qed.

(** ** The other indices *)

(** X5. For a trainee index below [n], [other_indices] over [0 .. n-1] is
    the increasing list of the [n - 1] remaining indices; for an index that is
    not below [n] nothing is removed. *)
Theorem other_indices_explicit {B : Backend} (n idx : nat) :
  ((idx < n)%nat ->
   other_indices (seq 0 n) idx = seq 0 idx ++ seq (S idx) (n - 1 - idx)
   /\ length (other_indices (seq 0 n) idx) = (n - 1)%nat)
  /\ ((n <= idx)%nat -> other_indices (seq 0 n) idx = seq 0 n).
Proof.
  assert (Hkeep : forall a m, (idx < a \/ a + m <= idx)%nat ->
                              other_indices (seq a m) idx = seq a m).
  { intros a m. revert a. induction m as [|m IH]; intros a Hi; [reflexivity|].
    unfold other_indices in *. cbn [seq]. rewrite filter_cons_True by lia.
    f_equal. apply IH. lia. }
  split.
  - intros Hlt.
    assert (E : other_indices (seq 0 n) idx = seq 0 idx ++ seq (S idx) (n - 1 - idx)).
    { replace n with (idx + S (n - 1 - idx))%nat at 1 by lia.
      rewrite seq_app. unfold other_indices. rewrite filter_app.
      fold (other_indices (seq 0 idx) idx). rewrite Hkeep by lia.
      f_equal. cbn [Nat.add seq]. rewrite filter_cons_False by tauto.
      fold (other_indices (seq (S idx) (n - 1 - idx)) idx). apply Hkeep. lia. }
    split; [exact E|]. rewrite E, length_app, !length_seq. lia.
  - intros Hge. apply Hkeep. lia.
Qed.

Lemma other_indices_explicit_witness :
  other_indices (seq 0 4) 1 = [0; 2; 3]%nat
  /\ other_indices (seq 0 4) 7 = [0; 1; 2; 3]%nat.
Proof.
  destruct (@other_indices_explicit Toy.backend 4 1) as [H1 _].
  destruct (@other_indices_explicit Toy.backend 4 7) as [_ H2].
  split; [apply (H1 ltac:(lia)) | apply (H2 ltac:(lia))].
Defined.

(** ** The schedules *)

Section Schedules.
Variable config : TrainConfig.
Local Open Scope R_scope.

Lemma linear_schedule_floor (count : Z) :
  (0 < num_minibatches config)%Z -> (0 < update_epochs config)%Z ->
  (0 < num_updates config)%Z ->
  (0 <= count < num_updates config * update_epochs config * num_minibatches config)%Z ->
  (0 <= count / (num_minibatches config * update_epochs config) <= num_updates config - 1)%Z.
Proof.
  intros Hm He Hu Hc.
  set (k := (num_minibatches config * update_epochs config)%Z).
  assert (Hk : (0 < k)%Z) by (unfold k; nia).
  split; [apply Z.div_pos; lia|].
  assert (count / k < num_updates config)%Z; [|lia].
  apply Z.div_lt_upper_bound; [exact Hk|]. unfold k. nia.
Qed.

(** X6. During a run (optimizer step count below
    [num_updates * update_epochs * num_minibatches], positive sizes, [lr >= 0])
    the learning rate of [linear_schedule] lies between [lr / num_updates] and
    [lr]: it never reaches zero; and the rate never increases with the step
    count. *)
Theorem linear_schedule_range (count count' : Z) :
  (0 < num_minibatches config)%Z -> (0 < update_epochs config)%Z ->
  (0 < num_updates config)%Z ->
  0 <= lr config ->
  (0 <= count < num_updates config * update_epochs config * num_minibatches config)%Z ->
  (count <= count')%Z ->
  lr config / IZR (num_updates config) <= linear_schedule config count <= lr config
  /\ linear_schedule config count' <= linear_schedule config count.
Proof.
  intros Hm He Hu Hlr Hc Hle.
  destruct (linear_schedule_floor count Hm He Hu Hc) as [Hq0 Hq1].
  unfold linear_schedule.
  set (k := (num_minibatches config * update_epochs config)%Z) in *.
  assert (Hk : (0 < k)%Z) by (unfold k; nia).
  assert (HU : 0 < IZR (num_updates config)) by (apply IZR_lt; exact Hu).
  assert (Hq0' : 0 <= IZR (count / k)) by (apply IZR_le; exact Hq0).
  assert (Hq1' : IZR (count / k) <= IZR (num_updates config) - 1).
  { rewrite <- minus_IZR. apply IZR_le. exact Hq1. }
  assert (Hmono : IZR (count / k) <= IZR (count' / k)).
  { apply IZR_le. apply Z.div_le_mono; lia. }
  assert (Hinv : 0 < / IZR (num_updates config)) by (apply Rinv_0_lt_compat; exact HU).
  unfold Rdiv.
  split; [split|].
  - replace (lr config * / IZR (num_updates config))
      with (lr config * (1 - (IZR (num_updates config) - 1) * / IZR (num_updates config)))
      by (field; lra).
    apply Rmult_le_compat_l; [exact Hlr|].
    apply Rplus_le_compat_l, Ropp_le_contravar, Rmult_le_compat_r; lra.
  - rewrite <- (Rmult_1_r (lr config)) at 2.
    apply Rmult_le_compat_l; [exact Hlr|].
    assert (0 <= IZR (count / k) * / IZR (num_updates config))
      by (apply Rmult_le_pos; lra).
    lra.
  - apply Rmult_le_compat_l; [exact Hlr|].
    apply Rplus_le_compat_l, Ropp_le_contravar, Rmult_le_compat_r; lra.
Qed.

(** X7. Whatever the horizon, the reward-shaping weight lies in [[0, 1]],
    never increases with the environment-step count, and is [1] up to
    environment step [0]. *)
Theorem rew_shaping_anneal_range (c c' : Z) :
  0 <= rew_shaping_anneal config c <= 1
  /\ ((c <= c')%Z -> rew_shaping_anneal config c' <= rew_shaping_anneal config c)
  /\ ((c <= 0)%Z -> rew_shaping_anneal config c = 1).
Proof.
  unfold rew_shaping_anneal, optax_linear_schedule.
  destruct (Z.leb_spec (rew_shaping_horizon config) 0) as [Hh|Hh].
  - repeat split; intros; lra.
  - set (h := rew_shaping_horizon config) in *.
    assert (HH : 0 < IZR h) by (apply IZR_lt; exact Hh).
    assert (Hinv : 0 < / IZR h) by (apply Rinv_0_lt_compat; exact HH).
    assert (Hb : forall x, 0 <= IZR (Z.min (Z.max x 0) h) * / IZR h <= 1).
    { intros x. split.
      - apply Rmult_le_pos; [apply IZR_le; lia | lra].
      - apply (Rmult_le_reg_r (IZR h)); [exact HH|].
        rewrite Rmult_assoc, Rinv_l, Rmult_1_r, Rmult_1_l by lra.
        apply IZR_le. lia. }
    unfold Rdiv. split; [pose proof (Hb c); lra|]. split.
    + intros Hle.
      assert (IZR (Z.min (Z.max c 0) h) * / IZR h <= IZR (Z.min (Z.max c' 0) h) * / IZR h).
      { apply Rmult_le_compat_r; [lra|]. apply IZR_le. lia. }
      lra.
    + intros Hc. rewrite Z.max_r, Z.min_l by lia. lra.
Qed.

End Schedules.

(** ** The entropy of the uniform policy *)

Lemma sum_R_replicate (n : nat) (x : R) : sum_R (replicate n x) = (INR n * x)%R.
Proof.
  induction n as [|n IH]; [cbn; lra|].
  cbn [replicate sum_R foldr]. fold (sum_R (replicate n x)). rewrite IH, S_INR. lra.
Qed.

(** X8. On the uniform distribution over [n >= 1] actions [entropy] returns
    [ln n]; for the six actions of the game this is [MAX_ENT]. *)
Theorem entropy_uniform (n k : nat) :
  (0 < n)%nat ->
  entropy (replicate k (replicate n (/ INR n)%R)) = replicate k (ln (INR n))
  /\ (n = 6%nat -> entropy (replicate k (replicate n (/ INR n)%R)) = replicate k MAX_ENT).
Proof.
  intros Hn.
  assert (HN : (0 < INR n)%R) by (apply lt_0_INR; exact Hn).
  assert (E : entropy (replicate k (replicate n (/ INR n)%R)) = replicate k (ln (INR n))).
  { unfold entropy. rewrite map_replicate. f_equal.
    rewrite map_replicate, sum_R_replicate, ln_Rinv by exact HN.
    field. lra. }
  split; [exact E|].
  intros ->. rewrite E, MAX_ENT_ln6. reflexivity.
Qed.

(** ** The advantage recurrence, actor by actor *)

Lemma scan_reverse_app {C X Y : Type} (f : C -> X -> C * Y) (c : C) (xs ys : list X) :
  scan_reverse f c (xs ++ ys)
  = (fst (scan_reverse f (fst (scan_reverse f c ys)) xs),
     snd (scan_reverse f (fst (scan_reverse f c ys)) xs) ++ snd (scan_reverse f c ys)).
Proof.
  induction xs as [|x xs IH].
  - cbn. now destruct (scan_reverse f c ys).
  - cbn [app scan_reverse]. rewrite IH. cbn [fst snd].
    destruct (scan_reverse f (fst (scan_reverse f c ys)) xs) as [c' out]. cbn [fst snd].
    now destruct (f c' x).
Qed.

Lemma scan_reverse_length {C X Y : Type} (f : C -> X -> C * Y) (c : C) (xs : list X) :
  length (snd (scan_reverse f c xs)) = length xs.
Proof.
  induction xs as [|x xs IH]; [reflexivity|].
  cbn [scan_reverse]. destruct (scan_reverse f c xs) as [c' out].
  destruct (f c' x). cbn in *. now rewrite IH.
Qed.

Section GAELocal.
Context {B : Backend}.
Variable config : TrainConfig.
Local Open Scope R_scope.

Lemma get_advantages_local (j : nat) (g1 nv1 g2 nv2 : list R) (t1 t2 : Trans list) :
  same_actor_data j t1 t2 ->
  g1 !! j = g2 !! j -> nv1 !! j = nv2 !! j ->
  snd (_get_advantages config (g1, nv1) t1) !! j
    = snd (_get_advantages config (g2, nv2) t2) !! j
  /\ fst (fst (_get_advantages config (g1, nv1) t1)) !! j
    = fst (fst (_get_advantages config (g2, nv2) t2)) !! j
  /\ snd (fst (_get_advantages config (g1, nv1) t1)) !! j
    = snd (fst (_get_advantages config (g2, nv2) t2)) !! j.
Proof.
  intros (Hd & Hv & Hr) Hg Hnv. unfold _get_advantages. cbn [fst snd].
  unfold vsub, vadd, vmul, vscale, one_minus.
  rewrite !lookup_zip_with, !list_lookup_fmap, Hd, Hv, Hr, Hg, Hnv. auto.
Qed.

Lemma get_advantages_done (j : nat) (g nv : list R) (tr : Trans list) (r v x y : R) :
  done tr !! j = Some true -> reward tr !! j = Some r -> value tr !! j = Some v ->
  g !! j = Some x -> nv !! j = Some y ->
  snd (_get_advantages config (g, nv) tr) !! j = Some (r - v)
  /\ fst (fst (_get_advantages config (g, nv) tr)) !! j = Some (r - v)
  /\ snd (fst (_get_advantages config (g, nv) tr)) = value tr.
Proof.
  intros Hd Hr Hv Hg Hnv. unfold _get_advantages. cbn [fst snd].
  unfold vsub, vadd, vmul, vscale, one_minus.
  rewrite !lookup_zip_with, !list_lookup_fmap, Hd, Hv, Hr, Hg, Hnv. cbn.
  repeat split; f_equal; ring.
Qed.

Lemma get_advantages_shape (n : nat) (g nv : list R) (tr : Trans list) :
  step_shape n tr -> length g = n -> length nv = n ->
  length (snd (_get_advantages config (g, nv) tr)) = n
  /\ length (fst (fst (_get_advantages config (g, nv) tr))) = n
  /\ length (snd (fst (_get_advantages config (g, nv) tr))) = n.
Proof.
  intros (Hd & Hv & Hr) Hg Hnv. unfold _get_advantages. cbn [fst snd].
  unfold vsub, vadd, vmul, vscale, one_minus.
  repeat rewrite ?length_zip_with, ?length_map, ?length_fmap.
  rewrite Hd, Hv, Hr, Hg, Hnv. lia.
Qed.

Lemma scan_gae_shape (n : nat) (traj : list (Trans list)) (g nv : list R) :
  Forall (step_shape n) traj -> length g = n -> length nv = n ->
  length (fst (fst (scan_reverse (_get_advantages config) (g, nv) traj))) = n
  /\ length (snd (fst (scan_reverse (_get_advantages config) (g, nv) traj))) = n
  /\ Forall (fun row => length row = n)
            (snd (scan_reverse (_get_advantages config) (g, nv) traj)).
Proof.
  intros H Hg Hnv. induction H as [|tr traj Htr _ IH].
  - cbn. auto.
  - cbn [scan_reverse].
    destruct (scan_reverse (_get_advantages config) (g, nv) traj) as [[g' nv'] out].
    cbn [fst snd] in IH. destruct IH as (Hg' & Hnv' & Hout).
    destruct (get_advantages_shape n g' nv' tr Htr Hg' Hnv') as (H1 & H2 & H3).
    destruct (_get_advantages config (g', nv') tr) as [[g'' nv''] y].
    cbn [fst snd] in *. auto.
Qed.

Lemma scan_gae_local (j : nat) (traj1 traj2 : list (Trans list)) (g1 nv1 g2 nv2 : list R) :
  Forall2 (same_actor_data j) traj1 traj2 ->
  g1 !! j = g2 !! j -> nv1 !! j = nv2 !! j ->
  fst (fst (scan_reverse (_get_advantages config) (g1, nv1) traj1)) !! j
    = fst (fst (scan_reverse (_get_advantages config) (g2, nv2) traj2)) !! j
  /\ snd (fst (scan_reverse (_get_advantages config) (g1, nv1) traj1)) !! j
    = snd (fst (scan_reverse (_get_advantages config) (g2, nv2) traj2)) !! j
  /\ Forall2 (fun row1 row2 : list R => row1 !! j = row2 !! j)
             (snd (scan_reverse (_get_advantages config) (g1, nv1) traj1))
             (snd (scan_reverse (_get_advantages config) (g2, nv2) traj2)).
Proof.
  intros H Hg Hnv. induction H as [|t1 t2 l1 l2 Ht _ IH].
  - cbn. auto.
  - cbn [scan_reverse].
    destruct (scan_reverse (_get_advantages config) (g1, nv1) l1) as [[g1' nv1'] out1].
    destruct (scan_reverse (_get_advantages config) (g2, nv2) l2) as [[g2' nv2'] out2].
    cbn [fst snd] in IH. destruct IH as (Hg' & Hnv' & Hout).
    destruct (get_advantages_local j g1' nv1' g2' nv2' t1 t2 Ht Hg' Hnv') as (H1 & H2 & H3).
    destruct (_get_advantages config (g1', nv1') t1) as [[g1'' nv1''] y1].
    destruct (_get_advantages config (g2', nv2') t2) as [[g2'' nv2''] y2].
    cbn [fst snd] in *. auto.
Qed.

Lemma same_actor_data_refl (j : nat) (traj : list (Trans list)) :
  Forall2 (same_actor_data j) traj traj.
Proof. induction traj; constructor; [repeat split | assumption]. Qed.

Lemma calculate_gae_scan (traj : list (Trans list)) (last_val : list R) :
  fst (_calculate_gae config traj last_val)
  = snd (scan_reverse (_get_advantages config)
                      (replicate (length last_val) 0, last_val) traj)
  /\ snd (_calculate_gae config traj last_val)
     = zip_with vadd
         (snd (scan_reverse (_get_advantages config)
                            (replicate (length last_val) 0, last_val) traj))
         (map value traj).
Proof.
  unfold _calculate_gae. now destruct (scan_reverse _ _ traj) as [c out].
Qed.

Lemma replicate_lookup_same {A : Type} (l1 l2 : list A) (j : nat) (x : R) :
  l1 !! j = l2 !! j ->
  replicate (length l1) x !! j = replicate (length l2) x !! j.
Proof.
  intros H. destruct (l1 !! j) as [a|] eqn:E1.
  - rewrite !lookup_replicate_2; [reflexivity | |].
    + apply lookup_lt_is_Some. rewrite <- H. eauto.
    + apply lookup_lt_is_Some. eauto.
  - symmetry in H.
    apply lookup_ge_None in E1, H.
    transitivity (@None R); [|symmetry]; apply lookup_replicate_None; assumption.
Qed.

(** X9. The advantage and the value target of an actor depend only on that
    actor's own [done], [value] and [reward] entries and bootstrap value: two
    trajectory batches that agree on actor [j] give it the same advantages and
    targets, whatever the other actors' data. *)
Theorem advantages_per_actor (traj1 traj2 : list (Trans list)) (last_val1 last_val2 : list R)
    (j t : nat) :
  Forall2 (same_actor_data j) traj1 traj2 ->
  last_val1 !! j = last_val2 !! j ->
  advantage_at config traj1 last_val1 t j = advantage_at config traj2 last_val2 t j
  /\ target_at config traj1 last_val1 t j = target_at config traj2 last_val2 t j.
Proof.
  intros H Hlv. unfold advantage_at, target_at.
  destruct (calculate_gae_scan traj1 last_val1) as [-> ->].
  destruct (calculate_gae_scan traj2 last_val2) as [-> ->].
  destruct (scan_gae_local j traj1 traj2 _ last_val1 _ last_val2 H
              (replicate_lookup_same last_val1 last_val2 j 0 Hlv) Hlv)
    as (_ & _ & Hout).
  set (out1 := snd (scan_reverse _ _ traj1)) in *.
  set (out2 := snd (scan_reverse _ _ traj2)) in *.
  assert (Hrow : out1 !! t ≫= (fun row => row !! j) = out2 !! t ≫= (fun row => row !! j)).
  { destruct (out1 !! t) as [row1|] eqn:E1.
    - destruct (Forall2_lookup_l _ _ _ _ _ Hout E1) as (row2 & E2 & Hrow).
      rewrite E2. exact Hrow.
    - apply lookup_ge_None in E1. rewrite (Forall2_length _ _ _ Hout) in E1.
      apply lookup_ge_None in E1. now rewrite E1. }
  split; [exact Hrow|].
  rewrite !lookup_zip_with, !list_lookup_fmap.
  destruct (out1 !! t) as [row1|] eqn:E1.
  - destruct (Forall2_lookup_l _ _ _ _ _ Hout E1) as (row2 & E2 & Hr).
    rewrite E2. cbn.
    destruct (traj1 !! t) as [t1|] eqn:T1.
    + destruct (Forall2_lookup_l _ _ _ _ _ H T1) as (t2 & T2 & (_ & Hv & _)).
      rewrite T2. cbn. unfold vadd. rewrite !lookup_zip_with, Hr, Hv. reflexivity.
    + apply lookup_ge_None in T1. rewrite (Forall2_length _ _ _ H) in T1.
      apply lookup_ge_None in T1. now rewrite T1.
  - apply lookup_ge_None in E1. rewrite (Forall2_length _ _ _ Hout) in E1.
    apply lookup_ge_None in E1. now rewrite E1.
Qed.

(** X10. An episode end cuts the recurrence: if [done] is set for actor [j]
    at a timestep, its advantage there is [reward - value], and its advantages
    at that and all earlier timesteps do not depend on the timesteps that
    follow or on the bootstrap value. *)
Theorem advantage_cut_at_done (n : nat) (pre post post' : list (Trans list))
    (tr : Trans list) (last_val last_val' : list R) (j t : nat) (r v : R) :
  Forall (step_shape n) post -> length last_val = n ->
  Forall (step_shape n) post' -> length last_val' = n ->
  step_shape n tr ->
  done tr !! j = Some true -> reward tr !! j = Some r -> value tr !! j = Some v ->
  (t <= length pre)%nat ->
  advantage_at config (pre ++ tr :: post) last_val (length pre) j = Some (r - v)
  /\ advantage_at config (pre ++ tr :: post') last_val' t j
     = advantage_at config (pre ++ tr :: post) last_val t j.
Proof.
  intros Hpost Hlv Hpost' Hlv' Htr Hd Hr Hv Ht.
  assert (Hj : (j < n)%nat).
  { destruct Htr as (Hlen & _). rewrite <- Hlen. apply lookup_lt_is_Some. eauto. }
  assert (Hcut : forall po lv, Forall (step_shape n) po -> length lv = n ->
            let c := fst (scan_reverse (_get_advantages config)
                            (replicate (length lv) 0, lv) (tr :: po)) in
            fst c !! j = Some (r - v) /\ snd c = value tr
            /\ snd (scan_reverse (_get_advantages config)
                      (replicate (length lv) 0, lv) (tr :: po)) !! 0%nat
                 ≫= (fun row => row !! j) = Some (r - v)).
  { intros po lv Hpo Hl. cbn [scan_reverse].
    destruct (scan_gae_shape n po (replicate (length lv) 0) lv Hpo
                ltac:(now rewrite length_replicate) Hl) as (Hg & Hnv & _).
    destruct (scan_reverse (_get_advantages config) _ po) as [[g nv] out].
    cbn [fst snd] in Hg, Hnv.
    destruct (lookup_lt_is_Some_2 g j ltac:(lia)) as [x Hx].
    destruct (lookup_lt_is_Some_2 nv j ltac:(lia)) as [y Hy].
    destruct (get_advantages_done j g nv tr r v x y Hd Hr Hv Hx Hy) as (H1 & H2 & H3).
    destruct (_get_advantages config (g, nv) tr) as [[g' nv'] row].
    cbn [fst snd] in *. auto. }
  assert (Hat : forall po lv u,
            advantage_at config (pre ++ tr :: po) lv u j
            = (snd (scan_reverse (_get_advantages config)
                      (fst (scan_reverse (_get_advantages config)
                              (replicate (length lv) 0, lv) (tr :: po))) pre)
               ++ snd (scan_reverse (_get_advantages config)
                         (replicate (length lv) 0, lv) (tr :: po))) !! u
              ≫= (fun row => row !! j)).
  { intros po lv u. unfold advantage_at.
    destruct (calculate_gae_scan (pre ++ tr :: po) lv) as [-> _].
    rewrite scan_reverse_app. reflexivity. }
  destruct (Hcut post last_val Hpost Hlv) as (Hc1 & Hc2 & Hc3).
  destruct (Hcut post' last_val' Hpost' Hlv') as (Hc1' & Hc2' & Hc3').
  assert (Hhere : forall po lv,
            snd (scan_reverse (_get_advantages config)
                   (replicate (length lv) 0, lv) (tr :: po)) !! 0%nat
              ≫= (fun row => row !! j) = Some (r - v) ->
            advantage_at config (pre ++ tr :: po) lv (length pre) j = Some (r - v)).
  { intros po lv H. rewrite Hat, lookup_app_r by (rewrite scan_reverse_length; lia).
    rewrite scan_reverse_length, Nat.sub_diag. exact H. }
  split; [apply Hhere; exact Hc3|].
  destruct (decide (t = length pre)) as [->|Hne].
  - rewrite !Hhere by assumption. reflexivity.
  - rewrite !Hat, !lookup_app_l by (rewrite scan_reverse_length; lia).
    set (c := fst (scan_reverse _ (replicate (length last_val) 0, last_val) (tr :: post))) in *.
    set (c' := fst (scan_reverse _ (replicate (length last_val') 0, last_val')
                      (tr :: post'))) in *.
    destruct c as [g nv], c' as [g' nv']. cbn [fst snd] in *.
    destruct (scan_gae_local j pre pre g' nv' g nv (same_actor_data_refl j pre)
                ltac:(congruence) ltac:(congruence)) as (_ & _ & Hout).
    destruct (lookup_lt_is_Some_2
                (snd (scan_reverse (_get_advantages config) (g', nv') pre)) t
                ltac:(rewrite scan_reverse_length; lia)) as [row' E'].
    destruct (Forall2_lookup_l _ _ _ _ _ Hout E') as (row & E & Hrow).
    rewrite E', E. exact Hrow.
Qed.

End GAELocal.

(** ** The loss *)

Section Loss.
Context {B : Backend}.
Variable config : TrainConfig.
Local Open Scope R_scope.

Lemma sum_R_app (l1 l2 : list R) : sum_R (l1 ++ l2) = sum_R l1 + sum_R l2.
Proof.
  unfold sum_R. induction l1 as [|x l1 IH]; cbn [app foldr]; [lra|].
  rewrite IH. lra.
Qed.

Lemma sum_R_Forall2_le (l1 l2 : list R) :
  Forall2 Rle l1 l2 -> sum_R l1 <= sum_R l2.
Proof.
  unfold sum_R. induction 1 as [|x y l1 l2 Hxy _ IH]; cbn [foldr]; lra.
Qed.

Lemma inv_INR_nonneg (n : nat) : 0 <= / INR n.
Proof.
  destruct n as [|n].
  - cbn. rewrite Rinv_0. lra.
  - left. apply Rinv_0_lt_compat, lt_0_INR. lia.
Qed.

Lemma mean_R_le (l1 l2 : list R) : Forall2 Rle l1 l2 -> mean_R l1 <= mean_R l2.
Proof.
  intros H. unfold mean_R, Rdiv. rewrite (Forall2_length _ _ _ H).
  apply Rmult_le_compat_r; [apply inv_INR_nonneg | now apply sum_R_Forall2_le].
Qed.

Lemma mean_R_nonneg (l : list R) : Forall (fun x => 0 <= x) l -> 0 <= mean_R l.
Proof.
  intros H. unfold mean_R, Rdiv.
  apply Rmult_le_pos; [now apply sum_R_nonneg | apply inv_INR_nonneg].
Qed.

Lemma sum_R_opp (l : list R) : sum_R (map Ropp l) = - sum_R l.
Proof.
  unfold sum_R. induction l as [|x l IH]; cbn [map foldr]; [lra|].
  rewrite IH. lra.
Qed.

Lemma mean_R_opp (l : list R) : mean_R (map Ropp l) = - mean_R l.
Proof. unfold mean_R. rewrite sum_R_opp, length_map. unfold Rdiv. ring. Qed.

Lemma le_zip_with_Rmax (l1 l2 : list R) :
  length l1 = length l2 -> Forall2 Rle l1 (zip_with Rmax l1 l2).
Proof.
  revert l2. induction l1 as [|x l1 IH]; intros [|y l2] Hl; try discriminate.
  - constructor.
  - cbn. constructor; [apply Rmax_l | apply IH; now injection Hl].
Qed.

Lemma zip_with_Rmin_le (l1 l2 : list R) :
  length l1 = length l2 -> Forall2 Rle (zip_with Rmin l1 l2) l1.
Proof.
  revert l2. induction l1 as [|x l1 IH]; intros [|y l2] Hl; try discriminate.
  - constructor.
  - cbn. constructor; [apply Rmin_l | apply IH; now injection Hl].
Qed.

Lemma Forall2_opp (l1 l2 : list R) :
  Forall2 Rle l1 l2 -> Forall2 Rle (map Ropp l2) (map Ropp l1).
Proof. induction 1; cbn; constructor; [lra | assumption]. Qed.

Lemma loss_fn_unfold (params : Params) (traj_batch : Trans list) (gae targets : list R) :
  let value_new := snd (network_apply params (obs traj_batch)) in
  let value_pred_clipped :=
    vadd (value traj_batch)
         (map (jnp_clip (- clip_eps config) (clip_eps config))
              (vsub value_new (value traj_batch))) in
  let ratio := loss_ratio params traj_batch in
  loss_value config params (traj_batch, gae, targets)
  = 1 / 2 * mean_R (zip_with Rmax
                      (map (fun x => x * x) (vsub value_new targets))
                      (map (fun x => x * x) (vsub value_pred_clipped targets)))
  /\ loss_actor config params (traj_batch, gae, targets)
     = mean_R (map Ropp
                 (zip_with Rmin
                    (vmul ratio (normalised gae))
                    (vmul (map (jnp_clip (1 - clip_eps config) (1 + clip_eps config)) ratio)
                          (normalised gae))))
  /\ loss_total config params (traj_batch, gae, targets)
     = loss_actor config params (traj_batch, gae, targets)
       + vf_coef config * loss_value config params (traj_batch, gae, targets)
       - ent_coef config * loss_entropy config params (traj_batch, gae, targets).
Proof. repeat split. Qed.

(** X11. Clipping makes the loss pessimistic: the value loss is never below
    half the mean squared error of the new value estimates (which is not
    negative), and the actor loss is never below the negated mean of the
    unclipped surrogate [ratio * normalised advantage]. *)
Theorem loss_clipping_pessimistic (params : Params) (traj_batch : Trans list)
    (gae targets : list R) :
  length (value traj_batch) = length (obs traj_batch) ->
  length targets = length (obs traj_batch) ->
  0 <= 1 / 2 * mean_R (map (fun x => x * x)
                           (vsub (snd (network_apply params (obs traj_batch))) targets))
    <= loss_value config params (traj_batch, gae, targets)
  /\ - mean_R (vmul (loss_ratio params traj_batch) (normalised gae))
     <= loss_actor config params (traj_batch, gae, targets).
Proof.
  intros Hv Ht.
  destruct (loss_fn_unfold params traj_batch gae targets) as (-> & -> & _).
  split; [split|].
  - apply Rmult_le_pos; [lra|]. apply mean_R_nonneg.
    apply Forall_forall. intros x Hx. apply list_elem_of_fmap in Hx as (y & -> & _). nra.
  - apply Rmult_le_compat_l; [lra|]. apply mean_R_le, le_zip_with_Rmax.
    unfold vsub, vadd, network_apply. cbn [snd].
    repeat rewrite ?length_map, ?length_fmap, ?length_zip_with. lia.
  - rewrite <- mean_R_opp. apply mean_R_le, Forall2_opp, zip_with_Rmin_le.
    unfold vmul. repeat rewrite ?length_map, ?length_fmap, ?length_zip_with. lia.
Qed.

Lemma zip_with_minus_diag (l : list R) : zip_with Rminus l l = replicate (length l) 0.
Proof. induction l as [|x l IH]; [reflexivity|]. cbn. rewrite IH. f_equal. lra. Qed.

Lemma vmul_ones (n : nat) (l : list R) :
  length l = n -> vmul (replicate n 1) l = l.
Proof.
  revert l. induction n as [|n IH]; intros [|x l] Hl; try discriminate; [reflexivity|].
  cbn. unfold vmul in IH. rewrite IH by (now injection Hl). f_equal. lra.
Qed.

Lemma zip_with_Rmin_diag (l : list R) : zip_with Rmin l l = l.
Proof.
  induction l as [|x l IH]; [reflexivity|]. cbn. rewrite IH. f_equal.
  apply Rmin_left. lra.
Qed.

Lemma sum_R_normalised (gae : list R) : sum_R (normalised gae) = 0.
Proof.
  unfold normalised.
  assert (E : forall (m s : R) (l : list R),
            sum_R (map (fun g => (g - m) / s) l) = (sum_R l - INR (length l) * m) / s).
  { intros m s l. unfold sum_R.
    induction l as [|x l IH]; [cbn; unfold Rdiv; ring|].
    cbn [map foldr length]. rewrite IH, S_INR. unfold Rdiv. ring. }
  rewrite E. unfold mean_R.
  destruct gae as [|x l]; [cbn; unfold Rdiv; ring|].
  assert (INR (length (x :: l)) <> 0) by (apply not_0_INR; discriminate).
  unfold Rdiv. replace (INR (length (x :: l)) * (sum_R (x :: l) * / INR (length (x :: l))))
    with (sum_R (x :: l)) by (field; assumption).
  ring.
Qed.

(** X12. When the network gives the recorded actions exactly the recorded
    log-probabilities (and [clip_eps >= 0]), every probability ratio is [1] and,
    the advantages being normalised to mean zero, the actor loss is [0]: the
    total loss is [vf_coef * value_loss - ent_coef * entropy]. *)
Theorem loss_unchanged_policy (params : Params) (traj_batch : Trans list)
    (gae targets : list R) :
  pi_log_prob (fst (network_apply params (obs traj_batch))) (action traj_batch)
  = log_prob traj_batch ->
  0 <= clip_eps config ->
  length gae = length (log_prob traj_batch) ->
  loss_ratio params traj_batch = replicate (length gae) 1
  /\ loss_actor config params (traj_batch, gae, targets) = 0
  /\ loss_total config params (traj_batch, gae, targets)
     = vf_coef config * loss_value config params (traj_batch, gae, targets)
       - ent_coef config * loss_entropy config params (traj_batch, gae, targets).
Proof.
  intros Hlp Heps Hlen.
  assert (Hratio : loss_ratio params traj_batch = replicate (length gae) 1).
  { unfold loss_ratio, vsub. rewrite Hlp, zip_with_minus_diag, map_replicate, exp_0.
    now rewrite Hlen. }
  assert (Hact : loss_actor config params (traj_batch, gae, targets) = 0).
  { destruct (loss_fn_unfold params traj_batch gae targets) as (_ & -> & _).
    rewrite Hratio, map_replicate.
    assert (Hclip : jnp_clip (1 - clip_eps config) (1 + clip_eps config) 1 = 1).
    { unfold jnp_clip. rewrite Rmax_left by lra. apply Rmin_left. lra. }
    rewrite Hclip, vmul_ones by (unfold normalised; now rewrite length_map).
    rewrite zip_with_Rmin_diag, mean_R_opp. unfold mean_R.
    rewrite sum_R_normalised. unfold Rdiv. ring. }
  split; [exact Hratio|]. split; [exact Hact|].
  destruct (loss_fn_unfold params traj_batch gae targets) as (_ & _ & ->).
  rewrite Hact. ring.
Qed.

End Loss.

(** ** The evaluation rollout *)

Lemma while_loop_ends {C : Type} (cond : C -> bool) (body : C -> C) (k fuel : nat) (c : C) :
  (forall j, (j < k)%nat -> cond (Nat.iter j body c) = true) ->
  cond (Nat.iter k body c) = false ->
  while_loop cond body fuel c = if (k <=? fuel)%nat then Some (Nat.iter k body c) else None.
Proof.
  revert fuel c. induction k as [|k IH]; intros fuel c Hrun Hend.
  - cbn in Hend. destruct fuel; cbn; now rewrite Hend.
  - pose proof (Hrun 0%nat ltac:(lia)) as H0. cbn in H0.
    destruct fuel as [|fuel]; cbn [while_loop]; rewrite H0; [reflexivity|].
    rewrite IH.
    + rewrite <- Nat.iter_succ_r. reflexivity.
    + intros j Hj. rewrite <- Nat.iter_succ_r. apply Hrun. lia.
    + rewrite <- Nat.iter_succ_r. exact Hend.
Qed.

Lemma while_loop_runs {C : Type} (cond : C -> bool) (body : C -> C) (fuel : nat) (c : C) :
  (forall j, cond (Nat.iter j body c) = true) ->
  while_loop cond body fuel c = None.
Proof.
  revert c. induction fuel as [|fuel IH]; intros c Hrun;
    pose proof (Hrun 0%nat) as H0; cbn in H0; cbn [while_loop]; rewrite H0; [reflexivity|].
  apply IH. intros j. rewrite <- Nat.iter_succ_r. apply Hrun.
Qed.

Section RolloutProps.
Context {B : Backend} {E : Evaluator B}.
Variables (rng : Key) (params : Params).

Lemma cond_fn_done (carry : RolloutCarry) : _cond_fn carry = negb (carry_done carry).
Proof. now destruct carry as [[[[k s] st] o] d]. Qed.

Lemma body_fn_stats (carry : RolloutCarry) :
  carry_stats (_body_fn params carry)
  = {| stats_reward := (stats_reward (carry_stats carry) + step_reward params carry)%R;
       stats_length := (stats_length (carry_stats carry) + 1)%Z |}.
Proof.
  destruct carry as [[[[k s] st] o] d]. unfold _body_fn, step_reward.
  destruct (rollout_env_step params (k, s, st, o, d)) as [k' [[[o' s'] r] d']].
  reflexivity.
Qed.

Lemma rollout_carry_stats (k : nat) :
  stats_reward (carry_stats (rollout_carry rng params k))
  = sum_R (map (fun j => step_reward params (rollout_carry rng params j)) (seq 0 k))
  /\ stats_length (carry_stats (rollout_carry rng params k)) = Z.of_nat k.
Proof.
  induction k as [|k [IHr IHl]].
  - unfold rollout_carry, rollout_init. cbn [Nat.iter].
    destruct (random_split rng) as [key key_r]. destruct (raw_reset key_r) as [o s].
    split; reflexivity.
  - change (rollout_carry rng params (S k))
      with (_body_fn params (rollout_carry rng params k)).
    rewrite body_fn_stats.
    cbn [stats_reward stats_length]. rewrite IHr, IHl, seq_S, map_app, sum_R_app.
    unfold sum_R. cbn [map foldr Nat.add]. split; [lra | lia].
Qed.

Lemma rollout_init_not_done : carry_done (rollout_init rng) = false.
Proof.
  unfold rollout_init. destruct (random_split rng) as [key key_r].
  now destruct (raw_reset key_r).
Qed.

(** X13. If the environment first reports [done["__all__"]] in the [k]-th
    turn of the loop, [rollout] returns the episode length [k] (at least one)
    and the sum of the rewards of agent_0 alone over these [k] steps; a loop cut
    off before the [k]-th turn has not ended. *)
Theorem rollout_returns (k fuel : nat) :
  carry_done (rollout_carry rng params k) = true ->
  (forall j, (j < k)%nat -> carry_done (rollout_carry rng params j) = false) ->
  (1 <= k)%nat
  /\ rollout rng params fuel
     = if (k <=? fuel)%nat
       then Some (sum_R (map (fun j => step_reward params (rollout_carry rng params j))
                             (seq 0 k)),
                  Z.of_nat k)
       else None.
Proof.
  intros Hend Hrun. split.
  - destruct k; [|lia]. unfold rollout_carry in Hend. cbn in Hend.
    rewrite rollout_init_not_done in Hend. discriminate.
  - unfold rollout.
    rewrite (while_loop_ends _cond_fn (_body_fn params) k fuel (rollout_init rng)).
    + destruct (k <=? fuel)%nat; [|reflexivity].
      destruct (rollout_carry_stats k) as [Hr Hl]. unfold rollout_carry in Hr, Hl.
      destruct (Nat.iter k (_body_fn params) (rollout_init rng)) as [[[[k' s] st] o] d].
      cbn [carry_stats] in Hr, Hl. now rewrite Hr, Hl.
    + intros j Hj. rewrite cond_fn_done. fold (rollout_carry rng params j).
      now rewrite (Hrun j Hj).
    + rewrite cond_fn_done. fold (rollout_carry rng params k). now rewrite Hend.
Qed.

(** X14. If the environment never reports [done["__all__"]], the loop of
    [rollout] has not ended after any number of turns: [rollout] does not
    return. *)
Theorem rollout_never_done (fuel : nat) :
  (forall j, carry_done (rollout_carry rng params j) = false) ->
  rollout rng params fuel = None.
Proof.
  intros Hrun. unfold rollout. rewrite while_loop_runs; [reflexivity|].
  intros j. rewrite cond_fn_done. fold (rollout_carry rng params j). now rewrite Hrun.
Qed.

End RolloutProps.

(** ** Environment steps and checkpoints in the log *)

Lemma env_steps_app (l1 l2 : list Event) :
  env_steps (l1 ++ l2) = (env_steps l1 + env_steps l2)%nat.
Proof. unfold env_steps. now rewrite omap_app, length_app. Qed.

Lemma env_steps_replicate (n : nat) : env_steps (replicate n EvEnvStep) = n.
Proof. unfold env_steps. induction n as [|n IH]; [reflexivity|]. cbn. now f_equal. Qed.

Lemma env_steps_grad_events config c n : env_steps (grad_events config c n) = 0%nat.
Proof. unfold env_steps, grad_events. induction (seq 0 n); [reflexivity | assumption]. Qed.

Lemma env_steps_update_events config c :
  env_steps (update_events config c) = Z.to_nat (num_steps config).
Proof.
  unfold update_events.
  rewrite env_steps_app, env_steps_replicate, env_steps_grad_events. lia.
Qed.

Lemma env_steps_checkpoints i (l : list nat) : env_steps (map (EvCheckpoint i) l) = 0%nat.
Proof. unfold env_steps. induction l; [reflexivity | assumption]. Qed.

Lemma checkpoints_of_app (l1 l2 : list Event) :
  checkpoints_of (l1 ++ l2) = checkpoints_of l1 ++ checkpoints_of l2.
Proof. apply omap_app. Qed.

Lemma checkpoints_of_update_events config c : checkpoints_of (update_events config c) = [].
Proof.
  unfold update_events, grad_events. rewrite checkpoints_of_app.
  assert (E1 : forall n, checkpoints_of (replicate n EvEnvStep) = [])
    by (induction n; [reflexivity | assumption]).
  rewrite E1. cbn [app]. induction (seq 0 _); [reflexivity | assumption].
Qed.

Lemma checkpoints_of_checkpoints i (l : list nat) :
  checkpoints_of (map (EvCheckpoint i) l) = map (pair i) l.
Proof. induction l as [|p l IH]; [reflexivity|]. cbn. f_equal. exact IH. Qed.

Section Run.
Context {B : Backend}.
Variable config : TrainConfig.

Lemma checkpoint_run (ts : PopulationTrainState) (i : nat) log :
  pop_ok config (population ts) ->
  checkpoint_freq config <> 0%Z ->
  checkpoint config ts i log
  = (Ok tt, log ++ map (EvCheckpoint i)
                       (if checkpoint_due config i
                        then range (population_size config) else [])).
Proof.
  intros Hok Hf. unfold checkpoint, checkpoint_due.
  destruct (Z.eqb_spec (checkpoint_freq config) 0) as [E|_]; [contradiction|].
  destruct (_ && _).
  - apply checkpoint_fold. exact Hok.
  - cbn. now rewrite app_nil_r.
Qed.

(** A successful iteration, with the events it logs. *)
Lemma train_iteration_run (st : LoopState) (i : nat) log :
  loop_inv config st ->
  batch_ok config ->
  checkpoint_freq config <> 0%Z ->
  (random_choice (snd (random_split (loop_key st))) (range (population_size config))
   < Z.to_nat (population_size config))%nat ->
  exists st',
    train_iteration config (range (population_size config)) st i log
    = (Ok st',
       log ++ update_events config (fst (opt_state (loop_train_state st)))
           ++ [EvCheckout (random_choice (snd (random_split (loop_key st)))
                                         (range (population_size config)))]
           ++ map (EvCheckpoint i)
                  (if checkpoint_due config i then range (population_size config) else []))
    /\ loop_update_step st' = (loop_update_step st + 1)%Z.
Proof.
  intros Hinv Hb Hf.
  pose proof (loop_inv_pop_ok config st Hinv) as Hok.
  destruct Hinv as (Hdom & Hold & Hcurr & Hothers).
  destruct st as [[[key [[[[ts0 es] lo] us] rng]] old] m].
  cbn [loop_train_state loop_key loop_old_param_idx loop_update_step] in *.
  unfold train_iteration.
  destruct (random_split key) as [key1 key2] eqn:Hkey. cbn [snd fst].
  set (new := random_choice key2 (range (population_size config))).
  intros Hnew.
  destruct (update_step_ok config ts0 es lo us rng log Hok Hb)
    as (ts1 & es1 & lo1 & rng1 & metric & Hrun & (Hp1 & Hc1 & Ho1) & Hcount).
  rewrite (bind_ok _ _ _ _ _ (jit_ok _ _ _ _ Hrun)). cbn beta iota.
  assert (Hne : range (population_size config) <> []) by (apply range_nonempty; lia).
  rewrite (bind_ok _ _ _ _ _ (jax_random_choice_ok key2 _ _ Hne)). fold new.
  destruct (proj2 (lookup_in_dom config (population ts1) new
                     ltac:(now rewrite Hp1)) Hnew) as [p Hp].
  rewrite (bind_ok _ _ _ _ _ (getitem_ok _ _ _ _ Hp)).
  rewrite bind_run. cbn [emit].
  set (ts2 := {| step := step ts1; params := p; opt_state := opt_state ts1;
                 population := <[old := params ts1]> (population ts1);
                 other_agent_idcs := other_indices (range (population_size config)) new;
                 curr_agent_idx := new |}).
  assert (Hdom2 : dom (population ts2) = set_seq 0 (Z.to_nat (population_size config))).
  { cbn [ts2 population]. rewrite dom_insert_L, Hp1, Hdom.
    apply subseteq_union_1_L, singleton_subseteq_l, elem_of_set_seq. lia. }
  rewrite (bind_ok _ _ _ _ _
             (checkpoint_run ts2 i _ (dom_pop_ok config _ Hdom2) Hf)).
  cbn [mret M_ret]. eexists. split.
  - rewrite <- !app_assoc. reflexivity.
  - reflexivity.
Qed.

Lemma train_init_update_step log st log' :
  train_init config log = (Ok st, log') -> loop_update_step st = 0%Z.
Proof.
  unfold train_init.
  destruct (init_population config (random_PRNGKey (seed config))) as [rng d].
  destruct (anneal_lr config); [|discriminate].
  rewrite bind_run. cbn [mret M_ret].
  destruct (range (population_size config)) as [|i0 l]; [discriminate|].
  cbn [jax_random_choice]. rewrite bind_run. cbn [mret M_ret].
  set (idx := random_choice (random_PRNGKey 0) (i0 :: l)).
  destruct (d !! idx) as [p|] eqn:Hp.
  - rewrite (bind_ok _ _ _ _ _ (getitem_ok _ _ _ _ Hp)).
    rewrite bind_run. cbn [emit].
    destruct (random_split rng) as [rng1 rng2].
    intros [= <- _]. reflexivity.
  - rewrite (bind_raise _ _ _ _ _ (getitem_raise _ _ _ Hp)). discriminate.
Qed.

Lemma jit_ok_inv {A : Type} (m : M A) log a log' :
  jit m log = (Ok a, log') -> m log = (Ok a, log').
Proof. unfold jit. destruct (m log) as [[a'|e] l]; [auto | discriminate]. Qed.

Lemma update_step_metric ts es lo us rng log rs' metric log' :
  _update_step config (ts, es, lo, us, rng) log = (Ok (rs', metric), log') ->
  m_update_step metric = (us + 1)%Z
  /\ m_env_step metric = wrap_int32 ((us + 1) * num_steps config * num_envs config).
Proof.
  intros Hrun.
  assert (Hok : pop_ok config (population ts)).
  { destruct (decide (pop_ok config (population ts))) as [H|H]; [exact H|].
    destruct (update_step_raise_pop config ts es lo us rng log H) as [e He].
    rewrite He in Hrun. discriminate. }
  assert (Hb : batch_ok config).
  { destruct (decide (batch_ok config)) as [H|H]; [exact H|].
    destruct (update_step_raise_assert config ts es lo us rng log Hok H) as [l He].
    rewrite He in Hrun. discriminate. }
  revert Hrun. unfold _update_step.
  destruct (collect_ok config ts es lo us rng log Hok) as (es1 & lo1 & rng1 & trs & Hc).
  rewrite (bind_ok _ _ _ _ _ Hc). cbn beta iota. cbn [network_apply].
  destruct (_calculate_gae config trs _) as [adv tgt].
  destruct (optimise_ok config ts trs adv tgt rng1
              (log ++ replicate (Z.to_nat (num_steps config)) EvEnvStep) Hb)
    as (ts' & rng' & losses & Hrun2 & _).
  rewrite (bind_ok _ _ _ _ _ Hrun2). cbn beta iota.
  intros H. injection H as _ Hm _. subst metric. split; reflexivity.
Qed.

(** X15. Without learning-rate annealing [train] raises a [TypeError] (the
    subscript [config["LR"]] on the dataclass) before anything is logged, and so
    does the program for every configuration that can be constructed. *)
Theorem train_rejects_constant_lr (a : TrainConfigArgs) log :
  anneal_lr config = false ->
  train config log = (Raise TypeError, log)
  /\ (post_init a = Ok config -> program a = (Raise TypeError, [])).
Proof.
  intros Ha.
  assert (H : forall lg, train config lg = (Raise TypeError, lg)).
  { intros lg. unfold train. rewrite bind_run.
    destruct (train_init_outcome config lg) as [(_ & ->)|[(Ha' & _)|(Ha' & _)]];
      [reflexivity | congruence | congruence]. }
  split; [apply H|]. intros Hpost. unfold program. rewrite Hpost. apply H.
Qed.

Section Valid.
Hypothesis Hchoice : forall k l, l <> [] -> random_choice k l ∈ l.

Lemma choice_in_range (k : Key) :
  (0 < population_size config)%Z ->
  (random_choice k (range (population_size config)) < Z.to_nat (population_size config))%nat.
Proof.
  intros Hps.
  pose proof (Hchoice k _ (range_nonempty config ltac:(lia))) as Hin.
  apply elem_of_seq in Hin. lia.
Qed.

Lemma iterations_events (n a : nat) :
  batch_ok config ->
  checkpoint_freq config <> 0%Z ->
  forall st log,
    loop_inv config st ->
    exists st' log',
      foldM (train_iteration config (range (population_size config))) st (seq a n) log
      = (Ok st', log')
      /\ loop_update_step st' = (loop_update_step st + Z.of_nat n)%Z
      /\ env_steps log' = (env_steps log + n * Z.to_nat (num_steps config))%nat
      /\ checkpoints_of log'
         = checkpoints_of log ++ flat_map (checkpoints_at config) (seq a n)
      /\ loop_key st' = Nat.iter n (fun k => fst (random_split k)) (loop_key st)
      /\ checkouts log'
         = checkouts log
           ++ map (fun i =>
                     random_choice
                       (snd (random_split
                               (Nat.iter i (fun k => fst (random_split k)) (loop_key st))))
                       (range (population_size config)))
                  (seq 0 n)
      /\ (n <> 0%nat ->
          exists metric,
            loop_metric st' = Some metric
            /\ m_update_step metric = loop_update_step st'
            /\ m_env_step metric
               = wrap_int32 (loop_update_step st' * num_steps config * num_envs config)).
Proof.
  intros Hb Hf. revert a. induction n as [|n IH]; intros a st log Hinv.
  - exists st, log. cbn. rewrite !app_nil_r, Z.add_0_r.
    repeat split; [lia | congruence].
  - cbn [seq foldM flat_map].
    assert (Hps : (0 < population_size config)%Z).
    { destruct Hinv as (_ & _ & Hcurr & _). lia. }
    destruct (train_iteration_run st a log Hinv Hb Hf (choice_in_range _ Hps))
      as (st1 & Hrun1 & Hus1).
    destruct (train_iteration_outcome config st a log Hinv)
      as [(Hb' & _)|[(_ & Hn & _)|[(_ & _ & Hf' & _)
         |(_ & _ & _ & st1' & l & tr & rs & m & H & Hinv1 & Hm & Hkey & _ & _ & Hjit & _)]]].
    + tauto.
    + pose proof (choice_in_range (snd (random_split (loop_key st))) Hps). lia.
    + tauto.
    + cbv zeta in H. rewrite Hrun1 in H. injection H as <- _.
      rewrite bind_run, Hrun1.
      match goal with
      | |- context [foldM _ st1 _ ?lg] =>
          destruct (IH (S a) st1 lg Hinv1)
            as (st2 & log2 & Hrun & Hus2 & He2 & Hc2 & Hk2 & Ho2 & Hm2)
      end.
      exists st2, log2. split; [exact Hrun|].
      split; [lia|]. split; [|split; [|split; [|split]]].
      * rewrite He2, !env_steps_app, env_steps_update_events, env_steps_checkpoints.
        cbn. lia.
      * rewrite Hc2, !checkpoints_of_app, checkpoints_of_update_events,
          checkpoints_of_checkpoints.
        cbn [checkpoints_of omap list_omap app]. rewrite <- app_assoc. f_equal.
        unfold checkpoints_at. now destruct (checkpoint_due config a).
      * rewrite Hk2, Hkey. symmetry.
        apply (Nat.iter_succ_r n (fun k => fst (random_split k))).
      * rewrite Ho2, Hkey. autorewrite with log_proj.
        cbn [checkouts omap list_omap app]. rewrite <- app_assoc. f_equal.
        cbn [seq map Nat.iter app]. f_equal.
        rewrite <- seq_shift, map_map. apply map_ext. intros i.
        do 3 f_equal. symmetry.
        apply (Nat.iter_succ_r i (fun k => fst (random_split k))).
      * intros _. destruct n as [|n'].
        -- cbn in Hrun. injection Hrun as <- _. exists m. split; [exact Hm|].
           destruct st as [[[key [[[[ts0 es] lo] us] rng]] old] m0].
           cbn [loop_runner_state loop_update_step] in *.
           destruct rs as [[[[ts1 es1] lo1] us1] rng1].
           destruct (update_step_metric _ _ _ _ _ _ _ _ _ (jit_ok_inv _ _ _ _ Hjit))
             as [Hm1 Hm2'].
           rewrite Hm1, Hm2', Hus1. split; reflexivity.
        -- apply Hm2. discriminate.
Qed.

Lemma train_events :
  anneal_lr config = true ->
  (0 < population_size config)%Z ->
  (0 < num_updates config)%Z ->
  batch_ok config ->
  checkpoint_freq config <> 0%Z ->
  exists rs metric log,
    train config [] = (Ok (rs, metric), log)
    /\ runner_update_step rs = num_updates config
    /\ env_steps log = (Z.to_nat (num_updates config) * Z.to_nat (num_steps config))%nat
    /\ checkpoints_of log
       = flat_map (checkpoints_at config) (seq 0 (Z.to_nat (num_updates config)))
    /\ checkouts log
       = trainee_indices (population_size config) (Z.to_nat (num_updates config))
    /\ m_update_step metric = num_updates config
    /\ m_env_step metric
       = wrap_int32 (num_updates config * num_steps config * num_envs config).
Proof.
  intros Ha Hps Hnu Hb Hf. unfold train. rewrite bind_run.
  destruct (train_init_outcome config [])
    as [(Ha' & _)|[(_ & Hr & _)|(_ & Hr & idx & Hidx
       & [(Hn & _)|(Hn & st & H & Hinv & Hkey & _)])]].
  - congruence.
  - exfalso. apply (range_nonempty config); [lia | exact Hr].
  - exfalso. pose proof (choice_in_range (random_PRNGKey 0) Hps). lia.
  - rewrite H. pose proof (train_init_update_step _ _ _ H) as Hus0.
    destruct (iterations_events (Z.to_nat (num_updates config)) 0 Hb Hf st
                ([] ++ [EvCheckout idx]) Hinv)
      as (st' & log' & Hrun & Hus & He & Hc & _ & Ho & Hm).
    unfold train_loop. rewrite bind_run, Hrun.
    destruct (Hm ltac:(lia)) as (m & Hsome & Hm1 & Hm2).
    destruct st' as [[[key rs] old] m'].
    cbn [loop_metric] in Hsome. subst m'.
    exists rs, m, log'. split; [reflexivity|].
    destruct rs as [[[[ts es] lo] us] rng].
    cbn [loop_update_step runner_update_step] in *.
    assert (Hus' : us = num_updates config) by lia.
    split; [exact Hus'|]. split; [exact He|]. split; [exact Hc|].
    split; [|split; [congruence | rewrite Hm2; now rewrite Hus']].
    rewrite Ho, Hkey, Hidx. reflexivity.
Qed.

(** X16. Among the configurations of valid sizes, [train] returns exactly
    for those with annealing enabled, a non-empty population, at least one
    scheduled update, a batch the minibatches divide, and a non-zero checkpoint
    frequency; for every other one it ends in an exception. *)
Theorem train_returns_iff :
  valid_sizes config ->
  (exists r log, train config [] = (Ok r, log))
  <-> (anneal_lr config = true
       /\ (0 < population_size config)%Z
       /\ (0 < num_updates config)%Z
       /\ batch_ok config
       /\ checkpoint_freq config <> 0%Z).
Proof.
  intros _. split.
  - intros (r & log & Hrun). unfold train in Hrun. rewrite bind_run in Hrun.
    destruct (train_init_outcome config [])
      as [(_ & H)|[(_ & _ & H)|(Ha & Hr & idx & Hidx
         & [(_ & H)|(Hn & st & H & Hinv & _ & _ & _ & Hm & _)])]];
      rewrite H in Hrun; try discriminate.
    assert (Hps : (0 < population_size config)%Z) by lia.
    destruct (Z.to_nat (num_updates config)) as [|n] eqn:Hnu.
    { exfalso. rewrite bind_run in Hrun. cbn [train_loop seq foldM mret M_ret] in Hrun.
      destruct st as [[[key rs] old] m]. cbn in Hm. subst m. discriminate. }
    unfold train_loop in Hrun. rewrite bind_run in Hrun. cbn [seq foldM] in Hrun.
    rewrite bind_run in Hrun.
    destruct (train_iteration_outcome config st 0 ([] ++ [EvCheckout idx]) Hinv)
      as [(_ & H1)|[(_ & _ & H1)|[(_ & _ & _ & H1)|(Hb & _ & Hf & _)]]];
      try (cbv zeta in H1; rewrite H1 in Hrun; discriminate).
    repeat split; [assumption | lia | lia | assumption | assumption].
  - intros (Ha & Hps & Hnu & Hb & Hf).
    destruct (train_events Ha Hps Hnu Hb Hf) as (rs & m & log & Hrun & _).
    eauto.
Qed.

(** X17. A run that returns has executed exactly [num_updates * num_steps]
    vectorised environment steps, and the update counter of the returned runner
    state is [num_updates]. *)
Theorem run_env_steps :
  anneal_lr config = true ->
  (0 < population_size config)%Z ->
  (0 < num_updates config)%Z ->
  batch_ok config ->
  checkpoint_freq config <> 0%Z ->
  exists rs metric log,
    train config [] = (Ok (rs, metric), log)
    /\ env_steps log = (Z.to_nat (num_updates config) * Z.to_nat (num_steps config))%nat
    /\ runner_update_step rs = num_updates config.
Proof.
  intros Ha Hps Hnu Hb Hf.
  destruct (train_events Ha Hps Hnu Hb Hf) as (rs & m & log & Hrun & Hus & He & _).
  eauto 10.
Qed.

(** X18. A run that returns writes checkpoints exactly at the iterations
    [i > 0] that [checkpoint_freq] divides, one for every member of the
    population in index order; iteration [0] never writes one, so a run of at
    most [checkpoint_freq] updates writes none. *)
Theorem run_checkpoints :
  anneal_lr config = true ->
  (0 < population_size config)%Z ->
  (0 < num_updates config)%Z ->
  batch_ok config ->
  checkpoint_freq config <> 0%Z ->
  exists r log,
    train config [] = (Ok r, log)
    /\ checkpoints_of log
       = flat_map (fun i =>
                     if ((Z.of_nat i mod checkpoint_freq config =? 0)%Z
                         && negb (i =? 0)%nat)%bool
                     then map (pair i) (seq 0 (Z.to_nat (population_size config)))
                     else [])
                  (seq 0 (Z.to_nat (num_updates config)))
    /\ ((num_updates config <= checkpoint_freq config)%Z -> checkpoints_of log = []).
Proof.
  intros Ha Hps Hnu Hb Hf.
  destruct (train_events Ha Hps Hnu Hb Hf) as (rs & m & log & Hrun & _ & _ & Hc & _).
  exists (rs, m), log. split; [exact Hrun|]. split; [exact Hc|].
  intros Hle. rewrite Hc.
  assert (Hnone : forall l, Forall (fun i => (i < Z.to_nat (num_updates config))%nat) l ->
                            flat_map (checkpoints_at config) l = []).
  { induction 1 as [|i l Hi _ IH]; [reflexivity|].
    cbn [flat_map]. rewrite IH, app_nil_r. unfold checkpoints_at, checkpoint_due.
    destruct i as [|i]; [now rewrite andb_false_r|].
    rewrite Z.mod_small by lia.
    destruct (Z.eqb_spec (Z.of_nat (S i)) 0); [lia | reflexivity]. }
  apply Hnone, Forall_seq. intros j Hj. lia.
Qed.

(** X19. With [checkpoint_freq = 0] an otherwise valid run fails with a
    [ZeroDivisionError], and only at the end of its first iteration: the whole
    first update step and the rotation have been executed by then. *)
Theorem zero_checkpoint_freq_fails_late :
  anneal_lr config = true ->
  (0 < population_size config)%Z ->
  (0 < num_updates config)%Z ->
  batch_ok config ->
  checkpoint_freq config = 0%Z ->
  exists idx new,
    train config []
    = (Raise ZeroDivisionError,
       [EvCheckout idx] ++ update_events config 0 ++ [EvCheckout new])
    /\ env_steps ([EvCheckout idx] ++ update_events config 0 ++ [EvCheckout new])
       = Z.to_nat (num_steps config).
Proof.
  intros Ha Hps Hnu Hb Hf. unfold train. rewrite bind_run.
  destruct (train_init_outcome config [])
    as [(Ha' & _)|[(_ & Hr & _)|(_ & Hr & idx & Hidx
       & [(Hn & _)|(Hn & st & H & Hinv & _ & _ & Hc0 & _)])]].
  - congruence.
  - exfalso. apply (range_nonempty config); [lia | exact Hr].
  - exfalso. pose proof (choice_in_range (random_PRNGKey 0) Hps). lia.
  - rewrite H.
    destruct (Z.to_nat (num_updates config)) as [|n] eqn:En; [lia|].
    unfold train_loop. rewrite bind_run. cbn [seq foldM]. rewrite bind_run.
    destruct (train_iteration_outcome config st 0 ([] ++ [EvCheckout idx]) Hinv)
      as [(Hb' & _)|[(_ & Hn' & _)|[(_ & _ & _ & H1)|(_ & _ & Hf' & _)]]].
    + tauto.
    + pose proof (choice_in_range (snd (random_split (loop_key st))) Hps). lia.
    + cbv zeta in H1. rewrite H1, Hc0. do 2 eexists. split; [reflexivity|].
      rewrite !env_steps_app, env_steps_update_events. cbn. lia.
    + tauto.
Qed.

(** X20. With valid sizes and no update scheduled ([num_updates <= 0])
    [train] ends in an [UnboundLocalError] for [metric], having logged nothing
    but the first check-out. *)
Theorem train_without_updates :
  valid_sizes config ->
  anneal_lr config = true ->
  (0 < population_size config)%Z ->
  (num_updates config <= 0)%Z ->
  exists idx, train config [] = (Raise UnboundLocalError, [EvCheckout idx]).
Proof.
  intros _ Ha Hps Hnu. unfold train. rewrite bind_run.
  destruct (train_init_outcome config [])
    as [(Ha' & _)|[(_ & Hr & _)|(_ & Hr & idx & Hidx
       & [(Hn & _)|(Hn & st & H & Hinv & _ & _ & _ & Hm & _)])]].
  - congruence.
  - exfalso. apply (range_nonempty config); [lia | exact Hr].
  - exfalso. pose proof (choice_in_range (random_PRNGKey 0) Hps). lia.
  - rewrite H. exists idx.
    replace (Z.to_nat (num_updates config)) with 0%nat by lia.
    rewrite bind_run. cbn [train_loop seq foldM mret M_ret].
    destruct st as [[[key rs] old] m]. cbn in Hm. subst m. reflexivity.
Qed.

(** X24. The metrics [train] returns report the whole run: their
    [env_step] is the 32-bit product [num_updates * num_steps * num_envs]; as
    long as this product is below [2^31] their [update_step] is [num_updates],
    their [env_step] is the product itself, and a constructed configuration
    with a non-negative budget keeps it within [total_timesteps]. *)
Theorem run_metric :
  valid_sizes config ->
  anneal_lr config = true ->
  (0 < population_size config)%Z ->
  (0 < num_updates config)%Z ->
  batch_ok config ->
  checkpoint_freq config <> 0%Z ->
  exists rs metric log,
    train config [] = (Ok (rs, metric), log)
    /\ m_env_step metric
       = wrap_int32 (num_updates config * num_steps config * num_envs config)
    /\ ((num_updates config * num_steps config * num_envs config < 2147483648)%Z ->
        m_update_step metric = num_updates config
        /\ m_env_step metric
           = (num_updates config * num_steps config * num_envs config)%Z
        /\ (forall a, post_init a = Ok config ->
                      (0 <= total_timesteps config)%Z ->
                      (m_env_step metric <= total_timesteps config)%Z)).
Proof.
  intros (He & Hs & _) Ha Hps Hnu Hb Hf.
  destruct (train_events Ha Hps Hnu Hb Hf)
    as (rs & m & log & Hrun & _ & _ & _ & _ & Hm1 & Hm2).
  exists rs, m, log. split; [exact Hrun|]. split; [exact Hm2|].
  intros Hbound.
  assert (Hsmall : m_env_step m
                   = (num_updates config * num_steps config * num_envs config)%Z).
  { rewrite Hm2. apply wrap_int32_small. nia. }
  split; [exact Hm1|]. split; [exact Hsmall|].
  intros a Hpost Ht. rewrite Hsmall.
  destruct (post_init_fields a config Hpost) as (_ & Hn & _).
  rewrite Hn, Z.div_div by lia.
  set (k := (num_steps config * num_envs config)%Z).
  assert (Hk : (0 < k)%Z) by (unfold k; nia).
  pose proof (Z.mul_div_le (total_timesteps config) k Hk).
  replace (total_timesteps config / k * num_steps config * num_envs config)%Z
    with (k * (total_timesteps config / k))%Z by (unfold k; lia).
  assumption.
Qed.

(** X25. The trainees of a run that returns are drawn from a chain of keys
    that starts at [PRNGKey(0)]: the sequence of checked-out indices is
    [trainee_indices population_size num_updates], the same for all
    configurations with this population size and number of updates, whatever
    the seed, the environment or the learning. *)
Theorem trainee_indices_explicit :
  anneal_lr config = true ->
  (0 < population_size config)%Z ->
  (0 < num_updates config)%Z ->
  batch_ok config ->
  checkpoint_freq config <> 0%Z ->
  exists r log,
    train config [] = (Ok r, log)
    /\ checkouts log
       = trainee_indices (population_size config) (Z.to_nat (num_updates config))
    /\ length (checkouts log) = S (Z.to_nat (num_updates config))
    /\ Forall (fun i => (i < Z.to_nat (population_size config))%nat) (checkouts log).
Proof.
  intros Ha Hps Hnu Hb Hf.
  destruct (train_events Ha Hps Hnu Hb Hf)
    as (rs & m & log & Hrun & _ & _ & _ & Ho & _).
  exists (rs, m), log. split; [exact Hrun|]. split; [exact Ho|].
  rewrite Ho. unfold trainee_indices. split.
  - cbn [length]. now rewrite length_map, length_seq.
  - constructor; [apply choice_in_range; exact Hps|].
    apply Forall_fmap, Forall_forall. intros i _. apply choice_in_range. exact Hps.
Qed.

End Valid.
End Run.

(** ** The sign of the diversity bonus *)

Section Bonus.
Context {B : Backend}.
Variable config : TrainConfig.
Local Open Scope R_scope.

Lemma mean_unit (l : list R) :
  l <> [] -> Forall (fun x => 0 < x <= 1) l -> 0 < sum_R l / INR (length l) <= 1.
Proof.
  intros Hne H.
  assert (Hn : 0 < INR (length l)) by (apply lt_0_INR; destruct l; [congruence | cbn; lia]).
  assert (Hs : 0 < sum_R l <= INR (length l)).
  { clear Hn. unfold sum_R. induction H as [|x l Hx Hl IH]; [congruence|].
    destruct l as [|y l].
    - cbn. lra.
    - specialize (IH ltac:(discriminate)).
      cbn [foldr length] in *. rewrite !S_INR in *. lra. }
  split.
  - apply Rdiv_lt_0_compat; lra.
  - apply (Rmult_le_reg_r (INR (length l))); [exact Hn|].
    unfold Rdiv. rewrite Rmult_assoc, Rinv_l, Rmult_1_r, Rmult_1_l by lra. lra.
Qed.

Lemma Forall_jnp_delete {A : Type} (P : A -> Prop) (idx : nat) (l : list A) :
  Forall P l -> Forall P (jnp_delete idx l).
Proof.
  intros H. unfold jnp_delete. destruct (idx <? length l)%nat.
  - now apply Forall_delete.
  - induction H as [|x l Hx Hl IH]; [constructor|].
    cbn [removelast]. destruct l; [constructor|]. constructor; assumption.
Qed.

Lemma positive_entry (row : list R) (a : nat) :
  positive_distribution row -> (a < 6)%nat -> 0 < nth a row 0 <= 1.
Proof.
  intros (Hlen & Hpos & Hsum) Ha.
  assert (Hin : nth a row 0 ∈ row).
  { apply list_elem_of_In, nth_In. lia. }
  split.
  - rewrite Forall_forall in Hpos. now apply Hpos.
  - rewrite <- Hsum. now apply elem_le_sum_R.
Qed.

Lemma mix_row0_entry (rows : nat) (ms : list (list (list R))) (a : nat) :
  (0 < rows)%nat -> (a < 6)%nat ->
  nth a (concat (mean_axis0 rows 6 ms)) 0
  = sum_R (map (fun m => at2 m 0 a) ms) / INR (length ms).
Proof.
  intros Hr Ha. unfold mean_axis0.
  destruct rows as [|rows]; [lia|]. cbn [seq map concat app].
  do 6 (destruct a as [|a]; [reflexivity|]). lia.
Qed.

(** X21. The diversity bonus is never negative: when every policy gives
    each of the six actions a positive probability, every entry of
    [neg_logp_pop_new] that [_env_step] records is at least [0]. *)
Theorem diversity_bonus_nonneg ts es lo us rng (ms : list Params) log rs' tr log' :
  (forall p o, positive_distribution (fst (network_forward p o))) ->
  (forall k pi, Forall (fun a => (a < 6)%nat) (categorical_sample k pi)) ->
  members_of (population ts) ms ->
  length ms = Z.to_nat (population_size config) ->
  batchify lo <> [] ->
  (0 < num_actors config)%Z ->
  _env_step config (ts, es, lo, us, rng) tt log = (Ok (rs', tr), log') ->
  Forall (fun x => 0 <= x) (neg_logp_pop_new tr).
Proof.
  intros Hdist Hact Hms Hlen Hobs Hactors Hrun.
  destruct (env_step_spec config ts es lo us rng ms log Hms Hlen)
    as (es' & lo' & rng' & tr' & k & outs & Hrun' & Hneg & _).
  rewrite Hrun in Hrun'. injection Hrun' as _ <- _.
  rewrite Hneg. unfold vneg_log, jnp_take. rewrite !Forall_fmap.
  eapply Forall_impl; [apply Hact|]. intros a Ha. cbn.
  rewrite mix_row0_entry by (assumption || lia).
  set (mix := _ ++ [_]).
  assert (Hmix : Forall (fun m : list (list R) => 0 < at2 m 0 a <= 1) mix).
  { assert (Hrow : forall p, 0 < at2 (fst (network_apply p (batchify lo))) 0 a <= 1).
    { intros p. unfold at2, network_apply. cbn [fst].
      destruct (batchify lo) as [|o obs_batch]; [congruence|]. cbn [map nth].
      apply positive_entry; [apply Hdist | exact Ha]. }
    unfold mix. apply Forall_app. split.
    - apply Forall_jnp_delete, Forall_fmap, Forall_forall. intros p _. apply Hrow.
    - constructor; [apply Hrow | constructor]. }
  assert (Hmean : 0 < sum_R (map (fun m => at2 m 0 a) mix) / INR (length mix) <= 1).
  { rewrite <- (length_map (fun m => at2 m 0 a) mix). apply mean_unit.
    - unfold mix. destruct (jnp_delete _ _); discriminate.
    - now apply Forall_fmap. }
  destruct Hmean as [Hpos Hle].
  destruct (Rle_lt_or_eq_dec _ _ Hle) as [Hlt| ->]; [|rewrite ln_1; lra].
  pose proof (ln_increasing _ _ Hpos Hlt) as Hln. rewrite ln_1 in Hln. lra.
Qed.

End Bonus.

(** ** The update step as a whole *)

Section UpdateStepEffects.
Context {B : Backend}.
Variable config : TrainConfig.

(** X22. For valid sizes, a runner state with one entry per environment
    and counters that stay within the 32-bit integers, [_update_step] succeeds
    exactly when every index below [population_size] is a key of the population
    and the batch size agrees with the minibatches; it then leaves the
    population, the trainee index and the other indices as they were, advances
    the update counter by one and the optimizer step count by
    [update_epochs * num_minibatches], and executes [num_steps] environment
    steps followed by that many gradient updates. *)
Theorem update_step_effects ts es lo us rng log :
  valid_sizes config ->
  (0 < population_size config)%Z ->
  runner_shape config es lo ->
  (0 <= us < 2147483647)%Z ->
  (0 <= fst (opt_state ts))%Z ->
  (fst (opt_state ts) + update_epochs config * num_minibatches config < 2147483648)%Z ->
  ((exists r log', _update_step config (ts, es, lo, us, rng) log = (Ok r, log'))
   <-> pop_ok config (population ts) /\ batch_ok config)
  /\ (forall ts' es' lo' us' rng' metric log',
        _update_step config (ts, es, lo, us, rng) log
        = (Ok ((ts', es', lo', us', rng'), metric), log') ->
        same_population ts ts'
        /\ us' = (us + 1)%Z
        /\ fst (opt_state ts')
           = (fst (opt_state ts)
              + Z.of_nat (Z.to_nat (update_epochs config)
                          * Z.to_nat (num_minibatches config)))%Z
        /\ log' = log ++ replicate (Z.to_nat (num_steps config)) EvEnvStep
                      ++ grad_events config (fst (opt_state ts))
                           (Z.to_nat (update_epochs config)
                            * Z.to_nat (num_minibatches config))).
Proof.
  intros _ _ _ _ _ _.
  assert (Hiff : (exists r log', _update_step config (ts, es, lo, us, rng) log = (Ok r, log'))
                 -> pop_ok config (population ts) /\ batch_ok config).
  { intros (r & log' & Hrun).
    destruct (decide (pop_ok config (population ts))) as [Hok|Hn].
    - split; [exact Hok|].
      destruct (decide (batch_ok config)) as [Hb|Hb]; [exact Hb|].
      destruct (update_step_raise_assert config ts es lo us rng log Hok Hb) as [l H].
      rewrite H in Hrun. discriminate.
    - destruct (update_step_raise_pop config ts es lo us rng log Hn) as [e H].
      rewrite H in Hrun. discriminate. }
  split; [split; [exact Hiff|]|].
  - intros [Hok Hb].
    destruct (update_step_ok config ts es lo us rng log Hok Hb)
      as (ts' & es' & lo' & rng' & metric & Hrun & _).
    eauto.
  - intros ts' es' lo' us' rng' metric log' Hrun.
    destruct (Hiff (ex_intro _ _ (ex_intro _ _ Hrun))) as [Hok Hb].
    destruct (update_step_ok config ts es lo us rng log Hok Hb)
      as (ts1 & es1 & lo1 & rng1 & metric1 & Hrun1 & Hsame & Hcount).
    rewrite Hrun in Hrun1. injection Hrun1 as -> -> -> -> -> -> ->.
    repeat split; try assumption; apply Hsame.
Qed.

(** X23. On a trajectory batch of [T] timesteps with [n] actors each,
    [_calculate_gae] returns advantages and targets of shape [(T, n)]. *)
Theorem calculate_gae_shape (n : nat) (traj_batch : list (Trans list)) (last_val : list R) :
  Forall (step_shape n) traj_batch ->
  length last_val = n ->
  length (fst (_calculate_gae config traj_batch last_val)) = length traj_batch
  /\ Forall (fun row => length row = n) (fst (_calculate_gae config traj_batch last_val))
  /\ length (snd (_calculate_gae config traj_batch last_val)) = length traj_batch
  /\ Forall (fun row => length row = n) (snd (_calculate_gae config traj_batch last_val)).
Proof.
  intros Hshape Hlv.
  destruct (calculate_gae_scan config traj_batch last_val) as [-> ->].
  destruct (scan_gae_shape config n traj_batch (replicate (length last_val) 0%R) last_val
              Hshape ltac:(now rewrite length_replicate) Hlv) as (_ & _ & Hrows).
  set (out := snd (scan_reverse _ _ traj_batch)) in *.
  assert (Hlen : length out = length traj_batch) by apply scan_reverse_length.
  split; [exact Hlen|]. split; [exact Hrows|]. split.
  - rewrite length_zip_with, length_map, Hlen. lia.
  - apply Forall_forall. intros row Hin.
    apply list_elem_of_lookup in Hin as [t Ht].
    rewrite lookup_zip_with in Ht.
    destruct (out !! t) as [a|] eqn:Ea; [|discriminate]. cbn in Ht.
    rewrite list_lookup_fmap in Ht.
    destruct (traj_batch !! t) as [tr|] eqn:Et; [|discriminate]. cbn in Ht.
    injection Ht as <-. unfold vadd. rewrite length_zip_with.
    rewrite Forall_forall in Hrows. rewrite Forall_forall in Hshape.
    rewrite (Hrows a) by (eapply list_elem_of_lookup_2; exact Ea).
    destruct (Hshape tr ltac:(eapply list_elem_of_lookup_2; exact Et)) as (_ & -> & _).
    lia.
Qed.

End UpdateStepEffects.

(** ** The further properties at the small instance *)

Section MoreWitnesses.
Import Toy.
#[local] Existing Instance backend.
#[local] Existing Instance evaluator.
Local Open Scope R_scope.

Lemma batchify_unbatchify_witness :
  unbatchify (batchify (mkPerAgent [1; 2] [3; 4])) 2 = mkPerAgent [1; 2] [3; 4]
  /\ batchify (unbatchify [1; 2; 3; 4] 2) = [1; 2; 3; 4].
Proof.
  destruct (@batchify_unbatchify backend R 2) as [H1 H2].
  split; [apply H1; reflexivity | apply H2; reflexivity].
Defined.

Lemma linear_schedule_range_witness :
  lr config / IZR (num_updates config) <= linear_schedule config 3 <= lr config
  /\ linear_schedule config 5 <= linear_schedule config 3.
Proof.
  apply (linear_schedule_range config 3 5); cbn; try lia; lra.
Defined.

Lemma rew_shaping_anneal_range_witness :
  rew_shaping_anneal config 7 <= rew_shaping_anneal config 3
  /\ rew_shaping_anneal config (-2) = 1.
Proof.
  destruct (rew_shaping_anneal_range config 3 7) as (_ & H1 & _).
  destruct (rew_shaping_anneal_range config (-2) 0) as (_ & _ & H2).
  split; [apply H1; lia | apply H2; lia].
Defined.

Lemma entropy_uniform_witness :
  entropy (replicate 1 (replicate 6 (/ INR 6))) = replicate 1 MAX_ENT.
Proof.
  destruct (entropy_uniform 6 1 ltac:(lia)) as [_ H]. apply H. reflexivity.
Defined.

Lemma advantages_per_actor_witness :
  advantage_at config [constant_transition] [1; 7] 0 0
  = advantage_at config [constant_transition] [1; 9] 0 0
  /\ target_at config [constant_transition] [1; 7] 0 0
     = target_at config [constant_transition] [1; 9] 0 0.
Proof.
  apply (advantages_per_actor config [constant_transition] [constant_transition]
           [1; 7] [1; 9] 0 0).
  - repeat constructor.
  - reflexivity.
Defined.

Lemma advantage_cut_at_done_witness :
  advantage_at config [constant_transition; final_transition; constant_transition]
               [1; 1] 1 0 = Some (3 - 1)
  /\ advantage_at config [constant_transition; final_transition] [5; 5] 0 0
     = advantage_at config [constant_transition; final_transition; constant_transition]
                    [1; 1] 0 0.
Proof.
  apply (advantage_cut_at_done config 2 [constant_transition] [constant_transition] []
           final_transition [1; 1] [5; 5] 0 0 3 1);
    try reflexivity; repeat constructor.
Defined.

Lemma calculate_gae_shape_witness :
  length (fst (_calculate_gae config [constant_transition; final_transition] [1; 1]))
  = 2%nat
  /\ Forall (fun row => length row = 2%nat)
            (fst (_calculate_gae config [constant_transition; final_transition] [1; 1]))
  /\ length (snd (_calculate_gae config [constant_transition; final_transition] [1; 1]))
     = 2%nat
  /\ Forall (fun row => length row = 2%nat)
            (snd (_calculate_gae config [constant_transition; final_transition] [1; 1])).
Proof.
  apply (calculate_gae_shape config 2 [constant_transition; final_transition] [1; 1]);
    try reflexivity; repeat constructor.
Defined.

Lemma loss_clipping_pessimistic_witness :
  0 <= 1 / 2 * mean_R (map (fun x => x * x)
                           (vsub (snd (network_apply (2%nat : @Params backend)
                                                     (obs constant_transition)))
                                 [1; 1]))
    <= loss_value config (2%nat : @Params backend) (constant_transition, [1; 2], [1; 1])
  /\ - mean_R (vmul (loss_ratio (2%nat : @Params backend) constant_transition)
                    (normalised [1; 2]))
     <= loss_actor config (2%nat : @Params backend) (constant_transition, [1; 2], [1; 1]).
Proof.
  apply (loss_clipping_pessimistic config (2%nat : @Params backend) constant_transition
           [1; 2] [1; 1]); reflexivity.
Defined.

Lemma loss_unchanged_policy_witness :
  loss_ratio (2%nat : @Params backend) recorded_transition = [1; 1]
  /\ loss_actor config (2%nat : @Params backend) (recorded_transition, [1; 2], [1; 1]) = 0.
Proof.
  destruct (loss_unchanged_policy config (2%nat : @Params backend) recorded_transition
              [1; 2] [1; 1]) as (H1 & H2 & _).
  - reflexivity.
  - cbn. lra.
  - reflexivity.
  - split; [exact H1 | exact H2].
Defined.

Lemma rollout_returns_witness :
  rollout (0%nat : @Key backend) (2%nat : @Params backend) 5
  = Some (sum_R (map (fun j => step_reward (2%nat : @Params backend)
                                 (rollout_carry (0%nat : @Key backend)
                                                (2%nat : @Params backend) j))
                     (seq 0 3)),
          3%Z)
  /\ rollout (0%nat : @Key backend) (2%nat : @Params backend) 2 = None.
Proof.
  assert (Hend : carry_done (rollout_carry (0%nat : @Key backend)
                               (2%nat : @Params backend) 3) = true)
    by (vm_compute; reflexivity).
  assert (Hrun : forall j, (j < 3)%nat ->
            carry_done (rollout_carry (0%nat : @Key backend)
                          (2%nat : @Params backend) j) = false).
  { intros j Hj. destruct j as [|[|[|j]]]; [vm_compute; reflexivity.. | lia]. }
  split.
  - apply (proj2 (rollout_returns (0%nat : @Key backend) (2%nat : @Params backend)
                    3 5 Hend Hrun)).
  - apply (proj2 (rollout_returns (0%nat : @Key backend) (2%nat : @Params backend)
                    3 2 Hend Hrun)).
Defined.

Lemma rollout_never_done_witness :
  @rollout backend endless_evaluator 0%nat 2%nat 7 = None.
Proof.
  apply (@rollout_never_done backend endless_evaluator 0%nat 2%nat 7).
  intros j. destruct j as [|j]; [reflexivity|].
  change (@rollout_carry backend endless_evaluator 0%nat 2%nat (S j))
    with (@_body_fn backend endless_evaluator 2%nat
            (@rollout_carry backend endless_evaluator 0%nat 2%nat j)).
  destruct (@rollout_carry backend endless_evaluator 0%nat 2%nat j)
    as [[[[k s] st] o] d].
  reflexivity.
Defined.

Lemma train_rejects_constant_lr_witness :
  train (config_with false 100 2 2) [] = (Raise TypeError, []).
Proof.
  apply (train_rejects_constant_lr (config_with false 100 2 2) args [] eq_refl).
Defined.

Lemma train_returns_iff_witness :
  (exists r log, train config [] = (Ok r, log))
  /\ ~ (exists r log, train (config_with true 100 0 2) [] = (Ok r, log)).
Proof.
  split.
  - apply (proj2 (train_returns_iff config Toy_choice
                    ltac:(unfold valid_sizes; cbn; lia))).
    repeat split; try reflexivity. cbn. lia.
  - intros H.
    apply (proj1 (train_returns_iff (config_with true 100 0 2) Toy_choice
                    ltac:(unfold valid_sizes; cbn; lia))) in H.
    destruct H as (_ & H & _). cbn in H. lia.
Defined.

Lemma run_env_steps_witness :
  exists rs metric log,
    train config [] = (Ok (rs, metric), log)
    /\ env_steps log = 2%nat
    /\ runner_update_step rs = 2%Z.
Proof.
  apply (run_env_steps config Toy_choice); try reflexivity. cbn. lia.
Defined.

Lemma run_checkpoints_witness :
  exists r log,
    train (config_with true 1 2 3) [] = (Ok r, log)
    /\ checkpoints_of log = [(1, 0); (1, 1); (2, 0); (2, 1)]%nat.
Proof.
  destruct (run_checkpoints (config_with true 1 2 3) Toy_choice)
    as (r & log & Hrun & Hc & _); try reflexivity; [cbn; lia|].
  exists r, log. split; [exact Hrun | exact Hc].
Defined.

Lemma zero_checkpoint_freq_fails_late_witness :
  exists idx new,
    train (config_with true 0 2 2) []
    = (Raise ZeroDivisionError,
       [EvCheckout idx] ++ update_events (config_with true 0 2 2) 0 ++ [EvCheckout new]).
Proof.
  destruct (zero_checkpoint_freq_fails_late (config_with true 0 2 2) Toy_choice)
    as (idx & new & Hrun & _); try reflexivity.
  exists idx, new. exact Hrun.
Defined.

Lemma train_without_updates_witness :
  exists idx, train (config_with true 100 2 0) [] = (Raise UnboundLocalError, [EvCheckout idx]).
Proof.
  apply (train_without_updates (config_with true 100 2 0) Toy_choice);
    try reflexivity.
  unfold valid_sizes. cbn. lia.
Defined.

Lemma diversity_bonus_nonneg_witness :
  exists rs' tr log',
    _env_step config runner_state0 tt [] = (Ok (rs', tr), log')
    /\ Forall (fun x => 0 <= x) (neg_logp_pop_new tr).
Proof.
  destruct (env_step_spec config train_state0 [tt; tt]
              (mkPerAgent [0; 0] [0; 0])%nat 0%Z 8%nat [2; 4]%nat []
              Toy_members eq_refl)
    as (es' & lo' & rng' & tr & k & outs & Hrun & _).
  do 3 eexists. split; [exact Hrun|].
  refine (diversity_bonus_nonneg config _ _ _ _ _ [2; 4]%nat _ _ _ _ _ _ _ _ _ _ Hrun).
  - intros p o. split; [reflexivity|].
    split; [unfold toy_row; repeat constructor; lra|].
    unfold toy_row, sum_R. cbn. lra.
  - intros k' pi.
    change (Forall (fun a => (a < 6)%nat)
                   (imap (fun (j : nat) (_ : list R) => (j mod 6)%nat) pi)).
    apply Forall_lookup. intros i a Ha.
    rewrite list_lookup_imap in Ha. destruct (pi !! i); [|discriminate].
    cbn [fmap option_fmap option_map] in Ha.
    injection Ha as <-. change (i mod 6 < 6)%nat. apply Nat.mod_upper_bound. lia.
  - exact Toy_members.
  - reflexivity.
  - discriminate.
  - reflexivity.
Defined.

Lemma update_step_effects_witness :
  exists r log', _update_step config runner_state0 [] = (Ok r, log').
Proof.
  apply (proj2 (proj1 (update_step_effects config train_state0 [tt; tt]
                         (mkPerAgent [0; 0] [0; 0])%nat 0%Z 8%nat []
                         ltac:(unfold valid_sizes; cbn; lia) ltac:(cbn; lia)
                         ltac:(repeat split) ltac:(lia) ltac:(cbn; lia)
                         ltac:(cbn; lia)))).
  split; [|reflexivity].
  apply dom_pop_ok. vm_compute. reflexivity.
Defined.

Lemma run_metric_witness :
  exists rs metric log,
    train config [] = (Ok (rs, metric), log)
    /\ m_update_step metric = 2%Z
    /\ m_env_step metric = 4%Z
    /\ (m_env_step metric <= total_timesteps config)%Z.
Proof.
  destruct (run_metric config Toy_choice)
    as (rs & m & log & Hrun & _ & H);
    [unfold valid_sizes; cbn; lia | reflexivity | reflexivity | reflexivity
    | reflexivity | cbn; lia |].
  destruct (H ltac:(cbn; lia)) as (H1 & H2 & H3).
  exists rs, m, log. split; [exact Hrun|]. split; [exact H1|]. split; [exact H2|].
  apply (H3 args Toy_post_init). cbn. lia.
Defined.

Lemma trainee_indices_explicit_witness :
  exists r log,
    train config [] = (Ok r, log)
    /\ checkouts log = trainee_indices 2 2
    /\ length (checkouts log) = 3%nat.
Proof.
  destruct (trainee_indices_explicit config Toy_choice)
    as (r & log & Hrun & H1 & H2 & _); try reflexivity; [cbn; lia|].
  exists r, log. split; [exact Hrun|]. split; [exact H1 | exact H2].
Defined.

End MoreWitnesses.
